(** * Drone-simulation utilities: a shallow embedding and its properties

    The repository holds four command-line tools:
    - [resize_images.py]                (module [Resize]),
    - [mp4_to_frames.py]                (module [Mp4]),
    - [drone_websocket_simulator.py]    (module [Telemetry]),
    - [drone_binary_image_simulator.py] (module [BinaryImage]).
    The names of the frame files, which the extractor writes and the
    sender reads, are in module [FrameFiles].

    Conventions of the embedding.
    - Python [int] is [Z].
    - Python [float]: in the two batch tools, where integers are cut out of
      floats by [int()], a float is the rational it denotes and every [/]
      and [*] rounds its exact result by [fl], a parameter that stands for
      the rounding of IEEE doubles ([Py.rounds_like_double],
      [Py.monotone] and [Py.exact_on_integers] are what the proofs ask of
      it; [Py.no_rounding] is exact arithmetic); two expressions are also
      evaluated in binary64 itself
      ([Resize.new_height_binary64], [Mp4.frame_step_binary64]).  In the
      telemetry simulator, whose formulas need [sin], [cos] and [pi], a
      float is a real number and the arithmetic is exact.  That model
      covers finite arguments on which nothing overflows: infinities, NaN
      and rounding are outside it (with [--center-lat inf], which
      [validate_args] lets pass, [math.cos] raises; with
      [--radius-m 1e-320] a quotient overflows), and every statement about
      the simulator's numbers is made of that domain.  Where a statement
      depends on the difference, the expression is evaluated in binary64
      as well ([Telemetry.two_pi_binary64],
      [Telemetry.advance_angle_binary64], [Py.py_mod_binary64]).
    - Exceptions are told apart by the handlers of the tools ([Py.exn]):
      [KeyboardInterrupt], a closed connection, [OSError], [InvalidURI],
      any other [Exception], and a cancellation, which no handler
      catches.
    - [main] starts from the command line ([Py.command_line]): [argparse]
      exits with 0 on [--help] and with 2 on what it refuses; what each
      tool declares as required, exclusive or restricted to choices is in
      its [parse_args].  How a call of [main] ends is a [Py.main_result].
    - External collaborators (the imaging library, the video decoder, the
      socket, the random generator, the clock, the file system) are given
      as explicit inputs: records of what each call returns or raises.
    - Loops that may run forever take a fuel argument; running out of fuel
      is a distinct result, never confused with a normal exit. *)

From Stdlib Require Import ZArith QArith Qround List String Ascii Bool Lia.
From Stdlib Require Import DecimalString DecimalPos DecimalZ.
From Stdlib Require DecimalFacts Nnat.
From Stdlib Require Import Reals Psatz Permutation Sorted Finite.
From Stdlib Require Floats.
Import ListNotations.

(** ** Python helpers shared by the four tools *)

Module Py.
Local Open Scope Z_scope.

(** Truth value of an [Optional[int]]: [None] and [0] are false. *)
Definition truthy_int (o : option Z) : bool :=
  match o with
  | Some v => negb (v =? 0)
  | None => false
  end.

(** Truth value of an [Optional[float]]: [None] and [0.0] are false. *)
Definition truthy_float (o : option Q) : bool :=
  match o with
  | Some v => negb (Qeq_bool v 0)
  | None => false
  end.

(** [int(x)] on a float: truncation toward zero. *)
Definition py_int (x : Q) : Z :=
  if Qle_bool 0 x then Qfloor x else Qceiling x.

(** [round(x)] on a float: nearest integer, ties to the even one. *)
Definition py_round (x : Q) : Z :=
  let f := Qfloor x in
  let r := (x - inject_Z f)%Q in
  match Qcompare r (1 # 2) with
  | Lt => f
  | Gt => f + 1
  | Eq => if Z.even f then f else f + 1
  end.

(** The unit roundoff of IEEE double precision, [2 ^ -53]. *)
Definition unit_roundoff : Q := 1 # 9007199254740992.

(** [fl] rounds like double precision on the range from [lo] to [hi]: the
    result is within one unit roundoff, relatively, of the exact value. *)
Definition rounds_like_double (fl : Q -> Q) (lo hi : Q) : Prop :=
  forall x, (lo <= x <= hi)%Q ->
            (x * (1 - unit_roundoff) <= fl x <= x * (1 + unit_roundoff))%Q.




(** Exact arithmetic, as a rounding. *)
Definition no_rounding (x : Q) : Q := x.

(** [math.fmod(x, y)] on doubles: the remainder of the division truncated
    toward zero, which is a double itself and has the sign of [x]. *)
Definition fmod_binary64 (x y : PrimFloat.float) : PrimFloat.float :=
  match FloatOps.Prim2SF x, FloatOps.Prim2SF y with
  | SpecFloat.S754_finite sx mx ex, SpecFloat.S754_finite _ my ey =>
      let e := Z.min ex ey in
      let r := Z.rem (Z.pos mx * 2 ^ (ex - e)) (Z.pos my * 2 ^ (ey - e)) in
      if r =? 0 then (if sx then PrimFloat.neg_zero else PrimFloat.zero)
      else FloatOps.SF2Prim
             (SpecFloat.binary_normalize FloatOps.prec FloatOps.emax
                (if sx then - r else r) e false)
  | SpecFloat.S754_zero _, SpecFloat.S754_finite _ _ _ => x
  | SpecFloat.S754_zero _, SpecFloat.S754_infinity _ => x
  | SpecFloat.S754_finite _ _ _, SpecFloat.S754_infinity _ => x
  | _, _ => PrimFloat.nan
  end.

(** [x % y] on doubles, as CPython's [float_rem] computes it; [None] is
    [ZeroDivisionError]. *)
Definition py_mod_binary64 (x y : PrimFloat.float) : option PrimFloat.float :=
  if PrimFloat.eqb y PrimFloat.zero then None
  else
    let m := fmod_binary64 x y in
    Some (if PrimFloat.eqb m PrimFloat.zero
          then (if PrimFloat.ltb y PrimFloat.zero
                then PrimFloat.neg_zero else PrimFloat.zero)
          else if xorb (PrimFloat.ltb y PrimFloat.zero)
                       (PrimFloat.ltb m PrimFloat.zero)
               then PrimFloat.add m y else m).

(** [a < b] on floats. *)
Definition Qltb (a b : Q) : bool := negb (Qle_bool b a).

(** [max(a, b)] and [min(a, b)] on integers. *)
Definition py_max (a b : Z) : Z := if a <? b then b else a.
Definition py_min (a b : Z) : Z := if b <? a then b else a.

(** [s.rfind('.')]: index of the last dot. *)
Fixpoint rfind_dot_from (i : nat) (s : string) (last : option nat) : option nat :=
  match s with
  | EmptyString => last
  | String c rest =>
      rfind_dot_from (S i) rest
        (if Ascii.eqb c "."%char then Some i else last)
  end.

Definition rfind_dot (s : string) : option nat := rfind_dot_from 0 s None.

(** [Path(name).suffix]: from the last dot on, unless that dot is the first
    or the last character of the name. *)
Definition suffix (name : string) : string :=
  match rfind_dot name with
  | Some i =>
      if (0 <? i)%nat && (i <? String.length name - 1)%nat
      then String.substring i (String.length name - i) name
      else EmptyString
  | None => EmptyString
  end.

Definition image_extensions : list string :=
  [".png"; ".jpg"; ".jpeg"; ".PNG"; ".JPG"; ".JPEG"]%string.

Definition str_in (s : string) (l : list string) : bool :=
  existsb (String.eqb s) l.

(** Sorting by a string key, ascending in the order of [str] comparison
    (code points, here bytes); stable, as Python's sort is. *)
Section SortByKey.
Context {A : Type} (key : A -> string).

Fixpoint insert_by (x : A) (l : list A) : list A :=
  match l with
  | [] => [x]
  | y :: l' =>
      if String.leb (key x) (key y) then x :: y :: l'
      else y :: insert_by x l'
  end.

Fixpoint sort_by (l : list A) : list A :=
  match l with
  | [] => []
  | x :: l' => insert_by x (sort_by l')
  end.

(** Ascending order of the key. *)
Definition key_le (x y : A) : Prop := String.leb (key x) (key y) = true.

End SortByKey.

(** *** Exceptions, the command line and the ways [main()] ends *)

(** The exceptions that reach a handler of the tools, by the classes these
    handlers tell apart. *)
Inductive exn :=
| KeyboardInterrupt
| ConnectionClosed    (* [websockets.exceptions.ConnectionClosed] *)
| OSError             (* [OSError] and its subclasses, the timeout of
                         [wait_for] apart *)
| InvalidURI          (* [websockets.exceptions.InvalidURI] *)
| OtherException      (* any other subclass of [Exception] *)
| CancelledError.     (* [asyncio.CancelledError], which a pending await
                         gets when its task is cancelled, as on Ctrl-C
                         under [asyncio.run]; stands for every
                         [BaseException] that is no [Exception] and no
                         [KeyboardInterrupt] *)

(** [isinstance(e, Exception)]. *)
Definition is_exception (e : exn) : bool :=
  match e with
  | KeyboardInterrupt | CancelledError => false
  | ConnectionClosed | OSError | InvalidURI | OtherException => true
  end.

(** The command line as [argparse] reads it.  How the words of [sys.argv]
    are told apart and converted is [argparse]'s business; what a tool
    declares (required arguments, defaults, choices, exclusive groups) is
    in its [parse_args]. *)
Inductive command_line (O : Type) : Type :=
| HelpRequested     (* [-h] or [--help] is reached: [SystemExit(0)] *)
| Malformed         (* an unknown option, an option without its value, a
                       value that [type=] does not convert:
                       [parser.error], [SystemExit(2)] *)
| Options (o : O).  (* the options given, each with its converted value *)

Arguments HelpRequested {O}.
Arguments Malformed {O}.
Arguments Options {O} o.

(** What [parse_args()] does: it returns the namespace, or [argparse]
    raises [SystemExit]. *)
Inductive parsed (A : Type) : Type :=
| Namespace (a : A)
| ArgparseExit (code : Z).

Arguments Namespace {A} a.
Arguments ArgparseExit {A} code.

(** [args.x] for an option with a default. *)
Definition default_to {A : Type} (d : A) (o : option A) : A :=
  match o with
  | Some v => v
  | None => d
  end.

(** Whether an option is on the command line. *)
Definition given {A : Type} (o : option A) : bool :=
  match o with
  | Some _ => true
  | None => false
  end.

(** [choices=range(1, 101)] on an option that may be absent. *)
Definition in_1_100 (o : option Z) : bool :=
  match o with
  | Some q => (1 <=? q) && (q <=? 100)
  | None => true
  end.

(** How a call of [main()] ends. *)
Inductive main_result :=
| Returns (code : Z)       (* [main] returns [code] *)
| SystemExit (code : Z)    (* [parse_args] has raised it *)
| Propagates (e : exn)     (* an exception that nothing catches leaves
                              [main]; [e] is the one that left the tool's
                              own code *)
| Running.                 (* the loop has not ended *)


End Py.

(** ** resize_images.py *)

Module Resize.
Import Py.
Local Open Scope Z_scope.

(** What [Image.open] yields: the pixel size and the format tag. *)
Record image := { img_size : Z * Z; img_format : option string }.

(** A directory entry as the tool sees it. *)
Record dir_entry := {
  name : string;
  is_file : bool;
  opened : option image;   (* [None]: [Image.open] raises on this file *)
  save_ok : bool           (* [false]: saving the resized copy raises *)
}.

Inductive path_kind :=
| Missing
| NotADirectory
| Directory (entries : list dir_entry).

(** [img.resize(new_size, LANCZOS)]: the library refuses a side below 1. *)
Definition lib_resize (img : image) (new_size : Z * Z) : option image :=
  if (1 <=? fst new_size) && (1 <=? snd new_size)
  then Some {| img_size := new_size; img_format := None |}
  else None.

Section Arithmetic.

(** The rounding of a float operation: [x / y] on two integers is
    [fl (x / y)], and [n * r] on an integer and a float is [fl (n * r)]
    (an integer below [2 ^ 53] becomes a float without rounding). *)
Variable fl : Q -> Q.

(** The three-way choice of the destination size in [resize_image]. *)
Inductive size_choice :=
| Chosen (new_size : Z * Z)
| NoTarget          (* the final [else: return False] *)
| ZeroDivision.     (* [ratio = ... / 0] raises *)

Definition choose_size (original_size : Z * Z)
    (target_width target_height : option Z)
    (target_size : option (Z * Z)) : size_choice :=
  match target_size with
  | Some ts => Chosen ts
  | None =>
      if truthy_int target_width then
        let tw := match target_width with Some w => w | None => 0 end in
        if fst original_size =? 0 then ZeroDivision
        else
          let ratio := fl (inject_Z tw / inject_Z (fst original_size))%Q in
          let new_height :=
            py_int (fl (inject_Z (snd original_size) * ratio)%Q) in
          Chosen (tw, new_height)
      else if truthy_int target_height then
        let th := match target_height with Some h => h | None => 0 end in
        if snd original_size =? 0 then ZeroDivision
        else
          let ratio := fl (inject_Z th / inject_Z (snd original_size))%Q in
          let new_width :=
            py_int (fl (inject_Z (fst original_size) * ratio)%Q) in
          Chosen (new_width, th)
      else NoTarget
  end.

(** The height of the width-only branch once more, this time in IEEE
    double precision, operation by operation: [int(h * (tw / w))]. *)
Definition b64_of_int (n : Z) : PrimFloat.float :=
  FloatOps.SF2Prim
    (SpecFloat.binary_normalize FloatOps.prec FloatOps.emax n 0 false).

Definition b64_int (f : PrimFloat.float) : Z :=
  match FloatOps.Prim2SF f with
  | SpecFloat.S754_finite s m e =>
      let v := if 0 <=? e then Z.pos m * 2 ^ e else Z.pos m / 2 ^ (- e) in
      if s then - v else v
  | _ => 0
  end.

(** The rational number a finite double is. *)
Definition b64_to_Q (f : PrimFloat.float) : Q :=
  match FloatOps.Prim2SF f with
  | SpecFloat.S754_finite s m e =>
      let v := if 0 <=? e then inject_Z (Z.pos m * 2 ^ e)
               else Z.pos m # Z.to_pos (2 ^ (- e)) in
      if s then (- v)%Q else v
  | _ => 0%Q
  end.

Definition new_height_binary64 (original_size : Z * Z) (tw : Z) : Z :=
  let ratio := PrimFloat.div (b64_of_int tw) (b64_of_int (fst original_size)) in
  b64_int (PrimFloat.mul (b64_of_int (snd original_size)) ratio).

(** Result of [resize_image]: [Written s] is [True] with an output of size
    [s]; the other two are [False]. *)
Inductive resize_result :=
| Written (s : Z * Z)
| ReturnedFalse      (* no target given *)
| Caught.            (* an exception was caught and logged *)

Definition resize_image (input : dir_entry)
    (target_width target_height : option Z)
    (target_size : option (Z * Z)) : resize_result :=
  match opened input with
  | None => Caught
  | Some img =>
      match choose_size (img_size img) target_width target_height target_size with
      | NoTarget => ReturnedFalse
      | ZeroDivision => Caught
      | Chosen new_size =>
          match lib_resize img new_size with
          | None => Caught
          | Some resized_img =>
              if save_ok input then Written (img_size resized_img) else Caught
          end
      end
  end.

Definition succeeded (r : resize_result) : bool :=
  match r with Written _ => true | _ => false end.

(** What a run of [resize_images_in_directory] leaves behind. *)
Record report := {
  success_count : Z;
  images_found : Z;                          (* [len(image_files)] *)
  attempts : list (string * resize_result)   (* one per processed file *)
}.

Definition empty_report : report :=
  {| success_count := 0; images_found := 0; attempts := [] |}.

Definition is_image (f : dir_entry) : bool :=
  is_file f && str_in (suffix (name f)) image_extensions.

(** The [for i, img_file in enumerate(sorted(image_files), 1)] loop. *)
Fixpoint resize_each (files : list dir_entry)
    (target_width target_height : option Z) (target_size : option (Z * Z))
    (success_count : Z) : Z * list (string * resize_result) :=
  match files with
  | [] => (success_count, [])
  | img_file :: rest =>
      let r := resize_image img_file target_width target_height target_size in
      let success_count' :=
        if succeeded r then success_count + 1 else success_count in
      let '(n, log) :=
        resize_each rest target_width target_height target_size success_count' in
      (n, (name img_file, r) :: log)
  end.

Definition resize_images_in_directory (input_dir : path_kind)
    (target_width target_height : option Z)
    (target_size : option (Z * Z)) : report :=
  match input_dir with
  | Missing | NotADirectory => empty_report
  | Directory entries =>
      let image_files := filter is_image entries in
      match image_files with
      | [] => empty_report
      | _ =>
          match target_size with
          | None =>
              if negb (truthy_int target_width || truthy_int target_height)
              then empty_report
              else
                let '(n, log) :=
                  resize_each (sort_by name image_files)
                    target_width target_height target_size 0 in
                {| success_count := n;
                   images_found := Z.of_nat (List.length image_files);
                   attempts := log |}
          | Some _ =>
              let '(n, log) :=
                resize_each (sort_by name image_files)
                  target_width target_height target_size 0 in
              {| success_count := n;
                 images_found := Z.of_nat (List.length image_files);
                 attempts := log |}
          end
      end
  end.

(** Parsed command line ([argparse.Namespace]). *)
Record args := {
  input_dir : path_kind;       (* what [args.input_dir] names on disk *)
  width : option Z;
  height : option Z;
  size : option (Z * Z)
}.

Definition validate_args (a : args) : bool :=
  match input_dir a with
  | Missing => false
  | NotADirectory => false
  | Directory _ =>
      if negb (truthy_int (width a) || truthy_int (height a)
               || match size a with Some _ => true | None => false end)
      then false
      else if truthy_int (width a)
              && (match width a with Some w => w <=? 0 | None => false end)
      then false
      else if truthy_int (height a)
              && (match height a with Some h => h <=? 0 | None => false end)
      then false
      else match size a with
           | Some (w, h) => negb ((w <=? 0) || (h <=? 0))
           | None => true
           end
  end.

(** The options of the command line; [None] where one is not given. *)
Record options := {
  o_input_dir : option path_kind;   (* the positional [input_dir] *)
  o_width : option Z;
  o_height : option Z;
  o_size : option (Z * Z);
  o_quality : option Z
}.

(** [parse_args]: [input_dir] is required, [--width], [--height] and
    [--size] exclude each other, [--quality] must be one of 1 to 100.  Of
    the namespace the model keeps what the run reads. *)
Definition parse_args (cl : command_line options) : parsed args :=
  match cl with
  | HelpRequested => ArgparseExit 0
  | Malformed => ArgparseExit 2
  | Options o =>
      match o_input_dir o with
      | None => ArgparseExit 2
      | Some d =>
          if (given (o_width o) && given (o_height o))
             || (given (o_width o) && given (o_size o))
             || (given (o_height o) && given (o_size o))
          then ArgparseExit 2
          else if negb (in_1_100 (o_quality o)) then ArgparseExit 2
          else Namespace {| input_dir := d; width := o_width o;
                            height := o_height o; size := o_size o |}
      end
  end.

Definition main (cl : command_line options) : main_result :=
  match parse_args cl with
  | ArgparseExit code => SystemExit code
  | Namespace a =>
      if negb (validate_args a) then Returns 1
      else
        let rep :=
          resize_images_in_directory (input_dir a) (width a) (height a)
            (size a) in
        Returns (if 0 <? success_count rep then 0 else 1)
  end.

End Arithmetic.

End Resize.

(** ** mp4_to_frames.py *)

Module Mp4.
Import Py.
Local Open Scope Z_scope.

(** What one [cap.read()] does. *)
Inductive read_outcome :=
| Decoded        (* [ret] is true *)
| NoFrame        (* [ret] is false *)
| ReadRaises.    (* the decoder raises *)

(** The video file as the decoder presents it. *)
Record video := {
  file_exists : bool;          (* [os.path.exists(video_path)] *)
  is_opened : bool;            (* [cap.isOpened()] *)
  fps : Q;                     (* [CAP_PROP_FPS] *)
  total_frames : Z;            (* [int(CAP_PROP_FRAME_COUNT)] *)
  read_at : Z -> read_outcome  (* [cap.read()] with the decoder at a frame index *)
}.

Inductive image_format := Png | Jpeg | Unsupported.

(** [format.lower()], then ["jpg"] becomes ["jpeg"]. *)
Definition lower_char (c : ascii) : ascii :=
  let n := nat_of_ascii c in
  if (65 <=? n)%nat && (n <=? 90)%nat then ascii_of_nat (n + 32) else c.

Fixpoint lower (s : string) : string :=
  match s with
  | EmptyString => EmptyString
  | String c rest => String (lower_char c) (lower rest)
  end.

Definition normalize_format (format : string) : image_format :=
  let f := lower format in
  if String.eqb f "jpg" then Jpeg
  else if String.eqb f "png" then Png
  else if String.eqb f "jpeg" then Jpeg
  else Unsupported.

Section Arithmetic.

(** The rounding of a float operation: [x * y] on two floats is
    [fl (x * y)]. *)
Variable fl : Q -> Q.

(** The numbers computed before the loop. *)
Definition start_frame_of (v : video) (start_time : Q) : Z :=
  let start_frame :=
    if Qltb 0 start_time then py_int (fl (start_time * fps v)%Q) else 0 in
  py_max 0 (py_min start_frame (total_frames v - 1)).

Definition end_frame_of (v : video) (start_time : Q) (end_time : option Q) : Z :=
  let end_frame :=
    if truthy_float end_time
    then py_int (fl (match end_time with Some e => e | None => 0 end
                     * fps v)%Q)
    else total_frames v in
  py_max (start_frame_of v start_time + 1) (py_min end_frame (total_frames v)).

Definition frame_step_of (v : video) (interval : option Q) : Z :=
  if truthy_float interval
  then py_max 1 (py_int (fl (match interval with Some i => i | None => 0 end
                             * fps v)%Q))
  else 1.

(** How the [while] loop was left. *)
Inductive loop_exit :=
| ReachedEnd       (* [current_frame < end_frame] became false *)
| EndOfStream      (* [if not ret: break] *)
| MaxFrames        (* [saved_count >= max_frames] *)
| Raised           (* [except Exception]: [return saved_count] *)
| OutOfFuel.

Record loop_state := {
  frame_count : Z;
  saved_count : Z;
  current_frame : Z;
  written : list Z     (* the [frame_number] of every [cv2.imwrite], oldest first *)
}.

Fixpoint extract_loop (fuel : nat) (v : video) (end_frame frame_step : Z)
    (max_frames : option Z) (st : loop_state) : loop_exit * loop_state :=
  match fuel with
  | O => (OutOfFuel, st)
  | S fuel' =>
      if current_frame st <? end_frame then
        match read_at v (current_frame st) with
        | ReadRaises => (Raised, st)
        | NoFrame => (EndOfStream, st)
        | Decoded =>
            if frame_count st mod frame_step =? 0 then
              let st1 := {| frame_count := frame_count st;
                            saved_count := saved_count st + 1;
                            current_frame := current_frame st;
                            written := written st ++ [current_frame st] |} in
              if truthy_int max_frames
                 && (match max_frames with Some m => m | None => 0 end
                       <=? saved_count st1)
              then (MaxFrames, st1)
              else
                extract_loop fuel' v end_frame frame_step max_frames
                  {| frame_count := frame_count st1 + 1;
                     saved_count := saved_count st1;
                     current_frame := current_frame st1 + 1;
                     written := written st1 |}
            else
              extract_loop fuel' v end_frame frame_step max_frames
                {| frame_count := frame_count st + 1;
                   saved_count := saved_count st;
                   current_frame := current_frame st + 1;
                   written := written st |}
        end
      else (ReachedEnd, st)
  end.

(** Result of [extract_frames]: the returned count, the frames written and
    the way the run ended ([None] when it stopped before the loop). *)
Record extraction := {
  returned : Z;
  frames_written : list Z;
  exit_kind : option loop_exit
}.

Definition nothing_extracted : extraction :=
  {| returned := 0; frames_written := []; exit_kind := None |}.

Definition extract_frames (v : video) (format : string)
    (interval : option Q) (max_frames : option Z)
    (start_time : Q) (end_time : option Q) : extraction :=
  if negb (file_exists v) then nothing_extracted
  else match normalize_format format with
  | Unsupported => nothing_extracted
  | _ =>
      if negb (is_opened v) then nothing_extracted
      else
        let start_frame := start_frame_of v start_time in
        let end_frame := end_frame_of v start_time end_time in
        let frame_step := frame_step_of v interval in
        let '(ex, st) :=
          extract_loop (S (Z.to_nat (end_frame - start_frame)))
            v end_frame frame_step max_frames
            {| frame_count := 0; saved_count := 0;
               current_frame := start_frame; written := [] |} in
        {| returned := saved_count st;
           frames_written := written st;
           exit_kind := Some ex |}
  end.

Record args := {
  video_file : video;
  format : string;
  interval : option Q;
  max_frames : option Z;
  start_time : Q;
  end_time : option Q
}.

Definition validate_args (a : args) : bool :=
  if negb (file_exists (video_file a)) then false
  else if Qltb (start_time a) 0 then false
  else if truthy_float (end_time a)
          && (match end_time a with
              | Some e => Qle_bool e (start_time a)
              | None => false
              end)
  then false
  else if truthy_float (interval a)
          && (match interval a with
              | Some i => Qle_bool i 0
              | None => false
              end)
  then false
  else if truthy_int (max_frames a)
          && (match max_frames a with Some m => m <=? 0 | None => false end)
  then false
  else true.

(** The options of the command line; [None] where one is not given. *)
Record options := {
  o_video : option video;       (* the positional [video] *)
  o_format : option string;
  o_interval : option Q;
  o_max_frames : option Z;
  o_start_time : option Q;
  o_end_time : option Q;
  o_quality : option Z
}.

(** [parse_args]: [video] is required, [--format] must be one of [png],
    [jpg] and [jpeg] as written, [--quality] one of 1 to 100.  Of the
    namespace the model keeps what the run reads. *)
Definition parse_args (cl : command_line options) : parsed args :=
  match cl with
  | HelpRequested => ArgparseExit 0
  | Malformed => ArgparseExit 2
  | Options o =>
      match o_video o with
      | None => ArgparseExit 2
      | Some v =>
          if negb (match o_format o with
                   | Some f => str_in f ["png"; "jpg"; "jpeg"]%string
                   | None => true
                   end)
          then ArgparseExit 2
          else if negb (in_1_100 (o_quality o)) then ArgparseExit 2
          else Namespace {| video_file := v;
                            format := default_to "png"%string (o_format o);
                            interval := o_interval o;
                            max_frames := o_max_frames o;
                            start_time := default_to 0%Q (o_start_time o);
                            end_time := o_end_time o |}
      end
  end.

Definition main (cl : command_line options) : main_result :=
  match parse_args cl with
  | ArgparseExit code => SystemExit code
  | Namespace a =>
      if negb (validate_args a) then Returns 1
      else
        let saved :=
          returned (extract_frames (video_file a) (format a) (interval a)
                      (max_frames a) (start_time a) (end_time a)) in
        Returns (if 0 <? saved then 0 else 1)
  end.

(** The frame step once more, this time in IEEE double precision:
    [max(1, int(interval * fps))]. *)
Definition frame_step_binary64 (interval fps : PrimFloat.float) : Z :=
  py_max 1 (Resize.b64_int (PrimFloat.mul interval fps)).

End Arithmetic.

(** The indices [start], [start + step], ..., [n] of them: the shape in which
    the selection of frames is stated. *)
Definition progression (start step : Z) (n : nat) : list Z :=
  map (fun k => start + Z.of_nat k * step) (seq 0 n).

(** Number of progression members below [stop]. *)
Definition selected_count (start stop step : Z) : Z :=
  (stop - start + step - 1) / step.


(** What holds whenever the [while] condition is about to be evaluated. *)
Record loop_inv (start stop step : Z) (max_frames : option Z)
    (st : loop_state) : Prop := {
  inv_count : 0 <= frame_count st;
  inv_current : current_frame st = start + frame_count st;
  inv_bound : current_frame st <= stop;
  inv_saved : saved_count st = (frame_count st + step - 1) / step;
  inv_written :
    written st = progression start step (Z.to_nat (saved_count st));
  inv_max :
    forall mx, max_frames = Some mx -> mx <> 0 -> saved_count st < mx
}.

(** What holds when [extract_loop] has returned. *)
Record loop_post (v : video) (start stop step : Z) (max_frames : option Z)
    (ex : loop_exit) (st : loop_state) : Prop := {
  post_written :
    written st = progression start step (Z.to_nat (saved_count st));
  post_saved : 0 <= saved_count st <= selected_count start stop step;
  post_fuel : ex <> OutOfFuel;
  post_end : ex = ReachedEnd ->
             saved_count st = selected_count start stop step;
  post_max : ex = MaxFrames ->
             exists mx, max_frames = Some mx /\ mx <> 0 /\ saved_count st = mx;
  post_below : forall mx, max_frames = Some mx -> mx <> 0 ->
               ex <> MaxFrames -> saved_count st < mx;
  post_stream : ex = EndOfStream \/ ex = Raised ->
                start <= current_frame st < stop
                /\ read_at v (current_frame st) <> Decoded
                /\ saved_count st = (frame_count st + step - 1) / step
                /\ current_frame st = start + frame_count st
}.

End Mp4.

(** ** The WebSocket client, as both simulators use it *)

Module Ws.
Import Py.

(** A text received from the server, as [json.loads] and [.get] see it. *)
Inductive server_message :=
| NotJson                                (* [json.JSONDecodeError] *)
| JsonObject (msg_type : option string)  (* a dict; its ["type"] entry *)
| JsonNotObject.                         (* valid JSON without [.get] *)

Inductive recv_result :=
| TimedOut                    (* [asyncio.TimeoutError] from [wait_for] *)
| Received (m : server_message)
| RecvRaises (e : exn).       (* anything else that [recv] raises, or
                                 [json.loads] on bytes that are no text *)

(** What the awaits of one tick do. *)
Record tick_io := {
  send_raises : option exn;   (* [await ws.send(payload_json)] *)
  response : recv_result;     (* [await wait_for(ws.recv(), 0.1)] *)
  sleep_raises : option exn   (* [await asyncio.sleep(dt)] *)
}.

Record transport := {
  welcome : recv_result;      (* [await wait_for(ws.recv(), 2.0)] *)
  tick_events : nat -> tick_io
}.

(** The exception, if any, that leaves a receive-and-decode block: the
    block handles the timeout and [json.JSONDecodeError]; [.get] on a JSON
    value that is no object raises [AttributeError]. *)
Definition recv_escapes (r : recv_result) : option exn :=
  match r with
  | TimedOut => None
  | Received NotJson => None
  | Received (JsonObject _) => None
  | Received JsonNotObject => Some OtherException
  | RecvRaises e => Some e
  end.

(** [updates_remaining is None or updates_remaining > 0]. *)
Definition keep_going (updates_remaining : option Z) : bool :=
  match updates_remaining with
  | None => true
  | Some n => (0 <? n)%Z
  end.

(** [if updates_remaining: updates_remaining -= 1]. *)
Definition count_down (updates_remaining : option Z) : option Z :=
  match updates_remaining with
  | None => None
  | Some n => if (n =? 0)%Z then Some n else Some (n - 1)%Z
  end.

(** The handlers around both send loops: [except KeyboardInterrupt],
    [except ConnectionClosed], [except Exception], in this order. *)
Inductive handled :=
| ByKeyboardInterrupt
| ByConnectionClosed
| ByException
| Unhandled.

Definition loop_handler (e : exn) : handled :=
  match e with
  | KeyboardInterrupt => ByKeyboardInterrupt
  | ConnectionClosed => ByConnectionClosed
  | _ => if is_exception e then ByException else Unhandled
  end.

(** The handlers of both [main_async]: [except OSError] and
    [except InvalidURI] return 1, anything else goes on. *)
Definition connect_handlers (e : exn) : main_result :=
  match e with
  | OSError | InvalidURI => Returns 1
  | KeyboardInterrupt | ConnectionClosed | OtherException | CancelledError =>
      Propagates e
  end.

(** *** Vocabulary of the statements *)

(** What is received goes through the decoding block without an
    exception: a timeout, text that is not JSON, a JSON object. *)
Definition decoded_quietly (r : recv_result) : Prop :=
  match r with
  | TimedOut | Received NotJson | Received (JsonObject _) => True
  | Received JsonNotObject | RecvRaises _ => False
  end.

(** An [Exception] other than a closed connection. *)
Definition plain_failure (e : exn) : Prop :=
  e = OSError \/ e = InvalidURI \/ e = OtherException.

(** The receive raises no [Exception] other than a closed connection, and
    what it returns is no JSON value other than an object. *)
Definition recv_not_failure (r : recv_result) : Prop :=
  r <> Received JsonNotObject
  /\ forall e, r = RecvRaises e -> ~ plain_failure e.

(** No await of the tick raises an [Exception] other than a closed
    connection (interrupts, closed connections and cancellations may
    occur), and no reply read is a JSON value other than an object. *)
Definition no_other_exception (read_replies : bool) (io : tick_io) : Prop :=
  (forall e, send_raises io = Some e -> ~ plain_failure e)
  /\ (read_replies = true -> recv_not_failure (response io))
  /\ (forall e, sleep_raises io = Some e -> ~ plain_failure e).

End Ws.

(** ** drone_websocket_simulator.py *)

Module Telemetry.
Import Py Ws.
Local Open Scope R_scope.

Definition METERS_PER_DEGREE_LAT : R := 111320.
Definition IMAGE_WIDTH : Z := 1920.
Definition IMAGE_HEIGHT : Z := 1080.
Definition VIEW_HALF_WIDTH_M : R := 600.
Definition KNOTS_TO_MPS : R := 514444 / 1000000.

(** [str(n)] on an integer. *)
Definition str (n : Z) : string := NilZero.string_of_int (Z.to_int n).

(** [math.radians]. *)
Definition radians (deg : R) : R := deg * (PI / 180).

(** [x % y] on floats: the remainder has the sign of [y]. *)
Definition py_fmod (x y : R) : R := x - IZR (Int_part (x / y)) * y.

(** Nearest integer, ties to even; [round(x, ndigits)] scales by a power of
    ten around it. *)
Definition round_half_even (x : R) : Z :=
  let f := Int_part x in
  let r := x - IZR f in
  if Rlt_dec r (1 / 2) then f
  else if Rlt_dec (1 / 2) r then (f + 1)%Z
  else if Z.even f then f else (f + 1)%Z.

Definition py_round (x : R) (ndigits : nat) : R :=
  IZR (round_half_even (x * 10 ^ ndigits)) / 10 ^ ndigits.

(** Over the real numbers [math.cos] is total; on an infinite latitude,
    which is no real number, it raises [ValueError]. *)
Definition meters_per_degree_lon (latitude_deg : R) : R :=
  let cos_lat := Rmax (1 / 10 ^ 12) (Rabs (cos (radians latitude_deg))) in
  METERS_PER_DEGREE_LAT * cos_lat.

Definition position_on_circle (center_lat center_lon radius_m angle_rad : R)
    : R * R :=
  let delta_lat := (radius_m * sin angle_rad) / METERS_PER_DEGREE_LAT in
  let delta_lon := (radius_m * cos angle_rad) / meters_per_degree_lon center_lat in
  (center_lat + delta_lat, center_lon + delta_lon).

(** [math.pi] and [2 * math.pi] as the doubles they are: the first is
    [0x1.921fb54442d18p+1]. *)
Definition math_pi_binary64 : PrimFloat.float :=
  FloatOps.SF2Prim (SpecFloat.S754_finite false 7074237752028440 (-51)).

Definition two_pi_binary64 : PrimFloat.float :=
  PrimFloat.mul (Resize.b64_of_int 2) math_pi_binary64.

(** [random.uniform(a, b)] in double precision, from the draw [u] of
    [random.random()]. *)
Definition uniform_binary64 (a b u : PrimFloat.float) : PrimFloat.float :=
  PrimFloat.add a (PrimFloat.mul (PrimFloat.sub b a) u).

(** The phase update of an orbiting track in double precision:
    [(angle_rad + (current_speed_mps / radius_m) * dt) % (2 * math.pi)];
    [None] is [ZeroDivisionError]. *)
Definition advance_angle_binary64
    (angle_rad current_speed_mps radius_m dt : PrimFloat.float)
    : option PrimFloat.float :=
  if PrimFloat.eqb radius_m PrimFloat.zero then None
  else
    py_mod_binary64
      (PrimFloat.add angle_rad
         (PrimFloat.mul (PrimFloat.div current_speed_mps radius_m) dt))
      two_pi_binary64.

(** The inverse view: metres east and north of the centre. *)
Definition latlon_to_m_offsets (lat lon center_lat center_lon : R) : R * R :=
  let dy_north_m := (lat - center_lat) * METERS_PER_DEGREE_LAT in
  let dx_east_m := (lon - center_lon) * meters_per_degree_lon center_lat in
  (dx_east_m, dy_north_m).

Definition clamp (v vmin vmax : R) : R := Rmax vmin (Rmin vmax v).

(** [int(x)] on a float: truncation toward zero. *)
Definition py_int (x : R) : Z :=
  if Rle_dec 0 x then Int_part x else (- Int_part (- x))%Z.

Inductive motion_kind := Circle | Straight.

Record DroneState := {
  drone_id : string;
  type : string;
  motion : motion_kind;
  angle_rad : R;        (* used for circle *)
  bearing_rad : R;      (* used for straight *)
  radius_m : R;
  speed_base_mps : R;
  lat : R;              (* only used/updated for straight *)
  lon : R;              (* only used/updated for straight *)
  base_alt_m : R;
  wobble_m : R
}.

(** Parsed command line; [a_] marks the fields whose names the state record
    already uses. *)
Record args := {
  center_lat : R;
  center_lon : R;
  interval_s : R;
  updates : Z;
  a_radius_m : R;
  altitude_m : R;
  altitude_wobble_m : R;
  num_drones : Z;
  speed_range_kt : R * R;
  noise_level_m : R;
  miss_rate : R;
  false_positive_rate : R;
  cam_id : string;
  token : string;
  show_responses : bool
}.

Definition validate_args (a : args) : bool :=
  if Rle_dec (interval_s a) 0 then false
  else if Rle_dec (a_radius_m a) 0 then false
  else if (num_drones a <? 1)%Z then false
  else if Rle_dec (fst (speed_range_kt a)) 0 then false
  else if Rlt_dec (snd (speed_range_kt a)) (fst (speed_range_kt a)) then false
  else if Rle_dec 0 (miss_rate a) then
    if Rlt_dec (miss_rate a) 1 then
      if Rle_dec 0 (false_positive_rate a) then
        if Rlt_dec (false_positive_rate a) 1 then true else false
      else false
    else false
  else false.

(** *** The outside world of one run *)

(** Everything the run draws from outside, call by call. *)
Record world := {
  rand : nat -> R;           (* results of [random.random()] *)
  normal : nat -> R;         (* standard normal draws behind [random.gauss] *)
  uuid_hex : nat -> string;  (* results of [uuid.uuid4().hex] *)
  clock : nat -> R;          (* results of [time.time()] *)
  utc_now : nat -> string    (* results of [datetime.now(utc).isoformat()] *)
}.

(** How many calls of each kind were made so far. *)
Record counters := {
  n_rand : nat;
  n_normal : nat;
  n_uuid : nat;
  n_clock : nat;
  n_now : nat
}.

Definition no_calls : counters :=
  {| n_rand := 0; n_normal := 0; n_uuid := 0; n_clock := 0; n_now := 0 |}.

(** Computations that consume the world and may raise (here only
    [ZeroDivisionError]). *)
Definition M (A : Type) : Type := counters -> option (A * counters).

Definition ret {A} (x : A) : M A := fun c => Some (x, c).

Definition bind {A B} (m : M A) (k : A -> M B) : M B :=
  fun c => match m c with
           | Some (x, c') => k x c'
           | None => None
           end.

Definition raise {A} : M A := fun _ => None.

Notation "x <- m ;; k" := (bind m (fun x => k))
  (at level 61, m at next level, right associativity).
Notation "' pat <- m ;; k" := (bind m (fun x => match x with pat => k end))
  (at level 61, pat pattern, m at next level, right associativity).

Section Draws.
Variable w : world.

Definition random : M R :=
  fun c => Some (rand w (n_rand c),
                 {| n_rand := S (n_rand c); n_normal := n_normal c;
                    n_uuid := n_uuid c; n_clock := n_clock c;
                    n_now := n_now c |}).

(** [random.uniform(a, b)] is [a + (b - a) * random()]. *)
Definition uniform (a b : R) : M R :=
  u <- random ;; ret (a + (b - a) * u).

Definition gauss (mu sigma : R) : M R :=
  fun c => Some (mu + normal w (n_normal c) * sigma,
                 {| n_rand := n_rand c; n_normal := S (n_normal c);
                    n_uuid := n_uuid c; n_clock := n_clock c;
                    n_now := n_now c |}).

Definition uuid4_hex : M string :=
  fun c => Some (uuid_hex w (n_uuid c),
                 {| n_rand := n_rand c; n_normal := n_normal c;
                    n_uuid := S (n_uuid c); n_clock := n_clock c;
                    n_now := n_now c |}).

Definition time_time : M R :=
  fun c => Some (clock w (n_clock c),
                 {| n_rand := n_rand c; n_normal := n_normal c;
                    n_uuid := n_uuid c; n_clock := S (n_clock c);
                    n_now := n_now c |}).

Definition now_isoformat : M string :=
  fun c => Some (utc_now w (n_now c),
                 {| n_rand := n_rand c; n_normal := n_normal c;
                    n_uuid := n_uuid c; n_clock := n_clock c;
                    n_now := S (n_now c) |}).

End Draws.

(** *** The screen model *)

Section Screen.
Variable rng : world.

(** A bounding box [(x, y, w, h)] in pixels and a confidence for a target
    [dx_east_m] east and [dy_north_m] north of the centre. *)
Definition compute_bbox_and_conf (dx_east_m dy_north_m current_speed_mps : R)
    : M ((Z * Z * Z * Z) * R) :=
  let px_per_m_x := (IZR IMAGE_WIDTH / 2) / VIEW_HALF_WIDTH_M in
  let px_per_m_y := (IZR IMAGE_HEIGHT / 2) / VIEW_HALF_WIDTH_M in
  gx <- gauss rng 0 5 ;;
  let x_center := IZR IMAGE_WIDTH / 2 + dx_east_m * px_per_m_x + gx in
  gy <- gauss rng 0 5 ;;
  let y_center := IZR IMAGE_HEIGHT / 2 - dy_north_m * px_per_m_y + gy in
  let distance_m := sqrt (dx_east_m * dx_east_m + dy_north_m * dy_north_m) in
  gw <- gauss rng 0 5 ;;
  let width_px := clamp (12000 / (distance_m + 50) + gw) 12 240 in
  let height_px := width_px * (66 / 100) in
  let x := py_int (clamp (x_center - width_px / 2) 0
                         (IZR IMAGE_WIDTH - width_px)) in
  let y := py_int (clamp (y_center - height_px / 2) 0
                         (IZR IMAGE_HEIGHT - height_px)) in
  let w := py_int (Rmin width_px (IZR IMAGE_WIDTH - IZR x)) in
  let h := py_int (Rmin height_px (IZR IMAGE_HEIGHT - IZR y)) in
  let base := 85 / 100 in
  let size_penalty :=
    (if (w <? 30)%Z then 15 / 100 else 0)
    + (if (180 <? w)%Z then 7 / 100 else 0) in
  let speed_penalty :=
    clamp ((current_speed_mps - 6) * (2 / 100)) 0 (15 / 100) in
  jitter <- uniform rng (- (5 / 100)) (5 / 100) ;;
  let confidence :=
    clamp (base - size_penalty - speed_penalty + jitter) (30 / 100) (98 / 100) in
  ret ((x, y, w, h), py_round confidence 2).

End Screen.

(** *** Tracks and detections *)

Record detection := {
  obj_id : string;
  obj_type : string;
  obj_lat : R;
  obj_lng : R;
  obj_alt : R;
  speed_kt : R
}.

Record payload := {
  fram_id : string;
  p_cam_id : string;
  token_id : string;
  timestamp : string;
  image_info : Z * Z;
  objects : list detection
}.

Section Simulation.
Variable w : world.
Variable a : args.

(** One round of the [for i in range(args.num_drones)] loop. *)
Definition init_one (i : Z) : M DroneState :=
  let speed_min := fst (speed_range_kt a) * KNOTS_TO_MPS in
  let speed_max := snd (speed_range_kt a) * KNOTS_TO_MPS in
  r <- random w ;;
  let motion := if Rlt_dec r (6 / 10) then Circle else Straight in
  speed_base <- uniform w speed_min speed_max ;;
  start_r <- uniform w 0 (a_radius_m a * (25 / 100)) ;;
  start_theta <- uniform w 0 (2 * PI) ;;
  let offset_lat := (start_r * sin start_theta) / METERS_PER_DEGREE_LAT in
  let offset_lon :=
    (start_r * cos start_theta) / meters_per_degree_lon (center_lat a) in
  let start_lat := center_lat a + offset_lat in
  let start_lon := center_lon a + offset_lon in
  ' (angle, bearing, radius) <-
    match motion with
    | Circle =>
        angle <- uniform w 0 (2 * PI) ;;
        radius <- uniform w (a_radius_m a * (7 / 10)) (a_radius_m a * (13 / 10)) ;;
        ret (angle, 0, radius)
    | Straight =>
        bearing <- uniform w 0 (2 * PI) ;;
        ret (0, bearing, a_radius_m a)
    end ;;
  ret {| drone_id := String.append "sim-" (str (i + 1));
         type := "unknown";
         motion := motion;
         angle_rad := angle;
         bearing_rad := bearing;
         radius_m := radius;
         speed_base_mps := speed_base;
         lat := start_lat;
         lon := start_lon;
         base_alt_m := altitude_m a;
         wobble_m := altitude_wobble_m a |}.

Fixpoint init_from (n : nat) (i : Z) : M (list DroneState) :=
  match n with
  | O => ret []
  | S n' =>
      st <- init_one i ;;
      rest <- init_from n' (i + 1)%Z ;;
      ret (st :: rest)
  end.

Definition init_frames_states : M (list DroneState) :=
  init_from (Z.to_nat (num_drones a)) 0%Z.

(** The position update of one track: the new record and the (lat, lon)
    it reports.  The arithmetic is that of the real numbers: the only
    exception is the division by a radius of zero
    ([Telemetry.advance_angle_binary64] is the phase update in double
    precision). *)
Definition advance (dt current_speed_mps : R) (st : DroneState)
    : M (DroneState * (R * R)) :=
  match motion st with
  | Circle =>
      if Req_dec_T (radius_m st) 0 then raise
      else
        let st' :=
          {| drone_id := drone_id st; type := type st; motion := motion st;
             angle_rad :=
               py_fmod (angle_rad st + (current_speed_mps / radius_m st) * dt)
                       (2 * PI);
             bearing_rad := bearing_rad st; radius_m := radius_m st;
             speed_base_mps := speed_base_mps st;
             lat := lat st; lon := lon st;
             base_alt_m := base_alt_m st; wobble_m := wobble_m st |} in
        ret (st', position_on_circle (center_lat a) (center_lon a)
                    (radius_m st') (angle_rad st'))
  | Straight =>
      let delta_north_m := current_speed_mps * dt * cos (bearing_rad st) in
      let delta_east_m := current_speed_mps * dt * sin (bearing_rad st) in
      let lat' := lat st + delta_north_m / METERS_PER_DEGREE_LAT in
      let lon' := lon st + delta_east_m / meters_per_degree_lon lat' in
      ret ({| drone_id := drone_id st; type := type st; motion := motion st;
              angle_rad := angle_rad st; bearing_rad := bearing_rad st;
              radius_m := radius_m st; speed_base_mps := speed_base_mps st;
              lat := lat'; lon := lon';
              base_alt_m := base_alt_m st; wobble_m := wobble_m st |},
           (lat', lon'))
  end.

(** The body of [for st in states]: the track after the tick and the
    detection it contributes, if it is not missed. *)
Definition update_drone (dt : R) (st : DroneState)
    : M (DroneState * option detection) :=
  u <- uniform w (9 / 10) (11 / 10) ;;
  let current_speed_mps := speed_base_mps st * u in
  let current_speed_kt := current_speed_mps / KNOTS_TO_MPS in
  ' (st', (lat0, lon0)) <- advance dt current_speed_mps st ;;
  ' (lat1, lon1) <-
    (if Rlt_dec 0 (noise_level_m a) then
       noise_north_m <- gauss w 0 (noise_level_m a) ;;
       noise_east_m <- gauss w 0 (noise_level_m a) ;;
       let lat1 := lat0 + noise_north_m / METERS_PER_DEGREE_LAT in
       ret (lat1, lon0 + noise_east_m / meters_per_degree_lon lat1)
     else ret (lat0, lon0)) ;;
  t <- time_time w ;;
  let wobble_phase :=
    match motion st' with Circle => angle_rad st' | Straight => t end in
  let base_wobble := wobble_m st' * sin wobble_phase in
  random_alt_variation <- uniform w (-2) 2 ;;
  let alt := base_alt_m st' + base_wobble + random_alt_variation in
  miss <- random w ;;
  if Rlt_dec miss (miss_rate a) then ret (st', None)
  else ret (st', Some {| obj_id := drone_id st';
                         obj_type := type st';
                         obj_lat := py_round lat1 7;
                         obj_lng := py_round lon1 7;
                         obj_alt := py_round alt 2;
                         speed_kt := py_round current_speed_kt 2 |}).

Fixpoint update_all (dt : R) (states : list DroneState)
    : M (list DroneState * list detection) :=
  match states with
  | [] => ret ([], [])
  | st :: rest =>
      ' (st', o) <- update_drone dt st ;;
      ' (rest', objs) <- update_all dt rest ;;
      ret (st' :: rest',
           match o with Some d => d :: objs | None => objs end)
  end.

(** The [# false positive(s)] block: at most one extra object. *)
Definition false_positive : M (list detection) :=
  r <- random w ;;
  if Rlt_dec r (false_positive_rate a) then
    dx <- uniform w (- VIEW_HALF_WIDTH_M) VIEW_HALF_WIDTH_M ;;
    dy <- uniform w (- VIEW_HALF_WIDTH_M) VIEW_HALF_WIDTH_M ;;
    let lat_fp := center_lat a + dy / METERS_PER_DEGREE_LAT in
    let lon_fp := center_lon a + dx / meters_per_degree_lon (center_lat a) in
    speed_fp_mps <- uniform w 0 2 ;;
    let speed_fp_kt := speed_fp_mps / KNOTS_TO_MPS in
    h <- uuid4_hex w ;;
    v <- uniform w (-5) 5 ;;
    ret [ {| obj_id := String.append "fp-" (String.substring 0 6 h);
             obj_type := "unknown";
             obj_lat := py_round lat_fp 7;
             obj_lng := py_round lon_fp 7;
             obj_alt := py_round (altitude_m a + v) 2;
             speed_kt := py_round speed_fp_kt 2 |} ]
  else ret [].

(** Everything a tick computes before it touches the socket. *)
Definition build_frame (frame_id : Z) (dt : R) (states : list DroneState)
    : M (list DroneState * payload) :=
  now_iso <- now_isoformat w ;;
  ' (states', objs) <- update_all dt states ;;
  fp <- false_positive ;;
  ret (states',
       {| fram_id := str frame_id;
          p_cam_id := cam_id a;
          token_id := token a;
          timestamp := now_iso;
          image_info := (IMAGE_WIDTH, IMAGE_HEIGHT);
          objects := objs ++ fp |}).

End Simulation.

(** *** The socket and the send loop *)

Inductive loop_exit :=
| Finished          (* the [while] condition became false *)
| StoppedByUser     (* [except KeyboardInterrupt] *)
| ClosedByServer    (* [except ConnectionClosed] *)
| Failed            (* [except Exception]: [return 1] *)
| Escaped (e : exn) (* no handler: the exception leaves [frames_loop] *)
| OutOfFuel.

Definition exit_of_exn (e : exn) : loop_exit :=
  match loop_handler e with
  | ByKeyboardInterrupt => StoppedByUser
  | ByConnectionClosed => ClosedByServer
  | ByException => Failed
  | Unhandled => Escaped e
  end.

(** How the call of [frames_loop] ends. *)
Definition result_of_exit (e : loop_exit) : main_result :=
  match e with
  | Finished | StoppedByUser | ClosedByServer => Returns 0%Z
  | Failed => Returns 1%Z
  | Escaped e => Propagates e
  | OutOfFuel => Running
  end.

Record loop_state := {
  states : list DroneState;
  frame_id : Z;
  updates_remaining : option Z;   (* [None]: run continuously *)
  calls : counters;
  ticks : nat;                    (* completed iterations *)
  sent : list payload             (* messages handed to the socket, oldest first *)
}.

Inductive tick_result :=
| Continue (s : loop_state)
| Exit (e : loop_exit) (s : loop_state).

Section Loop.
Variable w : world.
Variable a : args.
Variable ws : transport.

(** One evaluation of the [while] condition and, if it holds, one body. *)
Definition tick (s : loop_state) : tick_result :=
  if keep_going (updates_remaining s) then
    match build_frame w a (frame_id s) (interval_s a) (states s) (calls s) with
    | None => Exit Failed s
    | Some ((states', message), calls') =>
        let io := tick_events ws (ticks s) in
        let s1 := {| states := states'; frame_id := frame_id s;
                     updates_remaining := updates_remaining s;
                     calls := calls'; ticks := ticks s; sent := sent s |} in
        match send_raises io with
        | Some e => Exit (exit_of_exn e) s1
        | None =>
            let s2 := {| states := states'; frame_id := frame_id s;
                         updates_remaining := updates_remaining s;
                         calls := calls'; ticks := ticks s;
                         sent := sent s ++ [message] |} in
            match (if show_responses a then recv_escapes (response io)
                   else None) with
            | Some e => Exit (exit_of_exn e) s2
            | None =>
                let s3 := {| states := states';
                             frame_id := (frame_id s + 1)%Z;
                             updates_remaining :=
                               count_down (updates_remaining s);
                             calls := calls'; ticks := S (ticks s);
                             sent := sent s ++ [message] |} in
                match sleep_raises io with
                | Some e => Exit (exit_of_exn e) s3
                | None => Continue s3
                end
            end
        end
    end
  else Exit Finished s.

Fixpoint run (fuel : nat) (s : loop_state) : loop_exit * loop_state :=
  match fuel with
  | O => (OutOfFuel, s)
  | S fuel' =>
      match tick s with
      | Continue s' => run fuel' s'
      | Exit e s' => (e, s')
      end
  end.

(** The state in which the [try] block is entered. *)
Definition initial_state : loop_state :=
  match init_frames_states w a no_calls with
  | Some (sts, c) =>
      {| states := sts; frame_id := 0%Z;
         updates_remaining :=
           if (0 <? updates a)%Z then Some (updates a) else None;
         calls := c; ticks := O; sent := [] |}
  | None =>   (* never taken: the initialisation does not raise *)
      {| states := []; frame_id := 0%Z; updates_remaining := None;
         calls := no_calls; ticks := O; sent := [] |}
  end.

Definition frames_loop (fuel : nat) : loop_exit * loop_state :=
  match recv_escapes (welcome ws) with
  | Some e => (exit_of_exn e, initial_state)
  | None => run fuel initial_state
  end.

End Loop.

(** [websockets.connect(uri)]: the socket, or the exception raised while
    connecting. *)
Inductive connection :=
| Connected (ws : transport)
| ConnectRaises (e : exn).

Definition main_async (fuel : nat) (w : world) (a : args) (c : connection)
    : main_result :=
  match c with
  | Connected ws =>
      match result_of_exit (fst (frames_loop w a ws fuel)) with
      | Propagates e => connect_handlers e
      | r => r
      end
  | ConnectRaises e => connect_handlers e
  end.

(** The options of the command line; [None] where one is not given.  The
    options that only make up the address of the server are left to
    [connection]. *)
Record options := {
  o_center_lat : option R;
  o_center_lon : option R;
  o_interval_s : option R;
  o_updates : option Z;
  o_radius_m : option R;
  o_altitude_m : option R;
  o_altitude_wobble_m : option R;
  o_num_drones : option Z;
  o_speed_range_kt : option (R * R);
  o_noise_level_m : option R;
  o_miss_rate : option R;
  o_false_positive_rate : option R;
  o_cam_id : option string;
  o_token : option string;
  o_show_responses : bool
}.

(** [parse_args]: [--center-lat] and [--center-lon] are required, the
    others have defaults. *)
Definition parse_args (cl : command_line options) : parsed args :=
  match cl with
  | HelpRequested => ArgparseExit 0
  | Malformed => ArgparseExit 2
  | Options o =>
      match o_center_lat o, o_center_lon o with
      | Some center_lat0, Some center_lon0 =>
          Namespace
            {| center_lat := center_lat0;
               center_lon := center_lon0;
               interval_s := default_to (5 / 10) (o_interval_s o);
               updates := default_to 0%Z (o_updates o);
               a_radius_m := default_to 120 (o_radius_m o);
               altitude_m := default_to 120 (o_altitude_m o);
               altitude_wobble_m := default_to 8 (o_altitude_wobble_m o);
               num_drones := default_to 1%Z (o_num_drones o);
               speed_range_kt := default_to (6, 24) (o_speed_range_kt o);
               noise_level_m := default_to 3 (o_noise_level_m o);
               miss_rate := default_to (10 / 100) (o_miss_rate o);
               false_positive_rate :=
                 default_to (3 / 100) (o_false_positive_rate o);
               cam_id :=
                 default_to "e8a76237-df96-4a6a-9375-baa4d74f5f12"%string
                   (o_cam_id o);
               token :=
                 default_to "257c87b4-9469-44fe-9132-8937f69723bd"%string
                   (o_token o);
               show_responses := o_show_responses o |}
      | _, _ => ArgparseExit 2
      end
  end.

Definition main (fuel : nat) (w : world) (cl : command_line options)
    (c : connection) : main_result :=
  match parse_args cl with
  | ArgparseExit code => SystemExit code
  | Namespace a =>
      if negb (validate_args a) then Returns 2%Z
      else main_async fuel w a c
  end.

(** *** Vocabulary of the statements *)

(** [random.random()] returns a number in [0, 1). *)
Definition unit_draws (w : world) : Prop := forall i, 0 <= rand w i < 1.

(** An orbiting track can be advanced: its radius is not zero. *)
Definition radius_ok (st : DroneState) : Prop :=
  motion st = Circle -> radius_m st <> 0.

(** The phase angle of an orbiting track lies within one full turn. *)
Definition angle_ok (st : DroneState) : Prop :=
  motion st = Circle -> 0 <= angle_rad st < 2 * PI.

(** No await of the tick raises, and the reply, when one is read, is
    nothing the decoding block lets escape. *)
Definition quiet_tick (a : args) (io : tick_io) : Prop :=
  send_raises io = None
  /\ (show_responses a = true -> recv_escapes (response io) = None)
  /\ sleep_raises io = None.

(** The run is not interrupted and the connection stays open during the
    welcome and the first [n] ticks. *)
Definition uninterrupted (a : args) (ws : transport) (n : nat) : Prop :=
  recv_escapes (welcome ws) = None
  /\ forall i, (i < n)%nat -> quiet_tick a (tick_events ws i).

(** [st'] is [st] one tick of [dt] seconds later: the same kind of motion
    and, for an orbiting track, the phase angle advanced by
    (current speed / radius) x [dt] and brought back into [0, 2 pi) by a
    whole number [k] of turns; the current speed is the base speed scaled by
    one draw of [uniform(0.9, 1.1)]. *)
Definition advanced (w : world) (dt : R) (st st' : DroneState) : Prop :=
  motion st' = motion st
  /\ (motion st = Circle ->
      exists (i : nat) (k : Z),
        let current_speed_mps :=
          speed_base_mps st * (9 / 10 + (11 / 10 - 9 / 10) * rand w i) in
        angle_rad st'
        = angle_rad st + current_speed_mps / radius_m st * dt
          - IZR k * (2 * PI)
        /\ 0 <= angle_rad st' < 2 * PI).

(** No draw falls below [rate]: with the miss rate, no track is ever
    missed; with the false-positive rate, no object is ever added. *)
Definition never_below (w : world) (rate : R) : Prop :=
  forall i, ~ rand w i < rate.

(** What the [i]-th message of a run (counting from 0) with [n] tracks
    must look like. *)
Definition frame_ok (w : world) (a : args) (n i : nat) (msg : payload) : Prop :=
  fram_id msg = str (Z.of_nat i)
  /\ (List.length (objects msg) <= n + 1)%nat
  /\ (never_below w (miss_rate a) ->
      never_below w (false_positive_rate a) ->
      List.length (objects msg) = n).

Definition trace_ok (w : world) (a : args) (n : nat) (msgs : list payload)
    : Prop :=
  forall i msg, nth_error msgs i = Some msg -> frame_ok w a n i msg.

(** What holds whenever the [while] condition is about to be evaluated. *)
Record counts_inv (w : world) (a : args) (n : nat) (s : loop_state)
    : Prop := {
  inv_states : List.length (states s) = n;
  inv_frame_id : frame_id s = Z.of_nat (List.length (sent s));
  inv_ticks : ticks s = List.length (sent s);
  inv_trace : trace_ok w a n (sent s)
}.

(** The states the loop passes through, and those it stops in. *)
Inductive reachable (w : world) (a : args) (ws : transport)
    : loop_state -> Prop :=
| reach_start : reachable w a ws (initial_state w a)
| reach_continue s s' :
    reachable w a ws s -> tick w a ws s = Continue s' -> reachable w a ws s'
| reach_exit s e s' :
    reachable w a ws s -> tick w a ws s = Exit e s' -> reachable w a ws s'.

(** The fields of a track that no tick changes. *)
Definition same_track (st st' : DroneState) : Prop :=
  drone_id st' = drone_id st /\ type st' = type st /\ motion st' = motion st
  /\ radius_m st' = radius_m st /\ speed_base_mps st' = speed_base_mps st
  /\ base_alt_m st' = base_alt_m st /\ wobble_m st' = wobble_m st.

(** [d] is what a tick reports of the track [st]: its name and type, its
    base speed scaled by one draw of [uniform(0.9, 1.1)] and turned into
    knots, its base altitude plus the wobble and one draw of
    [uniform(-2, 2)]; speed and altitude rounded to two decimals. *)
Definition detection_of (w : world) (st : DroneState) (d : detection) : Prop :=
  obj_id d = drone_id st /\ obj_type d = type st
  /\ (exists i,
        speed_kt d
        = py_round (speed_base_mps st
                    * (9 / 10 + (11 / 10 - 9 / 10) * rand w i)
                    / KNOTS_TO_MPS) 2)
  /\ (exists phase i,
        obj_alt d
        = py_round (base_alt_m st + wobble_m st * sin phase
                    + (- (2) + (2 - - (2)) * rand w i)) 2).

(** [d] is a false positive: a made-up name, a speed drawn from
    [uniform(0, 2)] metres per second and an altitude within 5 metres of
    the configured one. *)
Definition false_detection (w : world) (a : args) (d : detection) : Prop :=
  (exists h, obj_id d = String.append "fp-" (String.substring 0 6 h))
  /\ obj_type d = "unknown"%string
  /\ (exists i,
        speed_kt d = py_round ((0 + (2 - 0) * rand w i) / KNOTS_TO_MPS) 2)
  /\ (exists i,
        obj_alt d
        = py_round (altitude_m a + (- (5) + (5 - - (5)) * rand w i)) 2).

(** The objects of a frame built from the tracks [sts]: detections of some
    of the tracks, in the order of the tracks, then at most one false
    positive. *)
Definition frame_shape (w : world) (a : args) (sts : list DroneState)
    (m : payload) : Prop :=
  exists objs fp,
    objects m = objs ++ fp
    /\ (List.length fp <= 1)%nat
    /\ Forall (false_detection w a) fp
    /\ Forall (fun d => exists st, In st sts /\ detection_of w st d) objs
    /\ (NoDup (map drone_id sts) -> NoDup (map obj_id objs)).

(** What [init_frames_states] promises of each track. *)
Definition fresh_track (w : world) (a : args) (st : DroneState) : Prop :=
  type st = "unknown"%string
  /\ base_alt_m st = altitude_m a /\ wobble_m st = altitude_wobble_m a
  /\ (unit_draws w -> fst (speed_range_kt a) <= snd (speed_range_kt a) ->
      fst (speed_range_kt a) * KNOTS_TO_MPS <= speed_base_mps st
        <= snd (speed_range_kt a) * KNOTS_TO_MPS)
  /\ (unit_draws w -> 0 <= a_radius_m a ->
      match motion st with
      | Circle =>
          0 <= angle_rad st < 2 * PI /\ bearing_rad st = 0
          /\ a_radius_m a * (7 / 10) <= radius_m st <= a_radius_m a * (13 / 10)
      | Straight =>
          angle_rad st = 0 /\ 0 <= bearing_rad st < 2 * PI
          /\ radius_m st = a_radius_m a
      end)
  /\ (unit_draws w -> 0 <= a_radius_m a ->
      let off := latlon_to_m_offsets (lat st) (lon st)
                   (center_lat a) (center_lon a) in
      sqrt (fst off * fst off + snd off * snd off) <= a_radius_m a * (25 / 100)).

End Telemetry.

(** ** drone_binary_image_simulator.py *)

Module BinaryImage.
Import Py Ws.
Local Open Scope Z_scope.

(** A directory entry as the sender sees it. *)
Record dir_entry := {
  name : string;
  is_file : bool;
  data : option (list Byte.byte)   (* [None]: [open] or [read] raises *)
}.

Inductive path_kind :=
| Missing
| NotADirectory
| Directory (entries : list dir_entry).

Definition is_image (f : dir_entry) : bool :=
  is_file f && str_in (suffix (name f)) image_extensions.

(** [None] stands for the exception raised on a missing directory (or by
    [iterdir] on something that is not one). *)
Definition get_image_files (directory : path_kind) : option (list dir_entry) :=
  match directory with
  | Missing => None
  | NotADirectory => None
  | Directory entries => Some (sort_by name (filter is_image entries))
  end.

Record args := {
  frames_dir : path_kind;      (* what [args.frames_dir] names on disk *)
  device_id : string;
  camera_id : string;
  interval_s : Q;
  updates : Z;
  loop : bool;
  send_metadata_json : bool
}.

(** The socket of one run: the shared part, and the two awaits around the
    optional metadata message. *)
Record session := {
  socket : transport;
  metadata_send_raises : option exn;
  metadata_ack : recv_result;
  metadata_time : string       (* [datetime.now(utc).isoformat()] *)
}.

Inductive message :=
| Metadata (device camera time : string)   (* the JSON text message *)
| Image (image_data : list Byte.byte).     (* one binary message *)

Inductive loop_exit :=
| Finished          (* the [while] condition became false *)
| SentAll           (* [break] after the last image, [--loop] off *)
| StoppedByUser     (* [except KeyboardInterrupt] *)
| ClosedByServer    (* [except ConnectionClosed] *)
| Failed            (* [except Exception]: [return 1] *)
| Escaped (e : exn) (* no handler: the exception leaves the function *)
| OutOfFuel.

Definition exit_of_exn (e : exn) : loop_exit :=
  match loop_handler e with
  | ByKeyboardInterrupt => StoppedByUser
  | ByConnectionClosed => ClosedByServer
  | ByException => Failed
  | Unhandled => Escaped e
  end.

Record loop_state := {
  frame_count : Z;
  updates_remaining : option Z;
  image_index : nat;
  skipped : list string;    (* names logged by [Error reading ...] *)
  sent : list message       (* messages handed to the socket, oldest first *)
}.

Inductive tick_result :=
| Continue (s : loop_state)
| Exit (e : loop_exit) (s : loop_state).

Section Loop.
Variable a : args.
Variable ws : session.
Variable image_files : list dir_entry.

(** One evaluation of the [while] condition and, if it holds, one body.
    The awaits of the [n]-th send are [tick_events] at [n - 1]. *)
Definition tick (s : loop_state) : tick_result :=
  if keep_going (updates_remaining s) then
    let wrap := (List.length image_files <=? image_index s)%nat in
    if wrap && negb (loop a) then Exit SentAll s
    else
      let image_index0 := if wrap then O else image_index s in
      match nth_error image_files image_index0 with
      | None => Exit Failed s      (* [IndexError] *)
      | Some image_file =>
          match data image_file with
          | None =>
              Continue {| frame_count := frame_count s;
                          updates_remaining := updates_remaining s;
                          image_index := S image_index0;
                          skipped := skipped s ++ [name image_file];
                          sent := sent s |}
          | Some image_data =>
              let io := tick_events (socket ws) (Z.to_nat (frame_count s)) in
              match send_raises io with
              | Some e =>
                  Exit (exit_of_exn e)
                    {| frame_count := frame_count s;
                       updates_remaining := updates_remaining s;
                       image_index := image_index0;
                       skipped := skipped s; sent := sent s |}
              | None =>
                  let s2 := {| frame_count := frame_count s + 1;
                               updates_remaining := updates_remaining s;
                               image_index := S image_index0;
                               skipped := skipped s;
                               sent := sent s ++ [Image image_data] |} in
                  match recv_escapes (response io) with
                  | Some e => Exit (exit_of_exn e) s2
                  | None =>
                      let s3 := {| frame_count := frame_count s2;
                                   updates_remaining :=
                                     count_down (updates_remaining s2);
                                   image_index := image_index s2;
                                   skipped := skipped s2;
                                   sent := sent s2 |} in
                      if keep_going (updates_remaining s3) then
                        match sleep_raises io with
                        | Some e => Exit (exit_of_exn e) s3
                        | None => Continue s3
                        end
                      else Continue s3
                  end
              end
          end
      end
  else Exit Finished s.

Fixpoint run (fuel : nat) (s : loop_state) : loop_exit * loop_state :=
  match fuel with
  | O => (OutOfFuel, s)
  | S fuel' =>
      match tick s with
      | Continue s' => run fuel' s'
      | Exit e s' => (e, s')
      end
  end.

End Loop.

(** How a call ends: with a return value, or with an exception that no
    handler of the tool catches. *)
Inductive outcome :=
| Returned (code : Z) (final : loop_state)
| Uncaught (e : exn)
| StillRunning.

Definition start_state (a : args) (sent0 : list message) : loop_state :=
  {| frame_count := 0;
     updates_remaining := if 0 <? updates a then Some (updates a) else None;
     image_index := O; skipped := []; sent := sent0 |}.

Definition send_loop (fuel : nat) (a : args) (ws : session)
    (image_files : list dir_entry) (sent0 : list message) : outcome :=
  match run a ws image_files fuel (start_state a sent0) with
  | (OutOfFuel, _) => StillRunning
  | (Failed, s) => Returned 1 s
  | (Escaped e, _) => Uncaught e
  | (_, s) => Returned 0 s
  end.

Definition send_binary_images (fuel : nat) (a : args) (ws : session) : outcome :=
  match get_image_files (frames_dir a) with
  | None => Returned 1 (start_state a [])
  | Some [] => Returned 1 (start_state a [])
  | Some image_files =>
      match recv_escapes (welcome (socket ws)) with
      | Some e => Uncaught e
      | None =>
          if send_metadata_json a then
            match metadata_send_raises ws with
            | Some e => Uncaught e
            | None =>
                match recv_escapes (metadata_ack ws) with
                | Some e => Uncaught e
                | None =>
                    send_loop fuel a ws image_files
                      [Metadata (device_id a) (camera_id a) (metadata_time ws)]
                end
            end
          else send_loop fuel a ws image_files []
      end
  end.

(** [websockets.connect(uri)]: the socket, or the exception raised while
    connecting. *)
Inductive connection :=
| Connected (ws : session)
| ConnectRaises (e : exn).

Definition main_async (fuel : nat) (a : args) (c : connection)
    : main_result :=
  match c with
  | Connected ws =>
      match send_binary_images fuel a ws with
      | Returned code _ => Returns code
      | Uncaught e => connect_handlers e
      | StillRunning => Running
      end
  | ConnectRaises e => connect_handlers e
  end.

(** The options of the command line; [None] where one is not given.  The
    options that only make up the address of the server are left to
    [connection]. *)
Record options := {
  o_frames_dir : path_kind;   (* what [--frames-dir], or its default
                                 ["P3_VIDEO_frames"], names on disk *)
  o_device_id : option string;
  o_camera_id : option string;
  o_interval_s : option Q;
  o_updates : option Z;
  o_loop : bool;
  o_send_metadata_json : bool
}.

(** [parse_args]: nothing is required, every option has a default. *)
Definition parse_args (cl : command_line options) : parsed args :=
  match cl with
  | HelpRequested => ArgparseExit 0
  | Malformed => ArgparseExit 2
  | Options o =>
      Namespace {| frames_dir := o_frames_dir o;
                   device_id := default_to "sim-device-1"%string (o_device_id o);
                   camera_id := default_to "sim-camera-1"%string (o_camera_id o);
                   interval_s := default_to (1 # 2)%Q (o_interval_s o);
                   updates := default_to 0 (o_updates o);
                   loop := o_loop o;
                   send_metadata_json := o_send_metadata_json o |}
  end.

Definition main (fuel : nat) (cl : command_line options) (c : connection)
    : main_result :=
  match parse_args cl with
  | ArgparseExit code => SystemExit code
  | Namespace a =>
      if Qle_bool (interval_s a) 0 then Returns 2
      else if updates a <? 0 then Returns 2
      else main_async fuel a c
  end.

(** *** Vocabulary of the statements *)

(** The contents of the files that can be read, in list order. *)
Definition readable (files : list dir_entry) : list (list Byte.byte) :=
  flat_map (fun f => match data f with Some d => [d] | None => [] end) files.

(** The names of the files that cannot be read, in list order. *)
Definition unreadable_names (files : list dir_entry) : list string :=
  flat_map (fun f => match data f with Some _ => [] | None => [name f] end)
           files.

(** No await of the tick raises and the reply is nothing the decoding
    block lets escape. *)
Definition quiet_tick (io : tick_io) : Prop :=
  send_raises io = None
  /\ recv_escapes (response io) = None
  /\ sleep_raises io = None.

(** Nothing interrupts the run and the connection stays open: during the
    welcome, the optional metadata exchange and the first [n] sends. *)
Definition undisturbed (a : args) (ws : session) (n : nat) : Prop :=
  recv_escapes (welcome (socket ws)) = None
  /\ (send_metadata_json a = true ->
      metadata_send_raises ws = None
      /\ recv_escapes (metadata_ack ws) = None)
  /\ forall i, (i < n)%nat -> quiet_tick (tick_events (socket ws) i).

(** The loop state accounts for itself: what was sent after [sent0] are
    the contents of image files, as many as the frame counter says, and
    every name logged as skipped is that of an image file that cannot be
    read. *)
Definition accounted (files : list dir_entry) (sent0 : list message)
    (s : loop_state) : Prop :=
  exists l,
    sent s = sent0 ++ map Image l
    /\ frame_count s = Z.of_nat (List.length l)
    /\ Forall (fun d => exists f, In f files /\ data f = Some d) l
    /\ Forall (fun nm => exists f, In f files /\ data f = None /\ name f = nm)
              (skipped s).

End BinaryImage.

(** ** The frame files: written by mp4_to_frames.py, read by
    drone_binary_image_simulator.py *)

Module FrameFiles.
Local Open Scope Z_scope.

Fixpoint zeros (k : nat) : string :=
  match k with
  | O => EmptyString
  | S k' => String "0" (zeros k')
  end.

(** [s.zfill(width)] on a string of digits. *)
Definition zfill (width : nat) (s : string) : string :=
  String.append (zeros (width - String.length s)) s.

(** [f"{n:06d}"]: at least six characters, zeros after the sign. *)
Definition format_06d (n : Z) : string :=
  if n <? 0 then String "-" (zfill 5 (Telemetry.str (- n)))
  else zfill 6 (Telemetry.str n).

(** The value of [format] once [extract_frames] has normalised it. *)
Definition format_name (f : Mp4.image_format) : string :=
  match f with
  | Mp4.Png => "png"
  | Mp4.Jpeg => "jpeg"
  | Mp4.Unsupported => EmptyString
  end.

(** [f"{prefix}_{frame_number:06d}.{format}"]. *)
Definition filename (prefix : string) (frame_number : Z) (format : string)
    : string :=
  String.append prefix
    (String "_" (String.append (format_06d frame_number)
                               (String "." format))).

(** The directory entry of the file written for frame [n], with whatever
    [contents] reading it gives. *)
Definition frame_file (prefix : string) (fmt : Mp4.image_format)
    (contents : Z -> option (list Byte.byte)) (n : Z)
    : BinaryImage.dir_entry :=
  {| BinaryImage.name := filename prefix n (format_name fmt);
     BinaryImage.is_file := true;
     BinaryImage.data := contents n |}.

End FrameFiles.

(** ** Some doubles, in the hexadecimal notation of [float.hex] *)

Module Doubles.
Import PrimFloat.

Definition d_0_125 : float := 0x1p-3%float.                    (* 0.125 *)
Definition d_0_5 : float := 0x1p-1%float.                      (* 0.5 *)
Definition d_0_514444 : float := 0x1.076534373f317p-1%float.  (* 0.514444 *)
Definition d_0_7 : float := 0x1.6666666666666p-1%float.       (* 0.7 *)
Definition d_0_9 : float := 0x1.ccccccccccccdp-1%float.       (* 0.9 *)
Definition d_1_1 : float := 0x1.199999999999ap+0%float.       (* 1.1 *)
Definition d_1_3 : float := 0x1.4cccccccccccdp+0%float.       (* 1.3 *)
Definition d_1e_320 : float := 0x0.00000000007e8p-1022%float. (* 1e-320 *)

End Doubles.

(** ** Concrete inputs used by the examples below *)

Module Samples.
Local Open Scope Z_scope.

(** A 3x2 PNG that opens and can be saved. *)
Definition png_3x2 : Resize.dir_entry :=
  {| Resize.name := "a.png"; Resize.is_file := true;
     Resize.opened := Some {| Resize.img_size := (3, 2);
                              Resize.img_format := Some "PNG"%string |};
     Resize.save_ok := true |}.

(** A ten-frame clip at 25 frames per second, every frame decodable. *)
Definition clip_10 : Mp4.video :=
  {| Mp4.file_exists := true; Mp4.is_opened := true;
     Mp4.fps := 25; Mp4.total_frames := 10;
     Mp4.read_at := fun _ => Mp4.Decoded |}.

(** A four-frame clip whose second frame (index 1) cannot be decoded. *)
Definition clip_gap : Mp4.video :=
  {| Mp4.file_exists := true; Mp4.is_opened := true;
     Mp4.fps := 25; Mp4.total_frames := 4;
     Mp4.read_at := fun i => if i =? 1 then Mp4.NoFrame else Mp4.Decoded |}.

(** A corrupt file between two good ones. *)
Definition broken_png : Resize.dir_entry :=
  {| Resize.name := "b.png"; Resize.is_file := true;
     Resize.opened := None; Resize.save_ok := true |}.

Definition png_4x4 : Resize.dir_entry :=
  {| Resize.name := "c.png"; Resize.is_file := true;
     Resize.opened := Some {| Resize.img_size := (4, 4);
                              Resize.img_format := Some "PNG"%string |};
     Resize.save_ok := true |}.



(** The scenario of the specification: two drones, five updates, no miss
    and no false positive; a world whose draws are all zero and a socket on
    which nothing goes wrong. *)
Definition two_drones_five_updates : Telemetry.args :=
  {| Telemetry.center_lat := 137563 / 10000;
     Telemetry.center_lon := 1005018 / 10000;
     Telemetry.interval_s := 1 / 2;
     Telemetry.updates := 5;
     Telemetry.a_radius_m := 120;
     Telemetry.altitude_m := 120;
     Telemetry.altitude_wobble_m := 8;
     Telemetry.num_drones := 2;
     Telemetry.speed_range_kt := (6, 24)%R;
     Telemetry.noise_level_m := 3;
     Telemetry.miss_rate := 0;
     Telemetry.false_positive_rate := 0;
     Telemetry.cam_id := "e8a76237-df96-4a6a-9375-baa4d74f5f12";
     Telemetry.token := "257c87b4-9469-44fe-9132-8937f69723bd";
     Telemetry.show_responses := false |}.

Definition still_world : Telemetry.world :=
  {| Telemetry.rand := fun _ => 0%R;
     Telemetry.normal := fun _ => 0%R;
     Telemetry.uuid_hex := fun _ => "0123456789abcdef0123456789abcdef"%string;
     Telemetry.clock := fun _ => 0%R;
     Telemetry.utc_now := fun _ => "2025-01-01T00:00:00+00:00"%string |}.

Definition calm_tick : Ws.tick_io :=
  {| Ws.send_raises := None; Ws.response := Ws.TimedOut;
     Ws.sleep_raises := None |}.

Definition calm_socket : Ws.transport :=
  {| Ws.welcome := Ws.TimedOut; Ws.tick_events := fun _ => calm_tick |}.

(** An orbiting track, a quarter of a turn in, on a 100 m circle. *)
Definition orbiting_track : Telemetry.DroneState :=
  {| Telemetry.drone_id := "sim-1"; Telemetry.type := "unknown";
     Telemetry.motion := Telemetry.Circle;
     Telemetry.angle_rad := (PI / 2)%R; Telemetry.bearing_rad := 0%R;
     Telemetry.radius_m := 100%R; Telemetry.speed_base_mps := 10%R;
     Telemetry.lat := 0%R; Telemetry.lon := 0%R;
     Telemetry.base_alt_m := 120%R; Telemetry.wobble_m := 8%R |}.

(** A frames directory: two readable images, one unreadable image and a
    text file, listed out of order. *)
Definition frames_entries : list BinaryImage.dir_entry :=
  [ {| BinaryImage.name := "frame_000002.png"; BinaryImage.is_file := true;
       BinaryImage.data := Some [Byte.x02] |};
    {| BinaryImage.name := "notes.txt"; BinaryImage.is_file := true;
       BinaryImage.data := Some [Byte.x2a] |};
    {| BinaryImage.name := "frame_000001.png"; BinaryImage.is_file := true;
       BinaryImage.data := None |};
    {| BinaryImage.name := "frame_000000.png"; BinaryImage.is_file := true;
       BinaryImage.data := Some [Byte.x00] |} ].

Definition send_all_once : BinaryImage.args :=
  {| BinaryImage.frames_dir := BinaryImage.Directory frames_entries;
     BinaryImage.device_id := "sim-device-1";
     BinaryImage.camera_id := "sim-camera-1";
     BinaryImage.interval_s := 1 # 2;
     BinaryImage.updates := 0;
     BinaryImage.loop := false;
     BinaryImage.send_metadata_json := false |}.

Definition calm_session : BinaryImage.session :=
  {| BinaryImage.socket := calm_socket;
     BinaryImage.metadata_send_raises := None;
     BinaryImage.metadata_ack := Ws.TimedOut;
     BinaryImage.metadata_time := "2025-01-01T00:00:00+00:00" |}.

(** The same two drones, sent without end ([--updates 0]). *)
Definition two_drones_continuous : Telemetry.args :=
  {| Telemetry.center_lat := 137563 / 10000;
     Telemetry.center_lon := 1005018 / 10000;
     Telemetry.interval_s := 1 / 2;
     Telemetry.updates := 0;
     Telemetry.a_radius_m := 120;
     Telemetry.altitude_m := 120;
     Telemetry.altitude_wobble_m := 8;
     Telemetry.num_drones := 2;
     Telemetry.speed_range_kt := (6, 24)%R;
     Telemetry.noise_level_m := 3;
     Telemetry.miss_rate := 0;
     Telemetry.false_positive_rate := 0;
     Telemetry.cam_id := "e8a76237-df96-4a6a-9375-baa4d74f5f12";
     Telemetry.token := "257c87b4-9469-44fe-9132-8937f69723bd";
     Telemetry.show_responses := false |}.

(** A socket on which the third send finds the connection closed. *)
Definition closing_socket : Ws.transport :=
  {| Ws.welcome := Ws.TimedOut;
     Ws.tick_events := fun i =>
       if (i =? 2)%nat
       then {| Ws.send_raises := Some Py.ConnectionClosed;
               Ws.response := Ws.TimedOut; Ws.sleep_raises := None |}
       else calm_tick |}.

(** A server that answers every frame with a JSON list. *)
Definition chatty_socket : Ws.transport :=
  {| Ws.welcome := Ws.TimedOut;
     Ws.tick_events := fun _ =>
       {| Ws.send_raises := None;
          Ws.response := Ws.Received Ws.JsonNotObject;
          Ws.sleep_raises := None |} |}.


(** The frames directory again, with [--updates 2]. *)
Definition send_two : BinaryImage.args :=
  {| BinaryImage.frames_dir := BinaryImage.Directory frames_entries;
     BinaryImage.device_id := "sim-device-1";
     BinaryImage.camera_id := "sim-camera-1";
     BinaryImage.interval_s := 1 # 2;
     BinaryImage.updates := 2;
     BinaryImage.loop := false;
     BinaryImage.send_metadata_json := false |}.

(** Two readable frames, sent round and round: [--loop --updates 3]. *)
Definition loop_entries : list BinaryImage.dir_entry :=
  [ {| BinaryImage.name := "frame_000001.png"; BinaryImage.is_file := true;
       BinaryImage.data := Some [Byte.x01] |};
    {| BinaryImage.name := "frame_000000.png"; BinaryImage.is_file := true;
       BinaryImage.data := Some [Byte.x00] |} ].

Definition loop_three : BinaryImage.args :=
  {| BinaryImage.frames_dir := BinaryImage.Directory loop_entries;
     BinaryImage.device_id := "sim-device-1";
     BinaryImage.camera_id := "sim-camera-1";
     BinaryImage.interval_s := 1 # 2;
     BinaryImage.updates := 3;
     BinaryImage.loop := true;
     BinaryImage.send_metadata_json := false |}.

(** A directory whose only image cannot be read, with [--loop]. *)
Definition loop_unreadable : BinaryImage.args :=
  {| BinaryImage.frames_dir :=
       BinaryImage.Directory
         [ {| BinaryImage.name := "frame_000000.png";
              BinaryImage.is_file := true; BinaryImage.data := None |} ];
     BinaryImage.device_id := "sim-device-1";
     BinaryImage.camera_id := "sim-camera-1";
     BinaryImage.interval_s := 1 # 2;
     BinaryImage.updates := 0;
     BinaryImage.loop := true;
     BinaryImage.send_metadata_json := false |}.

(** A frames directory that does not exist. *)
Definition missing_dir_args : BinaryImage.args :=
  {| BinaryImage.frames_dir := BinaryImage.Missing;
     BinaryImage.device_id := "sim-device-1";
     BinaryImage.camera_id := "sim-camera-1";
     BinaryImage.interval_s := 1 # 2;
     BinaryImage.updates := 0;
     BinaryImage.loop := false;
     BinaryImage.send_metadata_json := false |}.

(** The command lines of the two scenarios. *)
Definition two_drones_options (updates : Z) : Telemetry.options :=
  {| Telemetry.o_center_lat := Some (137563 / 10000)%R;
     Telemetry.o_center_lon := Some (1005018 / 10000)%R;
     Telemetry.o_interval_s := Some (1 / 2)%R;
     Telemetry.o_updates := Some updates;
     Telemetry.o_radius_m := None;
     Telemetry.o_altitude_m := None;
     Telemetry.o_altitude_wobble_m := None;
     Telemetry.o_num_drones := Some 2;
     Telemetry.o_speed_range_kt := None;
     Telemetry.o_noise_level_m := None;
     Telemetry.o_miss_rate := Some 0%R;
     Telemetry.o_false_positive_rate := Some 0%R;
     Telemetry.o_cam_id := None;
     Telemetry.o_token := None;
     Telemetry.o_show_responses := false |}.

Definition two_drones_five_command : Py.command_line Telemetry.options :=
  Py.Options (two_drones_options 5).

Definition two_drones_continuous_command
    : Py.command_line Telemetry.options :=
  Py.Options (two_drones_options 0).

(** A server that greets with a JSON list, and is silent afterwards. *)
Definition list_greeting_socket : Ws.transport :=
  {| Ws.welcome := Ws.Received Ws.JsonNotObject;
     Ws.tick_events := fun _ => calm_tick |}.

(** The scenario with [--radius-m 1e-320], a subnormal double. *)
Definition tiny_radius_args : Telemetry.args :=
  {| Telemetry.center_lat := 137563 / 10000;
     Telemetry.center_lon := 1005018 / 10000;
     Telemetry.interval_s := 1 / 2;
     Telemetry.updates := 5;
     Telemetry.a_radius_m := 2024 / 2 ^ 1074;
     Telemetry.altitude_m := 120;
     Telemetry.altitude_wobble_m := 8;
     Telemetry.num_drones := 2;
     Telemetry.speed_range_kt := (6, 24)%R;
     Telemetry.noise_level_m := 3;
     Telemetry.miss_rate := 0;
     Telemetry.false_positive_rate := 0;
     Telemetry.cam_id := "e8a76237-df96-4a6a-9375-baa4d74f5f12";
     Telemetry.token := "257c87b4-9469-44fe-9132-8937f69723bd";
     Telemetry.show_responses := false |}.

(** The sender's session on a server that answers every image with a JSON
    list. *)
Definition chatty_session : BinaryImage.session :=
  {| BinaryImage.socket := chatty_socket;
     BinaryImage.metadata_send_raises := None;
     BinaryImage.metadata_ack := Ws.TimedOut;
     BinaryImage.metadata_time := "2025-01-01T00:00:00+00:00" |}.

(** A strip of 1000 x 1 pixels. *)
Definition png_1000x1 : Resize.dir_entry :=
  {| Resize.name := "strip.png"; Resize.is_file := true;
     Resize.opened := Some {| Resize.img_size := (1000, 1);
                              Resize.img_format := Some "PNG"%string |};
     Resize.save_ok := true |}.

(** [--width 100] and [--size 620 620] on a directory of three images. *)
Definition width_100_args : Resize.args :=
  {| Resize.input_dir := Resize.Directory [png_4x4; broken_png; png_3x2];
     Resize.width := Some 100; Resize.height := None; Resize.size := None |}.

Definition size_620_args : Resize.args :=
  {| Resize.input_dir := Resize.Directory [png_4x4; broken_png; png_3x2];
     Resize.width := None; Resize.height := None;
     Resize.size := Some (620, 620) |}.



(** The resizer with both [--width 0] and [--height 0], and with
    [--width 0] alone. *)
Definition zero_width_and_height_command : Py.command_line Resize.options :=
  Py.Options {| Resize.o_input_dir :=
                  Some (Resize.Directory [png_3x2; png_4x4]);
                Resize.o_width := Some 0; Resize.o_height := Some 0;
                Resize.o_size := None; Resize.o_quality := None |}.

Definition zero_width_command : Py.command_line Resize.options :=
  Py.Options {| Resize.o_input_dir :=
                  Some (Resize.Directory [png_3x2; png_4x4]);
                Resize.o_width := Some 0; Resize.o_height := None;
                Resize.o_size := None; Resize.o_quality := None |}.

(** The sender on the sample directory, with its defaults. *)
Definition send_all_once_command : Py.command_line BinaryImage.options :=
  Py.Options {| BinaryImage.o_frames_dir :=
                  BinaryImage.Directory frames_entries;
                BinaryImage.o_device_id := None;
                BinaryImage.o_camera_id := None;
                BinaryImage.o_interval_s := None;
                BinaryImage.o_updates := None;
                BinaryImage.o_loop := false;
                BinaryImage.o_send_metadata_json := false |}.

End Samples.

(** * Properties *)

Module PyFacts.
Import Py.

Lemma leb_trans (a b c : string) :
  String.leb a b = true -> String.leb b c = true -> String.leb a c = true.
Proof.
  unfold String.leb. revert b c.
  induction a as [|x a IH]; intros [|y b] [|z c]; cbn; try easy.
  unfold Ascii.compare.
  destruct (N.compare_spec (N_of_ascii x) (N_of_ascii y)) as [E1|L1|G1];
    destruct (N.compare_spec (N_of_ascii y) (N_of_ascii z)) as [E2|L2|G2];
    destruct (N.compare_spec (N_of_ascii x) (N_of_ascii z)) as [E3|L3|G3];
    try easy; try lia.
  apply IH.
Qed.

Lemma not_leb_leb (a b : string) :
  String.leb a b = false -> String.leb b a = true.
Proof. destruct (String.leb_total a b) as [H|H]; congruence. Qed.

Section SortByKey.
Context {A : Type} (key : A -> string).

Lemma insert_by_perm (x : A) (l : list A) :
  Permutation (insert_by key x l) (x :: l).
Proof.
  induction l as [|y l IH]; cbn; [reflexivity|].
  destruct (String.leb (key x) (key y)); [reflexivity|].
  rewrite IH. apply perm_swap.
Qed.

Lemma sort_by_perm (l : list A) : Permutation (sort_by key l) l.
Proof.
  induction l as [|x l IH]; cbn; [reflexivity|].
  rewrite insert_by_perm. now constructor.
Qed.

Lemma insert_by_sorted (x : A) (l : list A) :
  StronglySorted (key_le key) l -> StronglySorted (key_le key) (insert_by key x l).
Proof.
  induction 1 as [|y l Hs IH Hy]; cbn.
  - repeat constructor.
  - destruct (String.leb (key x) (key y)) eqn:E.
    + constructor; [now constructor|].
      constructor; [exact E|].
      eapply Forall_impl; [|exact Hy].
      intros z Hz. unfold key_le in *. eapply leb_trans; eassumption.
    + constructor; [exact IH|].
      apply not_leb_leb in E.
      rewrite (insert_by_perm x l). constructor; assumption.
Qed.

Lemma sort_by_sorted (l : list A) :
  StronglySorted (key_le key) (sort_by key l).
Proof.
  induction l as [|x l IH]; cbn; [constructor|].
  now apply insert_by_sorted.
Qed.

Lemma sort_by_length (l : list A) : List.length (sort_by key l) = List.length l.
Proof. apply Permutation_length, sort_by_perm. Qed.

End SortByKey.

End PyFacts.

Module ResizeFacts.
Import Py Resize.
Local Open Scope Z_scope.

Lemma py_int_nonneg (x : Q) : (0 <= x)%Q -> py_int x = Qfloor x.
Proof.
  intros H. unfold py_int.
  destruct (Qle_bool 0 x) eqn:E; [reflexivity|].
  apply Qle_bool_iff in H. congruence.
Qed.

Lemma inject_Z_bounds (n lo hi : Z) :
  lo <= n <= hi -> (inject_Z lo <= inject_Z n <= inject_Z hi)%Q.
Proof. intros [H1 H2]. split; rewrite <- Zle_Qle; assumption. Qed.

Lemma Qfloor_bounds (x : Q) (lo hi : Z) :
  (inject_Z lo <= x)%Q -> (x < inject_Z hi)%Q -> lo <= Qfloor x < hi.
Proof.
  intros H1 H2. split.
  - rewrite <- (Qfloor_Z lo). now apply Qfloor_resp_le.
  - rewrite Zlt_Qlt. eapply Qle_lt_trans; [apply Qfloor_le|exact H2].
Qed.

Lemma no_rounding_rounds (lo hi : Q) :
  (0 <= lo)%Q -> rounds_like_double no_rounding lo hi.
Proof.
  intros Hlo x [Hx _]. unfold no_rounding, unit_roundoff. split; nra.
Qed.

(** The error analysis of [h * (W / w)] in double precision, for sides
    below [2 ^ 25]: the computed product stays within half a unit of
    [h * W], once scaled by [w]. *)
Lemma rounded_product_bounds (fl : Q -> Q) (h W w : Z) :
  rounds_like_double fl (1 # 67108864) (2251799813685248 # 1) ->
  0 < w < 33554432 -> 0 < h < 33554432 -> 0 < W < 33554432 ->
  let r2 := fl (inject_Z h * fl (inject_Z W / inject_Z w))%Q in
  let k := h * W / w in
  (0 <= r2)%Q
  /\ (inject_Z (k - 1) <= r2)%Q /\ (r2 < inject_Z (k + 1))%Q
  /\ ((h * W) mod w <> 0 -> (inject_Z k <= r2)%Q).
Proof.
  intros Hfl Hw Hh HW r2 k. unfold Z.sub. rewrite !inject_Z_plus.
  change (inject_Z (- (1))) with (- (1))%Q. change (inject_Z 1) with 1%Q.
  set (wq := inject_Z w). set (hq := inject_Z h). set (Wq := inject_Z W).
  pose proof (inject_Z_bounds w 1 33554432 ltac:(lia)) as Bw.
  pose proof (inject_Z_bounds h 1 33554432 ltac:(lia)) as Bh.
  pose proof (inject_Z_bounds W 1 33554432 ltac:(lia)) as BW.
  fold wq in Bw. fold hq in Bh. fold Wq in BW.
  change (inject_Z 1) with 1%Q in Bw, Bh, BW.
  change (inject_Z 33554432) with (33554432 # 1) in Bw, Bh, BW.
  set (a := (Wq / wq)%Q).
  assert (Ea : (a * wq == Wq)%Q) by (unfold a; field; lra).
  assert (Pa : (0 <= a)%Q).
  { unfold a. apply Qle_shift_div_l; lra. }
  assert (Ba : ((1 # 67108864) <= a <= 2251799813685248 # 1)%Q).
  { split; nra. }
  pose proof (Hfl a Ba) as H1. unfold unit_roundoff in H1.
  set (r1 := fl a) in *.
  set (b := (hq * r1)%Q).
  assert (Bb : ((1 # 67108864) <= b <= 2251799813685248 # 1)%Q).
  { unfold b. split; nra. }
  assert (H2 : (b * (1 - (1 # 9007199254740992)) <= r2
                <= b * (1 + (1 # 9007199254740992)))%Q) by exact (Hfl b Bb).
  pose proof (Z.div_mod (h * W) w ltac:(lia)) as Ediv.
  pose proof (Z.mod_pos_bound (h * W) w ltac:(lia)) as Brem.
  fold k in Ediv. set (rem := (h * W) mod w) in *.
  assert (Eq : (hq * Wq == wq * inject_Z k + inject_Z rem)%Q).
  { unfold hq, Wq, wq. rewrite <- !inject_Z_mult, <- inject_Z_plus.
    now rewrite Ediv. }
  pose proof (inject_Z_bounds rem 0 (w - 1) ltac:(lia)) as Br.
  replace (inject_Z (w - 1)) with (wq - 1)%Q in Br
    by (unfold wq, Z.sub; rewrite inject_Z_plus; reflexivity).
  change (inject_Z 0) with 0%Q in Br.
  set (kq := inject_Z k) in *. set (rq := inject_Z rem) in *.
  assert (Hrq : rem <> 0 -> (1 <= rq)%Q).
  { intros Hrem. unfold rq. change 1%Q with (inject_Z 1).
    rewrite <- Zle_Qle. lia. }
  clear Hfl Bb Ba Ediv Hw Hh HW Brem.
  clearbody r2 r1 a kq rq wq hq Wq. subst b.
  assert (BhW : (hq * Wq <= 1125899906842624 # 1)%Q) by nra.
  assert (Bha : (0 <= hq * a)%Q) by nra.
  assert (T1 : (hq * r1 <= hq * a * (1 + (1 # 9007199254740992)))%Q) by nra.
  assert (T2 : (hq * a * (1 - (1 # 9007199254740992)) <= hq * r1)%Q) by nra.
  assert (Up : (r2 <= hq * a * (1 + (1 # 2251799813685248)))%Q) by nra.
  assert (Lo : (hq * a * (1 - (1 # 2251799813685248)) <= r2)%Q) by nra.
  assert (E2 : (wq * (hq * a) == hq * Wq)%Q) by nra.
  assert (Upw : (wq * r2 <= hq * Wq + (1 # 2))%Q).
  { assert (wq * r2 <= wq * (hq * a * (1 + (1 # 2251799813685248))))%Q by nra.
    nra. }
  assert (Low : (hq * Wq - (1 # 2) <= wq * r2)%Q).
  { assert (wq * (hq * a * (1 - (1 # 2251799813685248))) <= wq * r2)%Q by nra.
    nra. }
  repeat split.
  - nra.
  - nra.
  - nra.
  - intros Hrem. specialize (Hrq Hrem). nra.
Qed.

(** The height the width-only branch computes: the floor of [h * W / w],
    or one less when [w] divides [h * W] and the double product falls just
    below the quotient. *)
Lemma rounded_height (fl : Q -> Q) (h W w : Z) :
  rounds_like_double fl (1 # 67108864) (2251799813685248 # 1) ->
  0 < w < 33554432 -> 0 < h < 33554432 -> 0 < W < 33554432 ->
  let new_height := py_int (fl (inject_Z h * fl (inject_Z W / inject_Z w))%Q) in
  h * W / w - 1 <= new_height <= h * W / w
  /\ ((h * W) mod w <> 0 -> new_height = h * W / w).
Proof.
  intros Hfl Hw Hh HW new_height.
  destruct (rounded_product_bounds fl h W w Hfl Hw Hh HW) as (P & L & U & M).
  subst new_height. rewrite py_int_nonneg by exact P.
  pose proof (Qfloor_bounds _ _ _ L U) as B. split; [lia|].
  intros Hrem. pose proof (Qfloor_bounds _ _ _ (M Hrem) U). lia.
Qed.

(** In exact arithmetic the height is the floor itself. *)
Lemma exact_height (h W w : Z) :
  0 < w -> 0 <= h -> 0 <= W ->
  py_int (no_rounding (inject_Z h * no_rounding (inject_Z W / inject_Z w)))%Q
  = h * W / w.
Proof.
  intros Hc Ha Hb. unfold no_rounding.
  assert (E : (inject_Z h * (inject_Z W / inject_Z w)
               == (h * W) # (Z.to_pos w))%Q).
  { unfold Qeq, Qdiv, Qmult, Qinv, inject_Z; simpl.
    destruct w as [|p|p]; try lia. simpl. lia. }
  rewrite py_int_nonneg.
  - rewrite E. unfold Qfloor. rewrite Z2Pos.id by lia. reflexivity.
  - rewrite E. unfold Qle; simpl. nia.
Qed.

Lemma width_only_choice (fl : Q -> Q) (w h W : Z) :
  0 < w -> 0 < W ->
  choose_size fl (w, h) (Some W) None None
  = Chosen (W, py_int (fl (inject_Z h * fl (inject_Z W / inject_Z w))%Q)).
Proof.
  intros Hw HW. unfold choose_size, truthy_int. cbn [fst snd].
  replace (W =? 0) with false by (symmetry; apply Z.eqb_neq; lia).
  replace (w =? 0) with false by (symmetry; apply Z.eqb_neq; lia).
  reflexivity.
Qed.

Lemma width_only_result (fl : Q -> Q) (input : dir_entry) (img : image)
    (W : Z) :
  opened input = Some img ->
  0 < fst (img_size img) -> 0 < W ->
  let new_height :=
    py_int (fl (inject_Z (snd (img_size img))
                * fl (inject_Z W / inject_Z (fst (img_size img))))%Q) in
  resize_image fl input (Some W) None None
  = if (1 <=? new_height) && save_ok input
    then Written (W, new_height) else Caught.
Proof.
  intros Hopen Hw HW new_height. unfold resize_image. rewrite Hopen.
  destruct (img_size img) as [w h] eqn:Es. cbn [fst snd] in *.
  rewrite width_only_choice by assumption. fold new_height.
  unfold lib_resize. cbn [fst snd].
  replace (1 <=? W) with true by (symmetry; apply Z.leb_le; lia).
  cbn [andb].
  destruct (1 <=? new_height); cbn [andb]; [|reflexivity].
  cbn [img_size]. destruct (save_ok input); reflexivity.
Qed.

(** C4, as stated, fails: a 3x2 image resized with width 100 is written with
    height 66, the truncation of 66.67, where the claim expects
    [round(2 * 100 / 3) = 67]; so it is in exact arithmetic, under every
    rounding that behaves like double precision, and in binary64 itself. *)
Lemma width_only_height_not_rounded :
  resize_image no_rounding Samples.png_3x2 (Some 100) None None
  = Written (100, 66)
  /\ (forall fl, rounds_like_double fl (1 # 67108864) (2251799813685248 # 1) ->
                 resize_image fl Samples.png_3x2 (Some 100) None None
                 = Written (100, 66))
  /\ new_height_binary64 (3, 2) 100 = 66
  /\ py_round (inject_Z 2 * inject_Z 100 / inject_Z 3) = 67.
Proof.
  split; [reflexivity|]. split; [|split; vm_compute; reflexivity].
  intros fl Hfl.
  rewrite (width_only_result fl Samples.png_3x2
             {| img_size := (3, 2); img_format := Some "PNG"%string |} 100)
    by reflexivity.
  cbn [img_size fst snd Samples.png_3x2 save_ok].
  destruct (rounded_height fl 2 100 3 Hfl) as [_ H]; try lia.
  rewrite H by (vm_compute; discriminate). reflexivity.
Qed.

(** Where exact arithmetic and binary64 part: [55 * (3 / 11)] is the whole
    number 15, the double product falls just below it, and the truncation
    lands on 14. *)
Example width_only_height_binary64_below :
  new_height_binary64 (11, 55) 3 = 14
  /\ choose_size no_rounding (11, 55) (Some 3) None None = Chosen (3, 15).
Proof. split; vm_compute; reflexivity. Qed.

(** Why the sizes are bounded below: with a target width of [10 ^ 18] the
    double product is off by more than one, the 3x2 image gets the height
    666666666666666624 where the floor of [h * W / w] is
    666666666666666666. *)
Example width_only_height_beyond_bound :
  new_height_binary64 (3, 2) (10 ^ 18) = 666666666666666624
  /\ 2 * 10 ^ 18 / 3 = 666666666666666666.
Proof. split; vm_compute; reflexivity. Qed.

(** C4, amended: with only a target width [W > 0], an image of positive
    size [w x h] ([w], [h] and [W] below [2 ^ 25 = 33554432]) gets the
    destination size
    [(W, int(h * (W / w)))]: the scaled height is truncated, not rounded.
    It is the floor of [h * W / w] whenever that quotient is not a whole
    number, and the quotient or one less when it is (the double product may
    fall just below it).  The output is written with that size when the
    height is at least 1 and saving succeeds; otherwise the error is caught
    and nothing is written. *)
Theorem width_only_height_truncated (fl : Q -> Q) (input : dir_entry)
    (img : image) (W : Z) :
  rounds_like_double fl (1 # 67108864) (2251799813685248 # 1) ->
  opened input = Some img ->
  0 < fst (img_size img) < 33554432 ->
  0 < snd (img_size img) < 33554432 ->
  0 < W < 33554432 ->
  let w := fst (img_size img) in
  let h := snd (img_size img) in
  exists new_height,
    choose_size fl (img_size img) (Some W) None None = Chosen (W, new_height)
    /\ h * W / w - 1 <= new_height <= h * W / w
    /\ ((h * W) mod w <> 0 -> new_height = h * W / w)
    /\ resize_image fl input (Some W) None None
       = if (1 <=? new_height) && save_ok input
         then Written (W, new_height) else Caught.
Proof.
  intros Hfl Hopen Hw Hh HW w h.
  exists (py_int (fl (inject_Z h * fl (inject_Z W / inject_Z w))%Q)).
  destruct (rounded_height fl h W w Hfl Hw Hh HW) as [B E].
  split; [|split; [exact B|split; [exact E|]]].
  - subst w h. destruct (img_size img) as [w h]. cbn [fst snd] in *.
    apply width_only_choice; lia.
  - apply width_only_result; [assumption|lia|lia].
Qed.

Lemma width_only_height_truncated_example :
  exists new_height,
    choose_size no_rounding (3, 2) (Some 100) None None
    = Chosen (100, new_height)
    /\ 2 * 100 / 3 - 1 <= new_height <= 2 * 100 / 3
    /\ ((2 * 100) mod 3 <> 0 -> new_height = 2 * 100 / 3)
    /\ resize_image no_rounding Samples.png_3x2 (Some 100) None None
       = if (1 <=? new_height) && save_ok Samples.png_3x2
         then Written (100, new_height) else Caught.
Proof.
  apply (width_only_height_truncated no_rounding Samples.png_3x2
           {| img_size := (3, 2); img_format := Some "PNG"%string |} 100).
  - apply no_rounding_rounds. discriminate.
  - reflexivity.
  - cbn. lia.
  - cbn. lia.
  - lia.
Defined.

End ResizeFacts.

Module Mp4Facts.
Import Py Mp4.
Local Open Scope Z_scope.

Lemma py_max_spec (x y : Z) : py_max x y = Z.max x y.
Proof. unfold py_max. destruct (Z.ltb_spec x y); lia. Qed.

Lemma py_min_spec (x y : Z) : py_min x y = Z.min x y.
Proof. unfold py_min. destruct (Z.ltb_spec y x); lia. Qed.


Lemma frame_step_positive (fl : Q -> Q) (v : video) (interval : option Q) :
  0 < frame_step_of fl v interval.
Proof.
  unfold frame_step_of. destruct (truthy_float interval); [|lia].
  rewrite py_max_spec. lia.
Qed.

Lemma start_before_end (fl : Q -> Q) (v : video) (start_time : Q)
    (end_time : option Q) :
  start_frame_of fl v start_time < end_frame_of fl v start_time end_time.
Proof. unfold end_frame_of. rewrite py_max_spec. lia. Qed.

Lemma progression_snoc (start step : Z) (n : nat) :
  progression start step (S n)
  = progression start step n ++ [start + Z.of_nat n * step].
Proof. unfold progression. rewrite seq_S, map_app. reflexivity. Qed.

Lemma progression_length (start step : Z) (n : nat) :
  List.length (progression start step n) = n.
Proof. unfold progression. now rewrite length_map, length_seq. Qed.

Lemma progression_In (start step : Z) (n : nat) (i : Z) :
  In i (progression start step n) <->
  exists k, (k < n)%nat /\ i = start + Z.of_nat k * step.
Proof.
  unfold progression. rewrite in_map_iff. split.
  - intros (k & <- & Hk). apply in_seq in Hk. exists k. split; [lia|reflexivity].
  - intros (k & Hk & ->). exists k. split; [reflexivity|]. apply in_seq. lia.
Qed.

(** Counting the multiples of [step] below a bound, one frame at a time. *)
Lemma ceil_div_on_multiple (fc step : Z) :
  0 < step -> 0 <= fc -> fc mod step = 0 ->
  (fc + step - 1) / step = fc / step
  /\ (fc + 1 + step - 1) / step = fc / step + 1
  /\ fc = fc / step * step.
Proof.
  intros Hs Hfc Hm.
  pose proof (Z.div_mod fc step ltac:(lia)) as E. rewrite Hm in E.
  repeat split.
  - symmetry. apply Z.div_unique with (r := step - 1); lia.
  - symmetry. apply Z.div_unique with (r := 0); lia.
  - lia.
Qed.

Lemma ceil_div_off_multiple (fc step : Z) :
  0 < step -> 0 <= fc -> fc mod step <> 0 ->
  (fc + 1 + step - 1) / step = (fc + step - 1) / step.
Proof.
  intros Hs Hfc Hm.
  pose proof (Z.div_mod fc step ltac:(lia)) as E.
  pose proof (Z.mod_pos_bound fc step Hs) as B.
  rewrite <- (Z.div_unique (fc + 1 + step - 1) step (fc / step + 1) (fc mod step))
    by lia.
  rewrite <- (Z.div_unique (fc + step - 1) step (fc / step + 1) (fc mod step - 1))
    by lia.
  reflexivity.
Qed.

Lemma ceil_div_monotone (x y step : Z) :
  0 < step -> x <= y -> (x + step - 1) / step <= (y + step - 1) / step.
Proof. intros Hs Hxy. apply Z.div_le_mono; lia. Qed.

Lemma ceil_div_bound (fc step : Z) :
  0 < step -> 0 <= fc ->
  0 <= (fc + step - 1) / step /\ ((fc + step - 1) / step - 1) * step < fc
  \/ fc = 0 /\ (fc + step - 1) / step = 0.
Proof.
  intros Hs Hfc.
  destruct (Z.eq_dec fc 0) as [->|Hne].
  - right. split; [reflexivity|]. apply Z.div_small. lia.
  - left. split; [apply Z.div_pos; lia|].
    pose proof (Z.mul_div_le (fc + step - 1) step Hs). lia.
Qed.

Section ExtractLoop.
Variables (v : video) (start stop step : Z) (max_frames : option Z).
Hypothesis step_pos : 0 < step.
Hypothesis max_nonneg : forall mx, max_frames = Some mx -> 0 <= mx.

Lemma truthy_max_frames :
  truthy_int max_frames = true ->
  exists mx, max_frames = Some mx /\ mx <> 0.
Proof.
  unfold truthy_int. destruct max_frames as [mx|]; [|discriminate].
  intros H. exists mx. split; [reflexivity|].
  destruct (Z.eqb_spec mx 0); [discriminate|assumption].
Qed.

Lemma extract_loop_post (fuel : nat) (st : loop_state) :
  loop_inv start stop step max_frames st ->
  (Z.to_nat (stop - current_frame st) < fuel)%nat ->
  loop_post v start stop step max_frames
    (fst (extract_loop fuel v stop step max_frames st))
    (snd (extract_loop fuel v stop step max_frames st)).
Proof.
  revert st. induction fuel as [|fuel IH]; intros st I Hfuel; [lia|].
  destruct I as [Ic Icur Ib Is Iw Im].
  pose proof (ceil_div_monotone (frame_count st) (stop - start) step step_pos
                ltac:(lia)) as Hmono.
  assert (Hs0 : 0 <= saved_count st).
  { rewrite Is. apply Z.div_pos; lia. }
  assert (Hstay : forall ex, ex <> OutOfFuel -> ex <> MaxFrames ->
            (ex = ReachedEnd -> stop <= current_frame st) ->
            (ex = EndOfStream \/ ex = Raised ->
             current_frame st < stop
             /\ read_at v (current_frame st) <> Decoded) ->
            loop_post v start stop step max_frames ex st).
  { intros ex Hf Hx He Hr. constructor; unfold selected_count.
    - exact Iw.
    - lia.
    - exact Hf.
    - intros E. specialize (He E).
      assert (frame_count st = stop - start) as E' by lia.
      rewrite <- E'. exact Is.
    - intros E. contradiction.
    - intros mx Emx Hmx _. now apply Im.
    - intros E. destruct (Hr E). repeat split; try lia; assumption. }
  cbn [extract_loop].
  destruct (Z.ltb_spec (current_frame st) stop) as [Hlt|Hge].
  2:{ cbn [fst snd]. apply Hstay; try discriminate.
      - intros _. exact Hge.
      - intros [H|H]; discriminate. }
  destruct (read_at v (current_frame st)) eqn:Hread.
  2,3: cbn [fst snd]; apply Hstay; try discriminate;
       intros _; split; [exact Hlt | congruence].
  clear Hstay.
  destruct (Z.eqb_spec (frame_count st mod step) 0) as [Hm|Hm].
  - (* a selected frame *)
    destruct (ceil_div_on_multiple _ _ step_pos Ic Hm) as (E1 & E2 & E3).
    assert (Hnew : start + Z.of_nat (Z.to_nat (saved_count st)) * step
                   = current_frame st).
    { rewrite Z2Nat.id by lia. rewrite Is, E1. lia. }
    assert (Hw1 : written st ++ [current_frame st]
                  = progression start step (Z.to_nat (saved_count st + 1))).
    { replace (Z.to_nat (saved_count st + 1))
        with (S (Z.to_nat (saved_count st))) by lia.
      rewrite progression_snoc, <- Iw, Hnew. reflexivity. }
    assert (Hle1 : saved_count st + 1 <= selected_count start stop step).
    { unfold selected_count. rewrite Is, E1, <- E2.
      apply ceil_div_monotone; lia. }
    cbn [saved_count frame_count current_frame written].
    destruct (truthy_int max_frames
              && (match max_frames with Some m => m | None => 0 end
                    <=? saved_count st + 1)) eqn:Hstop.
    + (* the limit is reached *)
      apply andb_prop in Hstop. destruct Hstop as [Ht Hle].
      destruct (truthy_max_frames Ht) as (mx & Emx & Hmx).
      rewrite Emx in Hle. apply Z.leb_le in Hle.
      specialize (Im mx Emx Hmx).
      cbn [fst snd].
      constructor; cbn [saved_count written current_frame frame_count].
      * exact Hw1.
      * lia.
      * discriminate.
      * discriminate.
      * intros _. exists mx. repeat split; try assumption. lia.
      * intros mx' E' _ Hne. now contradiction Hne.
      * intros [H|H]; discriminate.
    + (* go on with the next frame *)
      apply IH; cbn [current_frame]; [|lia].
      constructor; cbn [saved_count written current_frame frame_count].
      * lia.
      * lia.
      * lia.
      * rewrite Is, E1. lia.
      * exact Hw1.
      * intros mx Emx Hmx. specialize (Im mx Emx Hmx).
        apply andb_false_iff in Hstop. destruct Hstop as [Ht|Hle].
        -- unfold truthy_int in Ht. rewrite Emx in Ht.
           destruct (Z.eqb_spec mx 0); [contradiction|discriminate].
        -- rewrite Emx in Hle. apply Z.leb_gt in Hle. lia.
  - (* a frame between two selected ones *)
    apply IH; cbn [current_frame]; [|lia].
    constructor; cbn [saved_count written current_frame frame_count].
    + lia.
    + lia.
    + lia.
    + rewrite Is. symmetry. now apply ceil_div_off_multiple.
    + exact Iw.
    + exact Im.
Qed.

End ExtractLoop.

Lemma below_selected_count (start stop step k : Z) :
  0 < step -> start < stop -> 0 <= k < selected_count start stop step ->
  start <= start + k * step < stop.
Proof.
  intros Hs Hlt Hk. unfold selected_count in Hk.
  destruct (ceil_div_bound (stop - start) step Hs ltac:(lia)) as [[_ H]|[H _]];
    [|lia].
  split; nia.
Qed.











(** An eighth of a second at 25 frames per second, where the product,
    3.125, is exact in double precision too: every third frame. *)
Example clip_10_every_third :
  frame_step_binary64 Doubles.d_0_125 (Resize.b64_of_int 25) = 3
  /\ frames_written (extract_frames no_rounding Samples.clip_10 "png"
                       (Some (1 # 8)) None 0 None)
     = [0; 3; 6; 9].
Proof. split; reflexivity. Qed.

End Mp4Facts.

Module TelemetryFacts.
Import Py Ws Telemetry.
Local Open Scope R_scope.

Lemma two_pi_pos : 0 < 2 * PI.
Proof. pose proof PI_RGT_0. lra. Qed.

(** The remainder of a division by a positive number. *)
Lemma py_fmod_range (x y : R) : 0 < y -> 0 <= py_fmod x y < y.
Proof.
  intros Hy. unfold py_fmod.
  destruct (base_Int_part (x / y)) as [Hle Hgt].
  assert (E : x = x / y * y) by (field; lra).
  split.
  - assert (IZR (Int_part (x / y)) * y <= x / y * y)
      by (apply Rmult_le_compat_r; lra).
    lra.
  - assert (x / y * y - y < IZR (Int_part (x / y)) * y).
    { replace (x / y * y - y) with ((x / y - 1) * y) by ring.
      apply Rmult_lt_compat_r; lra. }
    lra.
Qed.

Lemma cos_6_not_1 : cos 6 <> 1.
Proof.
  intros E.
  assert (S0 : sin 6 = 0).
  { pose proof (sin2_cos2 6) as H. unfold Rsqr in H. rewrite E in H. nra. }
  destruct (sin_eq_0_0 6 S0) as [k Hk].
  pose proof PI_4. pose proof PI2_3_2.
  destruct (Z_lt_le_dec k 2) as [L|G].
  - assert (IZR k <= 1) by (apply IZR_le; lia). nra.
  - destruct (Z_lt_le_dec 2 k) as [L'|G'].
    + assert (3 <= IZR k) by (apply IZR_le; lia). nra.
    + assert (k = 2%Z) by lia. subst k. lra.
Qed.

Lemma meters_per_degree_lon_pos (latitude_deg : R) :
  0 < meters_per_degree_lon latitude_deg.
Proof.
  unfold meters_per_degree_lon, METERS_PER_DEGREE_LAT.
  set (c := Rabs (cos (radians latitude_deg))).
  assert (0 < 1 / 10 ^ 12) by (apply Rdiv_lt_0_compat; [lra | apply pow_lt; lra]).
  pose proof (Rmax_l (1 / 10 ^ 12) c). nra.
Qed.

(** C8, as stated, fails in the arithmetic of the program: at the phase
    angle [2^53] the double [theta + 2 * math.pi] is [2^53 + 6], six radians
    further and not a full turn, and the positions at these two angles are
    different pairs. *)
Lemma full_turn_later_not_identical :
  PrimFloat.eqb
    (PrimFloat.add (Resize.b64_of_int (2 ^ 53)) two_pi_binary64)
    (Resize.b64_of_int (2 ^ 53 + 6)) = true
  /\ position_on_circle 0 0 1 (IZR (2 ^ 53 + 6))
     <> position_on_circle 0 0 1 (IZR (2 ^ 53)).
Proof.
  split; [vm_compute; reflexivity|].
  intros E. unfold position_on_circle in E.
  pose proof (meters_per_degree_lon_pos 0) as Hm.
  set (m := meters_per_degree_lon 0) in *.
  set (x := IZR (2 ^ 53 + 6)) in *. set (y := IZR (2 ^ 53)) in *.
  injection E as Es Ec.
  assert (Hs : sin x = sin y) by (unfold METERS_PER_DEGREE_LAT in Es; lra).
  assert (Hc : cos x = cos y).
  { apply (Rmult_eq_reg_r (/ m)).
    - unfold Rdiv in Ec. lra.
    - apply Rinv_neq_0_compat. lra. }
  apply cos_6_not_1.
  replace 6 with (x - y) by (unfold x, y; rewrite plus_IZR; ring).
  rewrite cos_minus, Hs, Hc.
  pose proof (sin2_cos2 y) as H. unfold Rsqr in H. lra.
Qed.

(** C8, amended: in exact arithmetic, with the real number pi, the position
    an orbiting track reports is the same at phase angle [angle] and one
    full turn later, whatever the centre and the radius. *)
Theorem position_on_circle_periodic
    (center_lat center_lon radius_m angle : R) :
  position_on_circle center_lat center_lon radius_m (angle + 2 * PI)
  = position_on_circle center_lat center_lon radius_m angle.
Proof.
  unfold position_on_circle.
  rewrite sin_plus, cos_plus, sin_2PI, cos_2PI.
  f_equal; f_equal; f_equal; ring.
Qed.

Section Tick.
Variable w : world.
Variable a : args.

Lemma advance_Some dt speed st c st' pos c' :
  advance a dt speed st c = Some ((st', pos), c') ->
  motion st' = motion st /\ radius_m st' = radius_m st
  /\ angle_ok st'
  /\ (motion st = Circle ->
      radius_m st <> 0
      /\ exists k : Z,
           angle_rad st'
           = angle_rad st + speed / radius_m st * dt - IZR k * (2 * PI)).
Proof.
  unfold advance, angle_ok.
  destruct (motion st) eqn:Em.
  - destruct (Req_dec_T (radius_m st) 0) as [E0|N0]; [discriminate|].
    intros [= <- _ _]. cbn.
    repeat split; auto; try apply py_fmod_range, two_pi_pos.
    eexists. unfold py_fmod. reflexivity.
  - intros [= <- _ _]. cbn. repeat split; discriminate.
Qed.

Lemma advance_total dt speed st c :
  radius_ok st -> advance a dt speed st c <> None.
Proof.
  unfold advance, radius_ok. destruct (motion st).
  - intros H. destruct (Req_dec_T (radius_m st) 0) as [E0|N0];
      [contradiction (H eq_refl)|discriminate].
  - discriminate.
Qed.

(** The speed a track moves with in the tick that starts with [c]. *)
Lemma update_drone_cases dt st c :
  let speed :=
    speed_base_mps st * (9 / 10 + (11 / 10 - 9 / 10) * rand w (n_rand c)) in
  (forall c1, advance a dt speed st c1 = None) /\ update_drone w a dt st c = None
  \/ exists st' pos c1 c2 o c',
       advance a dt speed st c1 = Some ((st', pos), c2)
       /\ update_drone w a dt st c = Some ((st', o), c')
       /\ (o = None -> exists i, rand w i < miss_rate a).
Proof.
  intros speed.
  unfold update_drone, uniform, random, gauss, time_time, bind, ret.
  fold speed.
  match goal with
  | |- context [advance a dt speed st ?c1] =>
      destruct (advance a dt speed st c1)
        as [[[st' [lat0 lon0]] c2]|] eqn:E; [right | left]
  end.
  - exists st', (lat0, lon0).
    destruct (Rlt_dec 0 (noise_level_m a));
      match goal with
      | |- context [Rlt_dec (rand w ?i) (miss_rate a)] =>
          destruct (Rlt_dec (rand w i) (miss_rate a)) as [Hm|Hm]
      end;
      do 4 eexists; (split; [exact E|]); (split; [reflexivity|]);
      solve [discriminate | intros _; eexists; exact Hm].
  - split; [|reflexivity].
    intros c1. unfold advance in *. destruct (motion st); [|discriminate].
    destruct (Req_dec_T (radius_m st) 0); [reflexivity|discriminate].
Qed.

Lemma update_all_Some dt sts c sts' objs c' :
  update_all w a dt sts c = Some ((sts', objs), c') ->
  List.length sts' = List.length sts
  /\ (List.length objs <= List.length sts)%nat
  /\ (never_below w (miss_rate a) -> List.length objs = List.length sts)
  /\ Forall angle_ok sts'
  /\ (Forall radius_ok sts -> Forall radius_ok sts').
Proof.
  revert c sts' objs c'.
  induction sts as [|st sts IH]; intros c sts' objs c'; cbn [update_all].
  - intros [= <- <- _]. repeat split; auto.
  - unfold bind at 1.
    destruct (update_drone_cases dt st c) as [[_ ->]|H]; [discriminate|].
    destruct H as (st1 & pos & c1 & c2 & o & c3 & Ea & -> & Ho).
    unfold bind at 1.
    destruct (update_all w a dt sts c3) as [[[rest objs0] c4]|] eqn:Er;
      [|discriminate].
    intros [= <- <- _].
    destruct (IH _ _ _ _ Er) as (L1 & L2 & L3 & A & R).
    destruct (advance_Some _ _ _ _ _ _ _ Ea) as (Hm & Hr & Ha & _).
    repeat split.
    + cbn [List.length]. now rewrite L1.
    + destruct o; cbn [List.length]; lia.
    + intros Hn. destruct o; cbn [List.length].
      * now rewrite (L3 Hn).
      * destruct (Ho eq_refl) as (i & Hi). now contradiction (Hn i).
    + now constructor.
    + intros Hall. inversion Hall as [|? ? Hst Hsts]; subst.
      constructor; [|now apply R].
      unfold radius_ok in *. now rewrite Hm, Hr.
Qed.

Lemma update_all_advanced dt sts c sts' objs c' :
  update_all w a dt sts c = Some ((sts', objs), c') ->
  Forall2 (advanced w dt) sts sts'.
Proof.
  revert c sts' objs c'.
  induction sts as [|st sts IH]; intros c sts' objs c'; cbn [update_all].
  - intros [= <- _ _]. constructor.
  - unfold bind at 1.
    destruct (update_drone_cases dt st c) as [[_ ->]|H]; [discriminate|].
    destruct H as (st1 & pos & c1 & c2 & o & c3 & Ea & -> & _).
    unfold bind at 1.
    destruct (update_all w a dt sts c3) as [[[rest objs0] c4]|] eqn:Er;
      [|discriminate].
    intros [= <- _ _]. constructor; [|now apply (IH _ _ _ _ Er)].
    destruct (advance_Some _ _ _ _ _ _ _ Ea) as (Hm & _ & Ha & Hc).
    split; [exact Hm|]. intros Hcirc.
    destruct (Hc Hcirc) as (_ & k & Ek).
    exists (n_rand c), k. split; [exact Ek|]. apply Ha. congruence.
Qed.

Lemma update_all_total dt sts c :
  Forall radius_ok sts -> update_all w a dt sts c <> None.
Proof.
  revert c. induction sts as [|st sts IH]; intros c Hall; cbn [update_all].
  - discriminate.
  - inversion Hall as [|? ? Hst Hsts]; subst.
    unfold bind at 1.
    destruct (update_drone_cases dt st c) as [[Hn _]|H].
    + contradiction (advance_total dt _ st c Hst (Hn c)).
    + destruct H as (st1 & pos & c1 & c2 & o & c3 & _ & -> & _).
      unfold bind at 1.
      specialize (IH c3 Hsts).
      destruct (update_all w a dt sts c3) as [[[rest objs0] c4]|];
        [discriminate|contradiction].
Qed.

Lemma false_positive_Some c :
  exists fp c', false_positive w a c = Some (fp, c')
    /\ (List.length fp <= 1)%nat
    /\ (never_below w (false_positive_rate a) -> fp = []).
Proof.
  unfold false_positive, uniform, random, uuid4_hex, bind, ret.
  destruct (Rlt_dec (rand w (n_rand c)) (false_positive_rate a)) as [Hf|Hf].
  - do 2 eexists. split; [reflexivity|]. split; [cbn; lia|].
    intros Hn. now contradiction (Hn (n_rand c)).
  - do 2 eexists. split; [reflexivity|]. split; [cbn; lia|]. reflexivity.
Qed.

End Tick.

Section Frames.
Variable w : world.
Variable a : args.

Lemma build_frame_Some fid dt sts c sts' msg c' :
  build_frame w a fid dt sts c = Some ((sts', msg), c') ->
  fram_id msg = str fid
  /\ List.length sts' = List.length sts
  /\ (List.length (objects msg) <= List.length sts + 1)%nat
  /\ (never_below w (miss_rate a) ->
      never_below w (false_positive_rate a) ->
      List.length (objects msg) = List.length sts)
  /\ Forall angle_ok sts'
  /\ (Forall radius_ok sts -> Forall radius_ok sts').
Proof.
  unfold build_frame, now_isoformat. unfold bind at 1. unfold bind at 1.
  match goal with
  | |- context [update_all w a dt sts ?c1] =>
      destruct (update_all w a dt sts c1) as [[[sts1 objs] c2]|] eqn:Eu;
        [|discriminate]
  end.
  unfold bind.
  destruct (false_positive_Some w a c2) as (fp & c3 & -> & Hfp & Hnone).
  unfold ret. intros [= <- <- _].
  destruct (update_all_Some w a _ _ _ _ _ _ Eu) as (L1 & L2 & L3 & A & R).
  cbn [fram_id objects]. rewrite length_app.
  repeat split; auto; try lia.
  intros Hm Hf. rewrite (Hnone Hf), (L3 Hm). cbn. lia.
Qed.

Lemma build_frame_advanced fid dt sts c sts' msg c' :
  build_frame w a fid dt sts c = Some ((sts', msg), c') ->
  Forall2 (advanced w dt) sts sts'.
Proof.
  unfold build_frame, now_isoformat. unfold bind at 1. unfold bind at 1.
  match goal with
  | |- context [update_all w a dt sts ?c1] =>
      destruct (update_all w a dt sts c1) as [[[sts1 objs] c2]|] eqn:Eu;
        [|discriminate]
  end.
  unfold bind.
  destruct (false_positive_Some w a c2) as (fp & c3 & -> & _).
  unfold ret. intros [= <- _ _].
  exact (update_all_advanced w a _ _ _ _ _ _ Eu).
Qed.

Lemma build_frame_total fid dt sts c :
  Forall radius_ok sts -> build_frame w a fid dt sts c <> None.
Proof.
  intros Hall. unfold build_frame, now_isoformat.
  unfold bind at 1. unfold bind at 1.
  match goal with
  | |- context [update_all w a dt sts ?c1] =>
      pose proof (update_all_total w a dt sts c1 Hall) as Hu;
        destruct (update_all w a dt sts c1) as [[[sts1 objs] c2]|];
        [|contradiction]
  end.
  unfold bind.
  destruct (false_positive_Some w a c2) as (fp & c3 & -> & _).
  discriminate.
Qed.

End Frames.

Section Run.
Variable w : world.
Variable a : args.
Variable ws : transport.

(** The state a tick hands to the next one. *)
Lemma tick_quiet s sts' msg c' :
  keep_going (updates_remaining s) = true ->
  build_frame w a (frame_id s) (interval_s a) (states s) (calls s)
  = Some ((sts', msg), c') ->
  quiet_tick a (tick_events ws (ticks s)) ->
  tick w a ws s
  = Continue {| states := sts'; frame_id := (frame_id s + 1)%Z;
                updates_remaining := count_down (updates_remaining s);
                calls := c'; ticks := S (ticks s);
                sent := sent s ++ [msg] |}.
Proof.
  intros Hk Hb (Hs & Hr & Hz). unfold tick. rewrite Hk, Hb, Hs, Hz.
  destruct (show_responses a); [rewrite (Hr eq_refl)|]; reflexivity.
Qed.

Lemma tick_cases s :
  (keep_going (updates_remaining s) = false
   /\ tick w a ws s = Exit Finished s)
  \/ (keep_going (updates_remaining s) = true
      /\ build_frame w a (frame_id s) (interval_s a) (states s) (calls s) = None
      /\ tick w a ws s = Exit Failed s)
  \/ (keep_going (updates_remaining s) = true
      /\ exists sts' msg c',
           build_frame w a (frame_id s) (interval_s a) (states s) (calls s)
           = Some ((sts', msg), c')
           /\ ((exists e s', tick w a ws s = Exit e s'
                             /\ e <> Finished /\ e <> OutOfFuel
                             /\ states s' = sts'
                             /\ (sent s' = sent s \/ sent s' = sent s ++ [msg]))
               \/ tick w a ws s
                  = Continue {| states := sts'; frame_id := (frame_id s + 1)%Z;
                                updates_remaining :=
                                  count_down (updates_remaining s);
                                calls := c'; ticks := S (ticks s);
                                sent := sent s ++ [msg] |})).
Proof.
  unfold tick.
  destruct (keep_going (updates_remaining s)); [|left; split; reflexivity].
  right.
  destruct (build_frame w a (frame_id s) (interval_s a) (states s) (calls s))
    as [[[sts' msg] c']|]; [right|left; repeat split; reflexivity].
  split; [reflexivity|]. exists sts', msg, c'. split; [reflexivity|].
  assert (Hexn : forall e, exit_of_exn e <> Finished /\ exit_of_exn e <> OutOfFuel)
    by (intros []; split; discriminate).
  destruct (send_raises (tick_events ws (ticks s))) as [e|].
  { left. do 2 eexists. split; [reflexivity|].
    destruct (Hexn e). cbn [states sent]. auto. }
  destruct (if show_responses a
            then recv_escapes (response (tick_events ws (ticks s)))
            else None) as [e|].
  { left. do 2 eexists. split; [reflexivity|].
    destruct (Hexn e). cbn [states sent]. auto. }
  destruct (sleep_raises (tick_events ws (ticks s))) as [e|].
  { left. do 2 eexists. split; [reflexivity|].
    destruct (Hexn e). cbn [states sent]. auto. }
  right. reflexivity.
Qed.

Lemma trace_ok_snoc n msgs msg :
  trace_ok w a n msgs -> frame_ok w a n (List.length msgs) msg ->
  trace_ok w a n (msgs ++ [msg]).
Proof.
  intros Ht Hm i m Hi.
  destruct (Nat.lt_ge_cases i (List.length msgs)) as [Hlt|Hge].
  - rewrite nth_error_app1 in Hi by assumption. now apply Ht.
  - rewrite nth_error_app2 in Hi by assumption.
    destruct (i - List.length msgs)%nat as [|k] eqn:Ek.
    + cbn in Hi. injection Hi as <-.
      replace i with (List.length msgs) by lia. exact Hm.
    + cbn in Hi. now destruct k.
Qed.

(** One tick keeps the counters in step with the messages sent. *)
Lemma tick_counts n s :
  counts_inv w a n s ->
  match tick w a ws s with
  | Continue s' => counts_inv w a n s'
  | Exit _ s' => List.length (states s') = n /\ trace_ok w a n (sent s')
  end.
Proof.
  intros [Hn Hf Ht Htr].
  destruct (tick_cases s) as [(_ & ->)|[(_ & _ & ->)|(_ & H)]]; auto.
  destruct H as (sts' & msg & c' & Hb & H).
  destruct (build_frame_Some w a _ _ _ _ _ _ _ Hb) as (Hid & Hl & Hle & Heq & _).
  assert (Hmsg : frame_ok w a n (List.length (sent s)) msg).
  { unfold frame_ok. rewrite Hid, Hf, <- Hn. auto. }
  destruct H as [(e & s' & -> & _ & _ & Hs' & [Hsent|Hsent])| ->].
  - rewrite Hs', Hsent. split; [congruence|assumption].
  - rewrite Hs', Hsent. split; [congruence|now apply trace_ok_snoc].
  - constructor; cbn [states frame_id ticks sent].
    + congruence.
    + rewrite Hf, length_app. cbn [List.length]. lia.
    + rewrite Ht, length_app. cbn [List.length]. lia.
    + now apply trace_ok_snoc.
Qed.

Lemma run_counts n fuel s :
  counts_inv w a n s ->
  List.length (states (snd (run w a ws fuel s))) = n
  /\ trace_ok w a n (sent (snd (run w a ws fuel s))).
Proof.
  revert s. induction fuel as [|fuel IH]; intros s Hinv; cbn [run].
  - destruct Hinv. cbn [snd]. auto.
  - pose proof (tick_counts n s Hinv) as Ht.
    destruct (tick w a ws s) as [s'|e s']; [now apply IH|exact Ht].
Qed.

End Run.

(** [str] never prints two integers alike. *)
Lemma str_injective (n m : Z) : str n = str m -> n = m.
Proof.
  unfold str. intros E.
  assert (P : forall z, NilZero.int_of_string (NilZero.string_of_int (Z.to_int z))
                        = Some (Z.to_int z)).
  { intros z. apply NilZero.isi; destruct z; cbn; try discriminate.
    - intros [= H]. now apply (DecimalPos.Unsigned.to_uint_nonnil p).
    - intros [= H]. now apply (DecimalPos.Unsigned.to_uint_nonnil p). }
  apply DecimalZ.to_int_inj.
  pose proof (P n) as Hn. rewrite E, P in Hn. now injection Hn.
Qed.

Lemma map_by_index {A B} (f : A -> B) (g : nat -> B) (l : list A) (k : nat) :
  (forall i x, nth_error l i = Some x -> f x = g (k + i)%nat) ->
  map f l = map g (seq k (List.length l)).
Proof.
  revert k. induction l as [|x l IH]; intros k H; cbn; [reflexivity|].
  f_equal.
  - rewrite (H O x eq_refl). f_equal. lia.
  - apply IH. intros i y Hi. rewrite (H (S i) y Hi). f_equal. lia.
Qed.

Section Start.
Variable w : world.
Variable a : args.

Lemma init_one_Some i c :
  exists st c', init_one w a i c = Some (st, c')
    /\ (unit_draws w -> angle_ok st)
    /\ (0 < a_radius_m a -> unit_draws w -> radius_ok st).
Proof.
  unfold init_one, uniform, random, bind, ret. cbn [n_rand].
  pose proof two_pi_pos as Hpi.
  destruct (Rlt_dec (rand w (n_rand c)) (6 / 10)).
  - do 2 eexists. split; [reflexivity|].
    unfold angle_ok, radius_ok; cbn [motion angle_rad radius_m]. split.
    + intros Hu _.
      match goal with |- context [rand w ?k] => specialize (Hu k) end.
      split; nra.
    + intros Hr Hu _.
      match goal with
      | |- context [a_radius_m a * (7 / 10) + _ * rand w ?k] =>
          specialize (Hu k)
      end.
      nra.
  - do 2 eexists. split; [reflexivity|].
    unfold angle_ok, radius_ok; cbn [motion]. split; intros; discriminate.
Qed.

Lemma init_from_Some n i c :
  exists sts c', init_from w a n i c = Some (sts, c')
    /\ List.length sts = n
    /\ (unit_draws w -> Forall angle_ok sts)
    /\ (0 < a_radius_m a -> unit_draws w -> Forall radius_ok sts).
Proof.
  revert i c. induction n as [|n IH]; intros i c; cbn [init_from].
  - do 2 eexists. split; [reflexivity|]. repeat split; constructor.
  - destruct (init_one_Some i c) as (st & c1 & E1 & A1 & R1).
    destruct (IH (i + 1)%Z c1) as (sts & c2 & E2 & L & A2 & R2).
    exists (st :: sts), c2. unfold bind. rewrite E1, E2.
    split; [reflexivity|]. split; [cbn; lia|].
    split; intros; constructor; auto.
Qed.

Lemma validate_args_radius : validate_args a = true -> 0 < a_radius_m a.
Proof.
  unfold validate_args.
  destruct (Rle_dec (interval_s a) 0); [discriminate|].
  destruct (Rle_dec (a_radius_m a) 0); [discriminate|]. lra.
Qed.

Lemma validate_args_num_drones :
  validate_args a = true -> (1 <= num_drones a)%Z.
Proof.
  unfold validate_args.
  destruct (Rle_dec (interval_s a) 0); [discriminate|].
  destruct (Rle_dec (a_radius_m a) 0); [discriminate|].
  destruct (Z.ltb_spec (num_drones a) 1); [discriminate|]. lia.
Qed.

Lemma initial_state_facts :
  counts_inv w a (Z.to_nat (num_drones a)) (initial_state w a)
  /\ updates_remaining (initial_state w a)
     = (if (0 <? updates a)%Z then Some (updates a) else None)
  /\ sent (initial_state w a) = []
  /\ ticks (initial_state w a) = O
  /\ (unit_draws w -> Forall angle_ok (states (initial_state w a)))
  /\ (0 < a_radius_m a -> unit_draws w ->
      Forall radius_ok (states (initial_state w a))).
Proof.
  unfold initial_state, init_frames_states.
  destruct (init_from_Some (Z.to_nat (num_drones a)) 0%Z no_calls)
    as (sts & c & -> & L & A & R).
  cbn [states updates_remaining sent ticks].
  split; [|auto].
  constructor; cbn [states frame_id ticks sent]; auto.
  intros i msg Hi. now destruct i.
Qed.

End Start.

Section Claims.
Variable w : world.
Variable a : args.
Variable ws : transport.

Lemma frames_loop_counts fuel :
  trace_ok w a (Z.to_nat (num_drones a)) (sent (snd (frames_loop w a ws fuel))).
Proof.
  destruct (initial_state_facts w a) as (Hinv & _).
  unfold frames_loop. destruct (recv_escapes (welcome ws)).
  - cbn [snd]. now destruct Hinv.
  - now apply run_counts.
Qed.

(** How a run with [r] updates left and [r] quiet ticks ahead ends. *)
Lemma run_counts_down (r : nat) : forall fuel s,
  (r < fuel)%nat ->
  updates_remaining s = Some (Z.of_nat r) ->
  Forall radius_ok (states s) ->
  (forall i, (ticks s <= i < ticks s + r)%nat ->
             quiet_tick a (tick_events ws i)) ->
  fst (run w a ws fuel s) = Finished
  /\ List.length (sent (snd (run w a ws fuel s)))
     = (List.length (sent s) + r)%nat.
Proof.
  induction r as [|r IH]; intros fuel s Hfuel Hur Hrad Hq;
    (destruct fuel as [|fuel]; [lia|]); cbn [run].
  - unfold tick. rewrite Hur. cbn. split; [reflexivity|lia].
  - assert (Hk : keep_going (updates_remaining s) = true).
    { rewrite Hur. cbn [keep_going]. apply Z.ltb_lt. lia. }
    pose proof (build_frame_total w a (frame_id s) (interval_s a)
                  (states s) (calls s) Hrad) as Hb.
    destruct (build_frame w a (frame_id s) (interval_s a) (states s) (calls s))
      as [[[sts' msg] c']|] eqn:Eb; [|contradiction].
    rewrite (tick_quiet w a ws s sts' msg c' Hk Eb (Hq (ticks s) ltac:(lia))).
    destruct (build_frame_Some w a _ _ _ _ _ _ _ Eb) as (_ & _ & _ & _ & _ & R).
    destruct (IH fuel
                {| states := sts'; frame_id := (frame_id s + 1)%Z;
                   updates_remaining := count_down (updates_remaining s);
                   calls := c'; ticks := S (ticks s);
                   sent := sent s ++ [msg] |}) as [E L].
    + lia.
    + cbn [updates_remaining]. rewrite Hur. cbn [count_down].
      replace (Z.of_nat (S r) =? 0)%Z with false
        by (symmetry; apply Z.eqb_neq; lia).
      f_equal. lia.
    + cbn [states]. now apply R.
    + cbn [ticks]. intros i Hi. apply Hq. lia.
    + split; [exact E|]. rewrite L. cbn [sent]. rewrite length_app. cbn. lia.
Qed.

Lemma decoded_quietly_escapes (r : recv_result) :
  decoded_quietly r -> recv_escapes r = None.
Proof. destruct r as [|[| |]|e]; cbn; intros H; now try destruct H. Qed.

Lemma frames_loop_finishes (N fuel : nat) :
  validate_args a = true ->
  updates a = Z.of_nat N -> (0 < N)%nat ->
  unit_draws w ->
  uninterrupted a ws N ->
  (N < fuel)%nat ->
  fst (frames_loop w a ws fuel) = Finished
  /\ List.length (sent (snd (frames_loop w a ws fuel))) = N.
Proof.
  intros Hv Hup HN Hu [Hw Hq] Hfuel.
  destruct (initial_state_facts w a) as (_ & Hur & Hs & Ht & _ & Hr).
  unfold frames_loop. rewrite Hw.
  destruct (run_counts_down N fuel (initial_state w a)) as [E L]; auto.
  - rewrite Hur, Hup.
    replace (0 <? Z.of_nat N)%Z with true by (symmetry; apply Z.ltb_lt; lia).
    reflexivity.
  - apply Hr; auto. now apply validate_args_radius.
  - rewrite Ht. intros i Hi. apply Hq. lia.
  - split; [exact E|]. rewrite L, Hs. reflexivity.
Qed.

(** C1, amended: for every update count [N > 0] and validated arguments
    (the arithmetic read over the real numbers), a run in which no await
    raises and what is received decodes without an exception other than
    [JSONDecodeError] (neither the welcome nor, with [--show-responses], a
    reply is a JSON value other than an object) sends exactly [N] frame
    messages, one per tick, and then leaves the loop on its own; the
    program returns 0. *)
Theorem uninterrupted_run_sends_N_frames
    (cl : command_line options) (N fuel : nat) :
  parse_args cl = Namespace a ->
  validate_args a = true ->
  updates a = Z.of_nat N -> (0 < N)%nat ->
  unit_draws w ->
  decoded_quietly (welcome ws) ->
  (forall i, (i < N)%nat ->
     send_raises (tick_events ws i) = None
     /\ (show_responses a = true ->
         decoded_quietly (response (tick_events ws i)))
     /\ sleep_raises (tick_events ws i) = None) ->
  (N < fuel)%nat ->
  fst (frames_loop w a ws fuel) = Finished
  /\ List.length (sent (snd (frames_loop w a ws fuel))) = N
  /\ main fuel w cl (Connected ws) = Returns 0%Z.
Proof.
  intros Hcl Hv Hup HN Hu Hwel Hticks Hfuel.
  assert (Hq : uninterrupted a ws N).
  { split; [now apply decoded_quietly_escapes|].
    intros i Hi. destruct (Hticks i Hi) as (H1 & H2 & H3).
    split; [exact H1|]. split; [|exact H3].
    intros Hs. now apply decoded_quietly_escapes, H2. }
  destruct (frames_loop_finishes N fuel Hv Hup HN Hu Hq Hfuel) as [E L].
  repeat split; auto.
  unfold main, main_async. rewrite Hcl, Hv. cbn [negb]. now rewrite E.
Qed.

(** C2: every frame sent lists between 0 and [num_drones + 1] objects; with
    miss rate 0 and false-positive rate 0 it lists exactly [num_drones]. *)
Theorem frame_object_count (fuel : nat) :
  (0 <= num_drones a)%Z ->
  let msgs := sent (snd (frames_loop w a ws fuel)) in
  Forall (fun msg =>
            (0 <= Z.of_nat (List.length (objects msg)) <= num_drones a + 1)%Z)
         msgs
  /\ (miss_rate a = 0 -> false_positive_rate a = 0 -> unit_draws w ->
      Forall (fun msg => Z.of_nat (List.length (objects msg)) = num_drones a)
             msgs).
Proof.
  intros Hn msgs. pose proof (frames_loop_counts fuel) as Ht. fold msgs in Ht.
  split.
  - apply Forall_forall. intros msg Hin.
    apply In_nth_error in Hin. destruct Hin as (i & Hi).
    destruct (Ht i msg Hi) as (_ & Hle & _). lia.
  - intros Hm Hf Hu. apply Forall_forall. intros msg Hin.
    apply In_nth_error in Hin. destruct Hin as (i & Hi).
    destruct (Ht i msg Hi) as (_ & _ & Heq).
    rewrite Heq; [lia| |].
    + intros k Hk. rewrite Hm in Hk. destruct (Hu k). lra.
    + intros k Hk. rewrite Hf in Hk. destruct (Hu k). lra.
Qed.

(** C10: the [k]-th frame sent in a run carries ["fram_id"] equal to the
    decimal string of [k - 1]: the identifiers are [str(0)], [str(1)], ...
    in the order of sending, hence pairwise different. *)
Theorem frame_ids_count_from_zero (fuel : nat) :
  let msgs := sent (snd (frames_loop w a ws fuel)) in
  map fram_id msgs
  = map (fun i => str (Z.of_nat i)) (seq 0 (List.length msgs))
  /\ NoDup (map fram_id msgs).
Proof.
  intros msgs. pose proof (frames_loop_counts fuel) as Ht. fold msgs in Ht.
  assert (E : map fram_id msgs
              = map (fun i => str (Z.of_nat i)) (seq 0 (List.length msgs))).
  { apply map_by_index. intros i msg Hi. now destruct (Ht i msg Hi). }
  split; [exact E|]. rewrite E.
  apply Finite.Injective_map_NoDup; [|apply seq_NoDup].
  intros i j Hij. apply str_injective in Hij. lia.
Qed.

(** C3, amended: in exact real arithmetic a tick turns the phase angle of
    an orbiting track into the old angle plus (current speed / radius) x
    tick interval, less the whole number of turns that brings it into
    [0, 2 pi); every tick of the loop does this to every track, with the
    tick interval of the command line; and in every state the loop reaches
    every orbiting track has its phase angle in [0, 2 pi). *)
Theorem orbit_phase_within_one_turn :
  unit_draws w ->
  (forall dt st c,
     motion st = Circle -> radius_m st <> 0 ->
     let current_speed_mps :=
       speed_base_mps st * (9 / 10 + (11 / 10 - 9 / 10) * rand w (n_rand c)) in
     exists st' o c' (k : Z),
       update_drone w a dt st c = Some ((st', o), c')
       /\ angle_rad st'
          = angle_rad st + current_speed_mps / radius_m st * dt
            - IZR k * (2 * PI)
       /\ 0 <= angle_rad st' < 2 * PI)
  /\ (forall s s', tick w a ws s = Continue s' ->
                   Forall2 (advanced w (interval_s a)) (states s) (states s'))
  /\ (forall s, reachable w a ws s -> Forall angle_ok (states s)).
Proof.
  intros Hu. split; [|split].
  - intros dt st c Hm Hr speed.
    destruct (update_drone_cases w a dt st c) as [[Hn _]|H].
    + contradiction (advance_total a dt _ st c (fun _ => Hr) (Hn c)).
    + destruct H as (st' & pos & c1 & c2 & o & c' & Ea & Eu & _).
      destruct (advance_Some a _ _ _ _ _ _ _ Ea) as (Hm' & _ & Ha & Hc).
      destruct (Hc Hm) as (_ & k & Ek).
      exists st', o, c', k. split; [exact Eu|].
      split; [exact Ek|]. apply Ha. congruence.
  - intros s s' Ht.
    destruct (tick_cases w a ws s)
      as [(_ & E)|[(_ & _ & E)|(_ & sts' & msg & c' & Eb & H)]];
      try congruence.
    destruct H as [(e & s1 & E & _)|E]; [congruence|].
    rewrite E in Ht. injection Ht as <-. cbn [states].
    exact (build_frame_advanced w a _ _ _ _ _ _ _ Eb).
  - intros s Hs. induction Hs as [|s s' Hs IH Ht|s e s' Hs IH Ht].
    + now apply initial_state_facts.
    + destruct (tick_cases w a ws s)
        as [(_ & E)|[(_ & _ & E)|(_ & sts' & msg & c' & Eb & H)]];
        try congruence.
      destruct (build_frame_Some w a _ _ _ _ _ _ _ Eb)
        as (_ & _ & _ & _ & A & _).
      destruct H as [(e & s1 & E & _)|E]; [congruence|].
      rewrite E in Ht. injection Ht as <-. exact A.
    + destruct (tick_cases w a ws s)
        as [(_ & E)|[(_ & _ & E)|(_ & sts' & msg & c' & Eb & H)]].
      * rewrite E in Ht. now injection Ht as _ <-.
      * rewrite E in Ht. now injection Ht as _ <-.
      * destruct (build_frame_Some w a _ _ _ _ _ _ _ Eb)
          as (_ & _ & _ & _ & A & _).
        destruct H as [(e1 & s1 & E & _ & _ & Hst & _)|E]; [|congruence].
        rewrite E in Ht. injection Ht as _ <-. now rewrite Hst.
Qed.

End Claims.

(** The scenario of the specification, for the theorems above. *)

Lemma still_world_unit_draws : unit_draws Samples.still_world.
Proof. intros i. cbn. lra. Qed.

Lemma two_drones_args_valid :
  validate_args Samples.two_drones_five_updates = true.
Proof.
  unfold validate_args, Samples.two_drones_five_updates.
  cbn [interval_s a_radius_m num_drones speed_range_kt miss_rate
       false_positive_rate fst snd].
  repeat match goal with
         | |- context [Rle_dec ?x ?y] => destruct (Rle_dec x y); try lra
         | |- context [Rlt_dec ?x ?y] => destruct (Rlt_dec x y); try lra
         end.
  reflexivity.
Qed.

Lemma two_drones_command_parses :
  parse_args Samples.two_drones_five_command
  = Namespace Samples.two_drones_five_updates.
Proof. reflexivity. Qed.

Lemma two_drones_continuous_command_parses :
  parse_args Samples.two_drones_continuous_command
  = Namespace Samples.two_drones_continuous.
Proof. reflexivity. Qed.

Lemma calm_socket_uninterrupted (n : nat) :
  uninterrupted Samples.two_drones_five_updates Samples.calm_socket n.
Proof.
  split; [reflexivity|]. intros i _. repeat split; try discriminate.
Qed.

(** C1, as stated, fails: on a server that greets with a JSON list and
    is silent afterwards, nothing interrupts the run and the connection
    stays open, yet [.get] on the list raises, [except Exception] ends the
    run, and of the five frames asked for none is sent; the program
    returns 1. *)
Lemma json_list_welcome_sends_nothing :
  let ws := Samples.list_greeting_socket in
  let r := frames_loop Samples.still_world Samples.two_drones_five_updates
             ws 6 in
  welcome ws = Received JsonNotObject
  /\ (forall i, send_raises (tick_events ws i) = None
                /\ response (tick_events ws i) = TimedOut
                /\ sleep_raises (tick_events ws i) = None)
  /\ parse_args Samples.two_drones_five_command
     = Namespace Samples.two_drones_five_updates
  /\ validate_args Samples.two_drones_five_updates = true
  /\ updates Samples.two_drones_five_updates = 5%Z
  /\ fst r = Failed
  /\ sent (snd r) = []
  /\ main 6 Samples.still_world Samples.two_drones_five_command
       (Connected ws) = Returns 1%Z.
Proof.
  cbv zeta.
  assert (E : frames_loop Samples.still_world Samples.two_drones_five_updates
                Samples.list_greeting_socket 6
              = (Failed, initial_state Samples.still_world
                           Samples.two_drones_five_updates))
    by reflexivity.
  rewrite E. cbn [fst snd].
  destruct (initial_state_facts Samples.still_world
              Samples.two_drones_five_updates) as (_ & _ & Hs & _).
  repeat split; auto.
  - exact two_drones_args_valid.
  - unfold main. rewrite two_drones_command_parses, two_drones_args_valid.
    cbn [negb main_async]. rewrite E. reflexivity.
Qed.

Lemma tiny_radius_args_valid : validate_args Samples.tiny_radius_args = true.
Proof.
  unfold validate_args, Samples.tiny_radius_args.
  cbn [interval_s a_radius_m num_drones speed_range_kt miss_rate
       false_positive_rate fst snd].
  assert (0 < 2024 / 2 ^ 1074)
    by (apply Rdiv_lt_0_compat; [lra | apply pow_lt; lra]).
  repeat match goal with
         | |- context [Rle_dec ?x ?y] => destruct (Rle_dec x y); try lra
         | |- context [Rlt_dec ?x ?y] => destruct (Rlt_dec x y); try lra
         end.
  reflexivity.
Qed.

(** C3, as stated, fails in the arithmetic of the program: with
    [--radius-m 1e-320], which [validate_args] accepts, and every draw of
    [random.random()] equal to 0.0, the radius of an orbiting track is a
    positive subnormal double, speed / radius overflows to infinity and the
    phase angle after the first tick is NaN, which lies in no interval. *)
Lemma tiny_radius_phase_is_nan :
  let radius_m := Doubles.d_1e_320 in
  let u := PrimFloat.zero in
  let radius :=
    uniform_binary64 (PrimFloat.mul radius_m Doubles.d_0_7)
      (PrimFloat.mul radius_m Doubles.d_1_3) u in
  let speed_base :=
    uniform_binary64
      (PrimFloat.mul (Resize.b64_of_int 6) Doubles.d_0_514444)
      (PrimFloat.mul (Resize.b64_of_int 24) Doubles.d_0_514444) u in
  let current_speed_mps :=
    PrimFloat.mul speed_base (uniform_binary64 Doubles.d_0_9 Doubles.d_1_1 u) in
  let angle := uniform_binary64 PrimFloat.zero two_pi_binary64 u in
  validate_args Samples.tiny_radius_args = true
  /\ a_radius_m Samples.tiny_radius_args = 2024 / 2 ^ 1074
  /\ (Resize.b64_to_Q radius_m == 2024 # (2 ^ 1074))%Q
  /\ PrimFloat.ltb PrimFloat.zero radius = true
  /\ exists phase,
       advance_angle_binary64 angle current_speed_mps radius Doubles.d_0_5
       = Some phase
       /\ PrimFloat.is_nan phase = true
       /\ (PrimFloat.leb PrimFloat.zero phase
           && PrimFloat.ltb phase two_pi_binary64)%bool = false.
Proof.
  cbv zeta. split; [exact tiny_radius_args_valid|].
  split; [reflexivity|]. split; [vm_compute; reflexivity|].
  split; [vm_compute; reflexivity|].
  eexists. split; [vm_compute; reflexivity|].
  split; vm_compute; reflexivity.
Qed.

Lemma uninterrupted_run_sends_N_frames_example :
  fst (frames_loop Samples.still_world Samples.two_drones_five_updates
         Samples.calm_socket 6) = Finished
  /\ List.length
       (sent (snd (frames_loop Samples.still_world
                     Samples.two_drones_five_updates Samples.calm_socket 6)))
     = 5%nat
  /\ main 6 Samples.still_world Samples.two_drones_five_command
       (Connected Samples.calm_socket) = Returns 0%Z.
Proof.
  apply (uninterrupted_run_sends_N_frames Samples.still_world
           Samples.two_drones_five_updates Samples.calm_socket
           Samples.two_drones_five_command 5 6).
  - exact two_drones_command_parses.
  - exact two_drones_args_valid.
  - reflexivity.
  - lia.
  - exact still_world_unit_draws.
  - exact I.
  - intros i _. repeat split.
  - lia.
Defined.

Lemma frame_object_count_example :
  Forall (fun msg => (0 <= Z.of_nat (List.length (objects msg)) <= 2 + 1)%Z)
         (sent (snd (frames_loop Samples.still_world
                       Samples.two_drones_five_updates Samples.calm_socket 6)))
  /\ (miss_rate Samples.two_drones_five_updates = 0 ->
      false_positive_rate Samples.two_drones_five_updates = 0 ->
      unit_draws Samples.still_world ->
      Forall (fun msg => Z.of_nat (List.length (objects msg)) = 2%Z)
             (sent (snd (frames_loop Samples.still_world
                           Samples.two_drones_five_updates
                           Samples.calm_socket 6)))).
Proof.
  apply (frame_object_count Samples.still_world
           Samples.two_drones_five_updates Samples.calm_socket 6).
  cbn. lia.
Defined.

(** The end-to-end scenario of the specification: five messages, each with
    exactly two objects, numbered "0" to "4". *)
Example two_drones_five_frames :
  let msgs := sent (snd (frames_loop Samples.still_world
                           Samples.two_drones_five_updates
                           Samples.calm_socket 6)) in
  List.length msgs = 5%nat
  /\ Forall (fun msg => List.length (objects msg) = 2%nat) msgs
  /\ map fram_id msgs = ["0"; "1"; "2"; "3"; "4"]%string.
Proof.
  intros msgs.
  destruct (frames_loop_finishes Samples.still_world
              Samples.two_drones_five_updates Samples.calm_socket 5 6
              two_drones_args_valid eq_refl ltac:(lia)
              still_world_unit_draws (calm_socket_uninterrupted 5)
              ltac:(lia)) as (_ & L).
  pose proof (frames_loop_counts Samples.still_world
                Samples.two_drones_five_updates Samples.calm_socket 6) as Ht.
  fold msgs in L, Ht.
  assert (Hnever : never_below Samples.still_world 0).
  { intros i. cbn. lra. }
  repeat split.
  - exact L.
  - apply Forall_forall. intros msg Hin.
    apply In_nth_error in Hin. destruct Hin as (i & Hi).
    destruct (Ht i msg Hi) as (_ & _ & Heq). now apply Heq.
  - rewrite (map_by_index fram_id (fun i => str (Z.of_nat i)) msgs 0).
    + rewrite L. reflexivity.
    + intros i msg Hi. now destruct (Ht i msg Hi).
Qed.

Lemma orbit_phase_within_one_turn_example :
  (forall dt st c,
     motion st = Circle -> radius_m st <> 0 ->
     exists st' o c' (k : Z),
       update_drone Samples.still_world Samples.two_drones_five_updates
         dt st c = Some ((st', o), c')
       /\ angle_rad st'
          = angle_rad st
            + speed_base_mps st
              * (9 / 10 + (11 / 10 - 9 / 10)
                          * rand Samples.still_world (n_rand c))
              / radius_m st * dt
            - IZR k * (2 * PI)
       /\ 0 <= angle_rad st' < 2 * PI)
  /\ (forall s s',
        tick Samples.still_world Samples.two_drones_five_updates
          Samples.calm_socket s = Continue s' ->
        Forall2 (advanced Samples.still_world
                   (interval_s Samples.two_drones_five_updates))
                (states s) (states s'))
  /\ (forall s, reachable Samples.still_world Samples.two_drones_five_updates
                  Samples.calm_socket s ->
                Forall angle_ok (states s)).
Proof.
  apply (orbit_phase_within_one_turn Samples.still_world
           Samples.two_drones_five_updates Samples.calm_socket).
  exact still_world_unit_draws.
Defined.

(** An orbiting track a quarter turn in, advanced by 20 pi seconds at
    10 m/s on a 100 m circle, is a quarter turn in again. *)
Example orbiting_track_full_turn :
  py_fmod (angle_rad Samples.orbiting_track
           + 10 / radius_m Samples.orbiting_track * (20 * PI)) (2 * PI)
  = PI / 2.
Proof.
  cbn [Samples.orbiting_track angle_rad radius_m]. unfold py_fmod.
  pose proof PI_RGT_0 as Hpi.
  replace ((PI / 2 + 10 / 100 * (20 * PI)) / (2 * PI)) with (1 + 1 / 4)
    by (field; lra).
  replace (Int_part (1 + 1 / 4)) with 1%Z; [lra|].
  apply Int_part_spec. split; lra.
Qed.

End TelemetryFacts.

Module BatchFacts.
Import Py.
Local Open Scope Z_scope.

(** The resizer's loop visits every file, whatever happened before. *)
Lemma resize_each_all (fl : Q -> Q) (files : list Resize.dir_entry)
    (tw th : option Z) (ts : option (Z * Z)) (c : Z) :
  Resize.resize_each fl files tw th ts c
  = (c + Z.of_nat (List.length
         (filter (fun f => Resize.succeeded (Resize.resize_image fl f tw th ts))
                 files)),
     map (fun f => (Resize.name f, Resize.resize_image fl f tw th ts)) files).
Proof.
  revert c. induction files as [|f files IH]; intros c; cbn [Resize.resize_each].
  - cbn. f_equal. lia.
  - rewrite IH. cbn [filter map].
    destruct (Resize.succeeded (Resize.resize_image fl f tw th ts));
      cbn [List.length]; f_equal; lia.
Qed.

(** The extractor's loop: the count is the number of files written, every
    frame below the current one has decoded, and every frame written lies
    below the current one -- or, on leaving by the frame limit, is the
    current one. *)
Lemma extract_loop_prefix (v : Mp4.video) (start stop step : Z)
    (max_frames : option Z) (fuel : nat) (st : Mp4.loop_state) :
  Mp4.saved_count st = Z.of_nat (List.length (Mp4.written st)) ->
  (forall i, start <= i < Mp4.current_frame st -> Mp4.read_at v i = Mp4.Decoded) ->
  (forall i, In i (Mp4.written st) -> i < Mp4.current_frame st) ->
  let st' := snd (Mp4.extract_loop fuel v stop step max_frames st) in
  Mp4.saved_count st' = Z.of_nat (List.length (Mp4.written st'))
  /\ forall j, start <= j -> Mp4.read_at v j <> Mp4.Decoded ->
     forall i, In i (Mp4.written st') -> i < j.
Proof.
  revert st. induction fuel as [|fuel IH]; intros st Hc Hd Hw.
  all: assert (Hstay : forall j, start <= j -> Mp4.read_at v j <> Mp4.Decoded ->
                       forall i, In i (Mp4.written st) -> i < j).
  1,3: intros j Hj Hn i Hi; specialize (Hw i Hi);
       destruct (Z.lt_ge_cases j (Mp4.current_frame st)) as [Hlt|Hge];
       [contradiction Hn; apply Hd; lia | lia].
  - cbn. split; assumption.
  - cbn [Mp4.extract_loop].
    destruct (Mp4.current_frame st <? stop); [|cbn; split; assumption].
    destruct (Mp4.read_at v (Mp4.current_frame st)) eqn:Hread;
      [|cbn; split; assumption|cbn; split; assumption].
    assert (Hd' : forall i, start <= i < Mp4.current_frame st + 1 ->
                  Mp4.read_at v i = Mp4.Decoded).
    { intros i Hi. destruct (Z.eq_dec i (Mp4.current_frame st)) as [->|Hne];
        [exact Hread | apply Hd; lia]. }
    destruct (Mp4.frame_count st mod step =? 0).
    + cbn [Mp4.saved_count Mp4.frame_count Mp4.current_frame Mp4.written].
      assert (Hc1 : Mp4.saved_count st + 1
                    = Z.of_nat (List.length (Mp4.written st ++ [Mp4.current_frame st]))).
      { rewrite length_app. cbn [List.length]. lia. }
      assert (Hw1 : forall i, In i (Mp4.written st ++ [Mp4.current_frame st]) ->
                    i < Mp4.current_frame st + 1).
      { intros i Hi. apply in_app_or in Hi. destruct Hi as [Hi|[<-|[]]];
          [specialize (Hw i Hi)|]; lia. }
      destruct (truthy_int max_frames && _).
      * cbn [snd Mp4.saved_count Mp4.written]. split; [exact Hc1|].
        intros j Hj Hn i Hi. specialize (Hw1 i Hi).
        destruct (Z.lt_ge_cases j (Mp4.current_frame st + 1)) as [Hlt|Hge];
          [contradiction Hn; apply Hd'; lia | lia].
      * apply IH; cbn [Mp4.saved_count Mp4.current_frame Mp4.written];
          assumption.
    + apply IH; cbn [Mp4.saved_count Mp4.current_frame Mp4.written];
        try assumption.
      intros i Hi. specialize (Hw i Hi). lia.
Qed.

(** C7, as stated, fails for the extractor: on a four-frame clip whose
    frame 1 does not decode, only frame 0 is written; frames 2 and 3, which
    decode, are never attempted. *)
Lemma undecodable_frame_ends_extraction :
  let r := Mp4.extract_frames no_rounding Samples.clip_gap "png" None None 0 None in
  Mp4.frames_written r = [0]
  /\ Mp4.returned r = 1
  /\ Mp4.exit_kind r = Some Mp4.EndOfStream
  /\ Mp4.read_at Samples.clip_gap 2 = Mp4.Decoded
  /\ Mp4.read_at Samples.clip_gap 3 = Mp4.Decoded
  /\ ~ In 2 (Mp4.frames_written r)
  /\ ~ In 3 (Mp4.frames_written r).
Proof.
  cbv zeta. repeat split; try reflexivity.
  - vm_compute. intros [H|[]]. discriminate.
  - vm_compute. intros [H|[]]. discriminate.
Qed.

(** C7, amended: in the resizer a failure on one image is caught, that file
    is counted as failed and every other image file is still processed, in
    ascending order of name; the run reports the number of successes out of
    the number of image files found.  In the extractor a frame that cannot
    be decoded ends the run instead: no frame at or after the index of an
    undecodable frame is written, and the run reports the number of frames
    it has written. *)
Theorem batch_item_failures (fl : Q -> Q)
    (entries : list Resize.dir_entry) (tw th : option Z) (ts : option (Z * Z))
    (v : Mp4.video) (fmt : string) (interval : option Q)
    (max_frames : option Z) (start_time : Q) (end_time : option Q) :
  filter Resize.is_image entries <> [] ->
  ts <> None \/ truthy_int tw = true \/ truthy_int th = true ->
  let files := sort_by Resize.name (filter Resize.is_image entries) in
  let done := fun f => Resize.resize_image fl f tw th ts in
  let rep := Resize.resize_images_in_directory fl (Resize.Directory entries) tw th ts in
  let r := Mp4.extract_frames fl v fmt interval max_frames start_time end_time in
  (Resize.attempts rep = map (fun f => (Resize.name f, done f)) files
   /\ Resize.success_count rep
      = Z.of_nat (List.length (filter (fun f => Resize.succeeded (done f)) files))
   /\ Resize.images_found rep = Z.of_nat (List.length files))
  /\ (Mp4.returned r = Z.of_nat (List.length (Mp4.frames_written r))
      /\ forall j, Mp4.start_frame_of fl v start_time <= j ->
                   Mp4.read_at v j <> Mp4.Decoded ->
         forall i, In i (Mp4.frames_written r) -> i < j).
Proof.
  intros Hne Htarget files done rep r. split.
  - (* the resizer *)
    subst rep files. unfold Resize.resize_images_in_directory.
    destruct (filter Resize.is_image entries) as [|f0 fs] eqn:Efiles;
      [contradiction Hne; reflexivity|].
    set (files := sort_by Resize.name (f0 :: fs)).
    assert (Hrun :
      let '(n, log) := Resize.resize_each fl files tw th ts 0 in
      log = map (fun f => (Resize.name f, done f)) files
      /\ n = Z.of_nat (List.length
                 (filter (fun f => Resize.succeeded (done f)) files))).
    { rewrite resize_each_all. split; [reflexivity|]. apply Z.add_0_l. }
    assert (Hlen : Z.of_nat (List.length (f0 :: fs)) = Z.of_nat (List.length files)).
    { subst files. now rewrite PyFacts.sort_by_length. }
    destruct (Resize.resize_each fl files tw th ts 0) as [n log].
    destruct Hrun as [Hlog Hn].
    destruct ts as [t|].
    + cbn [Resize.attempts Resize.success_count Resize.images_found].
      repeat split; assumption.
    + destruct Htarget as [H|H]; [contradiction H; reflexivity|].
      replace (truthy_int tw || truthy_int th)%bool with true
        by (destruct H as [-> | ->]; [reflexivity | now rewrite orb_true_r]).
      cbn [negb Resize.attempts Resize.success_count Resize.images_found].
      repeat split; assumption.
  - (* the extractor *)
    subst r. unfold Mp4.extract_frames.
    destruct (negb (Mp4.file_exists v));
      [cbn; split; [reflexivity | intros j _ _ i []]|].
    assert (Hloop := extract_loop_prefix v (Mp4.start_frame_of fl v start_time)
              (Mp4.end_frame_of fl v start_time end_time)
              (Mp4.frame_step_of fl v interval) max_frames
              (S (Z.to_nat (Mp4.end_frame_of fl v start_time end_time
                            - Mp4.start_frame_of fl v start_time)))
              {| Mp4.frame_count := 0; Mp4.saved_count := 0;
                 Mp4.current_frame := Mp4.start_frame_of fl v start_time;
                 Mp4.written := [] |}
              eq_refl).
    cbn [Mp4.current_frame Mp4.written] in Hloop.
    specialize (Hloop ltac:(intros i Hi; lia) ltac:(intros i [])).
    destruct (Mp4.extract_loop _ v _ _ max_frames _) as [ex st].
    cbn [snd] in Hloop.
    destruct (Mp4.normalize_format fmt);
      destruct (negb (Mp4.is_opened v));
      cbn [Mp4.returned Mp4.frames_written Mp4.nothing_extracted List.length];
      try exact Hloop; (split; [reflexivity | intros j _ _ i []]).
Qed.

Lemma batch_item_failures_example :
  let entries := [Samples.png_3x2; Samples.broken_png; Samples.png_4x4] in
  let rep := Resize.resize_images_in_directory no_rounding
               (Resize.Directory entries) (Some 6) None None in
  let r := Mp4.extract_frames no_rounding Samples.clip_gap "png" None None 0 None in
  (Resize.attempts rep
   = [("a.png"%string, Resize.Written (6, 4));
      ("b.png"%string, Resize.Caught);
      ("c.png"%string, Resize.Written (6, 6))]
   /\ Resize.success_count rep = 2
   /\ Resize.images_found rep = 3)
  /\ (Mp4.returned r = Z.of_nat (List.length (Mp4.frames_written r))
      /\ forall j, Mp4.start_frame_of no_rounding Samples.clip_gap 0 <= j ->
                   Mp4.read_at Samples.clip_gap j <> Mp4.Decoded ->
         forall i, In i (Mp4.frames_written r) -> i < j).
Proof.
  apply (batch_item_failures no_rounding
           [Samples.png_3x2; Samples.broken_png; Samples.png_4x4]
           (Some 6) None None Samples.clip_gap "png" None None 0 None).
  - vm_compute. discriminate.
  - right. left. reflexivity.
Defined.

End BatchFacts.

Module ExitCodes.
Import Py.
Local Open Scope Z_scope.










(** Only a cancellation leaves the telemetry loop unhandled. *)
Lemma telemetry_exit_of_exn (e e' : exn) :
  Telemetry.exit_of_exn e = Telemetry.Escaped e' -> e' = CancelledError.
Proof. destruct e; cbn; intros H; inversion H; reflexivity. Qed.

Lemma telemetry_tick_escaped w a ws s e s' :
  Telemetry.tick w a ws s = Telemetry.Exit (Telemetry.Escaped e) s' ->
  e = CancelledError.
Proof.
  unfold Telemetry.tick.
  destruct (Ws.keep_going _); [|discriminate].
  destruct (Telemetry.build_frame _ _ _ _ _ _) as [[[sts m] c]|];
    [|discriminate].
  destruct (Ws.send_raises _) as [e1|].
  { intros [= H _]. eapply telemetry_exit_of_exn, H. }
  destruct (if Telemetry.show_responses a then _ else _) as [e2|].
  { intros [= H _]. eapply telemetry_exit_of_exn, H. }
  destruct (Ws.sleep_raises _) as [e3|]; [|discriminate].
  intros [= H _]. eapply telemetry_exit_of_exn, H.
Qed.

Lemma telemetry_run_escaped w a ws fuel s e :
  fst (Telemetry.run w a ws fuel s) = Telemetry.Escaped e ->
  e = CancelledError.
Proof.
  revert s. induction fuel as [|fuel IH]; intros s; cbn [Telemetry.run].
  - discriminate.
  - destruct (Telemetry.tick w a ws s) as [s'|x s'] eqn:Et; [apply IH|].
    cbn [fst]. intros ->. eapply telemetry_tick_escaped, Et.
Qed.

Lemma telemetry_loop_escaped w a ws fuel e :
  fst (Telemetry.frames_loop w a ws fuel) = Telemetry.Escaped e ->
  e = CancelledError.
Proof.
  unfold Telemetry.frames_loop.
  destruct (Ws.recv_escapes _) as [e1|].
  - cbn [fst]. apply telemetry_exit_of_exn.
  - apply telemetry_run_escaped.
Qed.















(** The sender on the sample directory and a silent server: both readable
    images are sent and the exit status is 0. *)
Lemma binary_sample_exits_0 :
  BinaryImage.parse_args Samples.send_all_once_command
  = Namespace Samples.send_all_once
  /\ BinaryImage.main 10 Samples.send_all_once_command
       (BinaryImage.Connected Samples.calm_session) = Returns 0.
Proof. split; reflexivity. Qed.





End ExitCodes.

Module BinaryImageFacts.
Import Py Ws BinaryImage.
Local Open Scope Z_scope.

Section SendOnce.
Variable a : args.
Variable ws : session.
Variable files : list dir_entry.
Hypothesis no_count : updates a = 0.
Hypothesis no_loop : loop a = false.
Hypothesis quiet :
  forall i, (i < List.length files)%nat ->
            quiet_tick (tick_events (socket ws) i).

(** With the first [length done] files behind it, the loop works through
    the files [todo] that remain and leaves by [break]. *)
Lemma run_sends_rest (todo : list dir_entry) : forall done fuel s,
  files = done ++ todo ->
  (List.length todo < fuel)%nat ->
  updates_remaining s = None ->
  image_index s = List.length done ->
  0 <= frame_count s <= Z.of_nat (List.length done) ->
  exists s',
    run a ws files fuel s = (SentAll, s')
    /\ sent s' = sent s ++ map Image (readable todo)
    /\ frame_count s' = frame_count s + Z.of_nat (List.length (readable todo))
    /\ skipped s' = skipped s ++ unreadable_names todo.
Proof.
  induction todo as [|f todo IH]; intros done fuel s Hfiles Hfuel Hur Hidx Hfc;
    (destruct fuel as [|fuel]; [cbn in Hfuel; lia|]); cbn [run]; unfold tick;
    rewrite Hur; cbn [keep_going].
  - (* every file is behind: [break] *)
    rewrite Hidx, Hfiles, app_nil_r, Nat.leb_refl, no_loop. cbn [negb andb].
    exists s. cbn [readable unreadable_names flat_map map].
    rewrite !app_nil_r. cbn [List.length]. repeat split. lia.
  - assert (Hlen : (List.length done < List.length files)%nat).
    { rewrite Hfiles, length_app. cbn. lia. }
    replace (List.length files <=? image_index s)%nat with false
      by (symmetry; apply Nat.leb_gt; lia).
    cbn [andb]. rewrite Hidx.
    replace (nth_error files (List.length done)) with (Some f).
    2:{ rewrite Hfiles, nth_error_app2, Nat.sub_diag by lia. reflexivity. }
    assert (Hfiles' : files = (done ++ [f]) ++ todo)
      by (rewrite <- app_assoc; exact Hfiles).
    assert (Hlen' : List.length (done ++ [f]) = S (List.length done))
      by (rewrite length_app; cbn; lia).
    cbn [readable unreadable_names flat_map].
    destruct (data f) as [image_data|] eqn:Ed.
    + (* a readable file: one message *)
      destruct (quiet (Z.to_nat (frame_count s)) ltac:(lia)) as (Qs & Qr & Qz).
      rewrite Qs, Qr.
      cbn [updates_remaining count_down keep_going frame_count image_index
           skipped sent].
      rewrite Qz.
      edestruct (IH (done ++ [f]) fuel) as (s' & Er & Es & Ec & Ek);
        [exact Hfiles' | cbn in Hfuel; lia | | | |].
      4:{ exists s'. split; [exact Er|].
          cbn [sent frame_count skipped] in Es, Ec, Ek.
          rewrite Es, Ec, Ek. cbn [app map List.length].
          rewrite <- app_assoc. cbn [app]. repeat split; try reflexivity.
          fold (readable todo). lia. }
      * reflexivity.
      * cbn [image_index]. now rewrite Hlen'.
      * cbn [frame_count]. rewrite Hlen'. lia.
    + (* an unreadable file: logged and skipped *)
      edestruct (IH (done ++ [f]) fuel) as (s' & Er & Es & Ec & Ek);
        [exact Hfiles' | cbn in Hfuel; lia | | | |].
      4:{ exists s'. split; [exact Er|].
          cbn [sent frame_count skipped] in Es, Ec, Ek.
          rewrite Es, Ec, Ek. cbn [app].
          rewrite <- app_assoc. cbn [app]. repeat split; reflexivity. }
      * reflexivity.
      * cbn [image_index]. now rewrite Hlen'.
      * cbn [frame_count]. rewrite Hlen'. lia.
Qed.

End SendOnce.

Lemma send_loop_once (a : args) (ws : session) (files : list dir_entry)
    (sent0 : list message) (fuel : nat) :
  updates a = 0 -> loop a = false ->
  (forall i, (i < List.length files)%nat ->
             quiet_tick (tick_events (socket ws) i)) ->
  (List.length files < fuel)%nat ->
  exists final,
    send_loop fuel a ws files sent0 = Returned 0 final
    /\ sent final = sent0 ++ map Image (readable files)
    /\ frame_count final = Z.of_nat (List.length (readable files))
    /\ skipped final = unreadable_names files.
Proof.
  intros Hup Hloop Hq Hfuel.
  destruct (run_sends_rest a ws files Hloop Hq files [] fuel
              (start_state a sent0)) as (s' & Er & Es & Ec & Ek);
    try reflexivity; try assumption.
  - unfold start_state. cbn [updates_remaining]. now rewrite Hup.
  - cbn. lia.
  - exists s'. unfold send_loop. rewrite Er. repeat split; assumption.
Qed.

(** C9, amended: with update count 0 and looping off, in a run in which
    no await raises and what is received (the welcome, the acknowledgment
    of the metadata, the reply to an image) decodes without an exception
    other than [JSONDecodeError], so is no JSON value other than an
    object, the sender works through the image files of the
    frames directory in ascending order of name, sends the contents of
    every file it can read exactly once, logs and skips the others without
    counting them, and then leaves the loop on its own, returning 0. *)
Theorem sends_each_readable_image_once
    (a : args) (ws : session) (entries : list dir_entry) (fuel : nat) :
  frames_dir a = Directory entries ->
  updates a = 0 -> loop a = false ->
  filter is_image entries <> [] ->
  decoded_quietly (welcome (socket ws)) ->
  (send_metadata_json a = true ->
   metadata_send_raises ws = None /\ decoded_quietly (metadata_ack ws)) ->
  (forall i, (i < List.length (filter is_image entries))%nat ->
     send_raises (tick_events (socket ws) i) = None
     /\ decoded_quietly (response (tick_events (socket ws) i))
     /\ sleep_raises (tick_events (socket ws) i) = None) ->
  (List.length (filter is_image entries) < fuel)%nat ->
  let files := sort_by name (filter is_image entries) in
  StronglySorted (key_le name) files
  /\ Permutation files (filter is_image entries)
  /\ exists final,
       send_binary_images fuel a ws = Returned 0 final
       /\ sent final
          = (if send_metadata_json a
             then [Metadata (device_id a) (camera_id a) (metadata_time ws)]
             else [])
            ++ map Image (readable files)
       /\ frame_count final = Z.of_nat (List.length (readable files))
       /\ skipped final = unreadable_names files.
Proof.
  intros Hdir Hup Hloop Hne Hwel Hmeta Hticks Hfuel files.
  assert (Hw : recv_escapes (welcome (socket ws)) = None)
    by now apply TelemetryFacts.decoded_quietly_escapes.
  assert (Hm : send_metadata_json a = true ->
               metadata_send_raises ws = None
               /\ recv_escapes (metadata_ack ws) = None).
  { intros Hs. destruct (Hmeta Hs) as [H1 H2].
    split; [exact H1|now apply TelemetryFacts.decoded_quietly_escapes]. }
  assert (Hq : forall i, (i < List.length (filter is_image entries))%nat ->
               quiet_tick (tick_events (socket ws) i)).
  { intros i Hi. destruct (Hticks i Hi) as (H1 & H2 & H3).
    split; [exact H1|].
    split; [now apply TelemetryFacts.decoded_quietly_escapes|exact H3]. }
  assert (Hperm : Permutation files (filter is_image entries))
    by apply PyFacts.sort_by_perm.
  split; [apply PyFacts.sort_by_sorted|]. split; [exact Hperm|].
  assert (Hlen : List.length files = List.length (filter is_image entries))
    by now apply Permutation_length.
  unfold send_binary_images, get_image_files. rewrite Hdir. fold files.
  destruct files as [|f0 rest] eqn:Efiles.
  { apply Permutation_nil in Hperm. now contradiction Hne. }
  rewrite <- Efiles in *. rewrite Hw.
  destruct (send_metadata_json a).
  - destruct (Hm eq_refl) as [-> ->].
    apply send_loop_once; auto; rewrite Hlen; auto.
  - apply send_loop_once; auto; rewrite Hlen; auto.
Qed.

Lemma sends_each_readable_image_once_example :
  StronglySorted (key_le name)
    (sort_by name (filter is_image Samples.frames_entries))
  /\ Permutation (sort_by name (filter is_image Samples.frames_entries))
       (filter is_image Samples.frames_entries)
  /\ exists final,
       send_binary_images 4 Samples.send_all_once Samples.calm_session
       = Returned 0 final
       /\ sent final = [] ++ [Image [Byte.x00]; Image [Byte.x02]]
       /\ frame_count final = 2
       /\ skipped final = ["frame_000001.png"%string].
Proof.
  apply (sends_each_readable_image_once Samples.send_all_once
           Samples.calm_session Samples.frames_entries 4).
  - reflexivity.
  - reflexivity.
  - reflexivity.
  - vm_compute. discriminate.
  - exact I.
  - discriminate.
  - intros i _. repeat split.
  - vm_compute. lia.
Defined.

(** The same run, evaluated. *)
Example frames_directory_sent_in_order :
  send_binary_images 4 Samples.send_all_once Samples.calm_session
  = Returned 0 {| frame_count := 2; updates_remaining := None;
                  image_index := 3;
                  skipped := ["frame_000001.png"%string];
                  sent := [Image [Byte.x00]; Image [Byte.x02]] |}.
Proof. reflexivity. Qed.

(** C9, as stated, fails: on a server that answers every image with a
    JSON list, nothing interrupts the run and the connection stays open,
    yet [.get] on the first reply raises, [except Exception] ends the run
    and the sender returns 1 after the first of the two readable images:
    the second is never sent. *)
Lemma json_list_reply_stops_sender :
  let a := Samples.send_all_once in
  let ws := Samples.chatty_session in
  updates a = 0 /\ loop a = false
  /\ parse_args Samples.send_all_once_command = Namespace a
  /\ welcome (socket ws) = TimedOut
  /\ (forall i, send_raises (tick_events (socket ws) i) = None
                /\ response (tick_events (socket ws) i)
                   = Received JsonNotObject
                /\ sleep_raises (tick_events (socket ws) i) = None)
  /\ readable (sort_by name (filter is_image Samples.frames_entries))
     = [[Byte.x00]; [Byte.x02]]
  /\ send_binary_images 4 a ws
     = Returned 1 {| frame_count := 1; updates_remaining := None;
                     image_index := 1; skipped := [];
                     sent := [Image [Byte.x00]] |}
  /\ main 4 Samples.send_all_once_command (Connected ws) = Returns 1.
Proof. cbv zeta. repeat split; reflexivity. Qed.

End BinaryImageFacts.

Module ScreenFacts.
Import Telemetry.
Local Open Scope R_scope.

Lemma clamp_between (v vmin vmax : R) :
  vmin <= vmax -> vmin <= clamp v vmin vmax <= vmax.
Proof.
  intros H. unfold clamp, Rmax, Rmin.
  destruct (Rle_dec vmax v); destruct (Rle_dec vmin _); lra.
Qed.

Lemma Int_part_floor (x : R) (k : Z) : IZR k <= x -> (k <= Int_part x)%Z.
Proof.
  intros H. destruct (base_Int_part x) as [_ Hgt].
  assert (IZR k < IZR (Int_part x) + 1) by lra.
  rewrite <- plus_IZR in H0. apply lt_IZR in H0. lia.
Qed.

Lemma Int_part_below (x : R) (k : Z) : x <= IZR k -> (Int_part x <= k)%Z.
Proof.
  intros H. destruct (base_Int_part x) as [Hle _].
  apply le_IZR. lra.
Qed.

Lemma py_int_between (x : R) (lo hi : Z) :
  (0 <= lo)%Z -> IZR lo <= x <= IZR hi -> (lo <= py_int x <= hi)%Z.
Proof.
  intros Hlo [H1 H2]. unfold py_int.
  assert (0 <= x) by (apply IZR_le in Hlo; lra).
  destruct (Rle_dec 0 x); [|contradiction].
  split; [now apply Int_part_floor | now apply Int_part_below].
Qed.

Lemma py_int_le (x : R) : 0 <= x -> IZR (py_int x) <= x.
Proof.
  intros H. unfold py_int. destruct (Rle_dec 0 x); [|contradiction].
  apply base_Int_part.
Qed.

Lemma round_half_even_between (y : R) (lo hi : Z) :
  IZR lo <= y <= IZR hi -> (lo <= round_half_even y <= hi)%Z.
Proof.
  intros [H1 H2]. unfold round_half_even.
  pose proof (Int_part_floor y lo H1) as Hf.
  destruct (base_Int_part y) as [Hle Hgt].
  assert (Hup : y <= IZR (Int_part y) \/ (Int_part y + 1 <= hi)%Z).
  { destruct (Rle_dec y (IZR (Int_part y))) as [L|G]; [now left|right].
    assert (IZR (Int_part y) < IZR hi) by lra.
    apply lt_IZR in H. lia. }
  assert (Int_part y <= hi)%Z by now apply Int_part_below.
  destruct (Rlt_dec (y - IZR (Int_part y)) (1 / 2)); [lia|].
  destruct Hup as [L|G]; [lra|].
  destruct (Rlt_dec (1 / 2) (y - IZR (Int_part y))); [lia|].
  destruct (Z.even (Int_part y)); lia.
Qed.

Lemma py_round_between (x : R) (lo hi : Z) (n : nat) :
  IZR lo / 10 ^ n <= x <= IZR hi / 10 ^ n ->
  IZR lo / 10 ^ n <= py_round x n <= IZR hi / 10 ^ n.
Proof.
  intros [H1 H2]. unfold py_round.
  assert (Hp : 0 < 10 ^ n) by (apply pow_lt; lra).
  assert (Hy : IZR lo <= x * 10 ^ n <= IZR hi).
  { split.
    - apply (Rmult_le_compat_r (10 ^ n)) in H1; [|lra].
      unfold Rdiv in H1. rewrite Rmult_assoc, Rinv_l, Rmult_1_r in H1; lra.
    - apply (Rmult_le_compat_r (10 ^ n)) in H2; [|lra].
      unfold Rdiv in H2. rewrite Rmult_assoc, Rinv_l, Rmult_1_r in H2; lra. }
  destruct (round_half_even_between _ _ _ Hy) as [L U].
  apply IZR_le in L, U.
  split; apply Rmult_le_compat_r; try lra;
    apply Rlt_le, Rinv_0_lt_compat; exact Hp.
Qed.

Lemma round_half_even_near (y : R) :
  Rabs (IZR (round_half_even y) - y) <= 1 / 2.
Proof.
  unfold round_half_even. destruct (base_Int_part y) as [Hle Hgt].
  destruct (Rlt_dec (y - IZR (Int_part y)) (1 / 2)) as [L|L].
  { apply Rabs_le. lra. }
  destruct (Rlt_dec (1 / 2) (y - IZR (Int_part y))) as [G|G].
  { rewrite plus_IZR. apply Rabs_le. lra. }
  destruct (Z.even (Int_part y)); [|rewrite plus_IZR]; apply Rabs_le; lra.
Qed.

Lemma py_round_near (x : R) (n : nat) :
  Rabs (py_round x n - x) <= 1 / 2 / 10 ^ n.
Proof.
  unfold py_round.
  assert (Hp : 0 < 10 ^ n) by (apply pow_lt; lra).
  pose proof (round_half_even_near (x * 10 ^ n)) as H.
  replace (IZR (round_half_even (x * 10 ^ n)) / 10 ^ n - x)
    with ((IZR (round_half_even (x * 10 ^ n)) - x * 10 ^ n) / 10 ^ n)
    by (field; lra).
  unfold Rdiv at 1. rewrite Rabs_mult, (Rabs_pos_eq (/ 10 ^ n)).
  - apply Rmult_le_compat_r; [|exact H].
    apply Rlt_le, Rinv_0_lt_compat, Hp.
  - apply Rlt_le, Rinv_0_lt_compat, Hp.
Qed.

(** X3: [compute_bbox_and_conf] never fails and, whatever the offsets, the
    speed and the random draws, returns a box that lies within the 1920 x
    1080 image, between 12 and 240 pixels wide and between 7 and 158 pixels
    high, with a confidence between 0.30 and 0.98; it consumes three
    normal draws and one uniform draw. *)
Theorem bbox_within_image (rng : world) (dx_east_m dy_north_m speed : R)
    (c : counters) :
  exists x y w h conf c',
    compute_bbox_and_conf rng dx_east_m dy_north_m speed c
    = Some (((x, y, w, h), conf), c')
    /\ (0 <= x)%Z /\ (0 <= y)%Z
    /\ (12 <= w <= 240)%Z /\ (7 <= h <= 158)%Z
    /\ (x + w <= IMAGE_WIDTH)%Z /\ (y + h <= IMAGE_HEIGHT)%Z
    /\ 30 / 100 <= conf <= 98 / 100
    /\ n_normal c' = (n_normal c + 3)%nat
    /\ n_rand c' = S (n_rand c).
Proof.
  unfold compute_bbox_and_conf, gauss, uniform, random, bind, ret.
  cbn [n_normal n_rand].
  set (width_px := clamp _ 12 240).
  set (height_px := width_px * (66 / 100)).
  set (x := py_int (clamp _ 0 (IZR IMAGE_WIDTH - width_px))).
  set (y := py_int (clamp _ 0 (IZR IMAGE_HEIGHT - height_px))).
  set (conf := clamp _ (30 / 100) (98 / 100)).
  assert (Hw : 12 <= width_px <= 240) by (apply clamp_between; lra).
  assert (Hh : 792 / 100 <= height_px <= 1584 / 10) by (unfold height_px; lra).
  unfold IMAGE_WIDTH, IMAGE_HEIGHT in *.
  assert (Hx : 0 <= clamp (IZR 1920 / 2 + dx_east_m * (IZR 1920 / 2 / VIEW_HALF_WIDTH_M)
                           + (0 + normal rng (n_normal c) * 5) - width_px / 2)
                          0 (IZR 1920 - width_px) <= 1920 - width_px)
    by (apply clamp_between; lra).
  assert (Hy : 0 <= clamp (IZR 1080 / 2 - dy_north_m * (IZR 1080 / 2 / VIEW_HALF_WIDTH_M)
                           + (0 + normal rng (S (n_normal c)) * 5) - height_px / 2)
                          0 (IZR 1080 - height_px) <= 1080 - height_px)
    by (apply clamp_between; lra).
  pose proof (py_int_le _ (proj1 Hx)) as Hxle. fold x in Hxle.
  pose proof (py_int_le _ (proj1 Hy)) as Hyle. fold y in Hyle.
  assert (Hx0 : (0 <= x <= 1920)%Z) by (apply py_int_between; [lia|lra]).
  assert (Hy0 : (0 <= y <= 1080)%Z) by (apply py_int_between; [lia|lra]).
  assert (Ew : Rmin width_px (1920 - IZR x) = width_px)
    by (apply Rmin_left; lra).
  assert (Eh : Rmin height_px (1080 - IZR y) = height_px)
    by (apply Rmin_left; lra).
  rewrite Ew, Eh.
  assert (Hwi : (12 <= py_int width_px <= 240)%Z)
    by (apply py_int_between; [lia|lra]).
  assert (Hhi : (7 <= py_int height_px <= 158)%Z).
  { assert (H7 : (7 <= py_int height_px <= 159)%Z)
      by (apply py_int_between; [lia|lra]).
    assert (IZR (py_int height_px) <= height_px) by (apply py_int_le; lra).
    assert (IZR (py_int height_px) < 159) by lra.
    apply lt_IZR in H0. lia. }
  assert (Hwle : IZR (py_int width_px) <= width_px) by (apply py_int_le; lra).
  assert (Hhle : IZR (py_int height_px) <= height_px) by (apply py_int_le; lra).
  assert (Hc : 30 / 100 <= conf <= 98 / 100) by (apply clamp_between; lra).
  assert (Hr : 30 / 100 <= py_round conf 2 <= 98 / 100).
  { pose proof (py_round_between conf 30 98 2) as H. cbn [pow] in H.
    assert (E : 10 * (10 * 1) = 100) by ring. rewrite E in H. apply H. lra. }
  do 6 eexists. split; [reflexivity|].
  repeat split; try lia; try apply Hr; try (cbn; lia).
  - apply le_IZR. rewrite plus_IZR. lra.
  - apply le_IZR. rewrite plus_IZR. lra.
Qed.

End ScreenFacts.

Module GeometryFacts.
Import Telemetry.
Local Open Scope R_scope.

(** X1: the number of metres in a degree of longitude lies between
    111320 x 1e-12 and 111320 at every latitude, so it is never zero and
    dividing by it never fails; it is the same north and south of the
    equator, 111320 on the equator and 111320 x 1e-12 at the pole, where
    the cosine vanishes. *)
Theorem meters_per_degree_lon_range (latitude_deg : R) :
  METERS_PER_DEGREE_LAT / 10 ^ 12 <= meters_per_degree_lon latitude_deg
    <= METERS_PER_DEGREE_LAT
  /\ meters_per_degree_lon (- latitude_deg) = meters_per_degree_lon latitude_deg
  /\ meters_per_degree_lon 0 = METERS_PER_DEGREE_LAT
  /\ meters_per_degree_lon 90 = METERS_PER_DEGREE_LAT / 10 ^ 12.
Proof.
  unfold meters_per_degree_lon, METERS_PER_DEGREE_LAT.
  assert (Hp : 0 < 10 ^ 12) by (apply pow_lt; lra).
  assert (He : 1 / 10 ^ 12 <= 1).
  { apply (Rmult_le_reg_r (10 ^ 12)); [exact Hp|].
    unfold Rdiv. rewrite Rmult_assoc, Rinv_l by lra.
    assert (1 <= 10 ^ 12) by (apply pow_R1_Rle; lra). lra. }
  repeat split.
  - pose proof (Rmax_l (1 / 10 ^ 12) (Rabs (cos (radians latitude_deg)))).
    unfold Rdiv in *. nra.
  - assert (Rmax (1 / 10 ^ 12) (Rabs (cos (radians latitude_deg))) <= 1).
    { apply Rmax_lub; [exact He|].
      apply Rabs_le. pose proof (COS_bound (radians latitude_deg)). lra. }
    lra.
  - unfold radians. replace (- latitude_deg * (PI / 180))
      with (- (latitude_deg * (PI / 180))) by ring.
    now rewrite cos_neg.
  - unfold radians. rewrite Rmult_0_l, cos_0, Rabs_R1, Rmax_right by exact He.
    ring.
  - unfold radians. replace (90 * (PI / 180)) with (PI / 2) by field.
    rewrite cos_PI2, Rabs_R0, Rmax_left.
    + unfold Rdiv. ring.
    + apply Rlt_le, Rdiv_lt_0_compat; lra.
Qed.

(** X2: [latlon_to_m_offsets] undoes [position_on_circle]: the point at
    phase angle [angle] on the circle of radius [radius_m] lies
    [radius_m * cos angle] metres east and [radius_m * sin angle] metres
    north of the centre, at distance [|radius_m|] from it, whatever the
    centre. *)
Theorem offsets_of_position_on_circle
    (center_lat center_lon radius_m angle : R) :
  let pos := position_on_circle center_lat center_lon radius_m angle in
  let off := latlon_to_m_offsets (fst pos) (snd pos) center_lat center_lon in
  off = (radius_m * cos angle, radius_m * sin angle)
  /\ sqrt (fst off * fst off + snd off * snd off) = Rabs radius_m.
Proof.
  intros pos off.
  assert (E : off = (radius_m * cos angle, radius_m * sin angle)).
  { subst off pos. unfold latlon_to_m_offsets, position_on_circle.
    cbn [fst snd].
    pose proof (TelemetryFacts.meters_per_degree_lon_pos center_lat) as Hm.
    unfold METERS_PER_DEGREE_LAT. f_equal; field; lra. }
  split; [exact E|]. rewrite E. cbn [fst snd].
  replace (radius_m * cos angle * (radius_m * cos angle)
           + radius_m * sin angle * (radius_m * sin angle))
    with (Rsqr radius_m * (Rsqr (sin angle) + Rsqr (cos angle)))
    by (unfold Rsqr; ring).
  rewrite sin2_cos2, Rmult_1_r. apply sqrt_Rsqr_abs.
Qed.

End GeometryFacts.

Module TelemetryRuns.
Import Py Ws Telemetry.
Local Open Scope R_scope.

Section Tick.
Variable w : world.
Variable a : args.

Lemma advance_same dt speed st c st' pos c' :
  advance a dt speed st c = Some ((st', pos), c') ->
  same_track st st' /\ c' = c.
Proof.
  unfold advance, same_track, ret, raise.
  destruct (motion st) eqn:Em.
  - destruct (Req_dec_T (radius_m st) 0); [discriminate|].
    intros [= <- _ <-]. cbn. repeat split.
  - intros [= <- _ <-]. cbn. repeat split.
Qed.

Lemma update_drone_Some dt st c st' o c' :
  update_drone w a dt st c = Some ((st', o), c') ->
  same_track st st'
  /\ n_now c' = n_now c
  /\ forall d, o = Some d -> detection_of w st d.
Proof.
  unfold update_drone, uniform, random, gauss, time_time, bind, ret.
  cbn [n_rand n_normal n_uuid n_clock n_now].
  match goal with
  | |- context [advance a dt ?sp st ?c1] =>
      destruct (advance a dt sp st c1) as [[[st1 [lat0 lon0]] c2]|] eqn:E;
        [|discriminate]
  end.
  destruct (advance_same _ _ _ _ _ _ _ E) as [Hs ->].
  cbn [n_rand n_normal n_uuid n_clock n_now].
  destruct Hs as (H1 & H2 & H3 & H4 & H5 & H6 & H7).
  destruct (Rlt_dec 0 (noise_level_m a));
    cbn [n_rand n_normal n_uuid n_clock n_now];
    match goal with
    | |- context [Rlt_dec (rand w ?i) (miss_rate a)] =>
        destruct (Rlt_dec (rand w i) (miss_rate a))
    end;
    intros [= <- <- <-]; cbn [n_now];
    (split; [repeat split; assumption|]); (split; [reflexivity|]);
    intros d [= <-]; unfold detection_of;
    cbn [obj_id obj_type speed_kt obj_alt];
    rewrite ?H1, ?H2, ?H6, ?H7;
    (split; [reflexivity|]); (split; [reflexivity|]);
    (split; [eexists; reflexivity|]); do 2 eexists; reflexivity.
Qed.

Lemma update_all_tracks dt sts c sts' objs c' :
  update_all w a dt sts c = Some ((sts', objs), c') ->
  Forall2 same_track sts sts'
  /\ n_now c' = n_now c
  /\ Forall (fun d => exists st, In st sts /\ detection_of w st d) objs
  /\ incl (map obj_id objs) (map drone_id sts)
  /\ (NoDup (map drone_id sts) -> NoDup (map obj_id objs)).
Proof.
  revert c sts' objs c'.
  induction sts as [|st sts IH]; intros c sts' objs c'; cbn [update_all].
  - intros [= <- <- <-]. repeat split; try constructor. intros x [].
  - unfold bind at 1.
    destruct (update_drone w a dt st c) as [[[st1 o] c1]|] eqn:E1;
      [|discriminate].
    unfold bind at 1.
    destruct (update_all w a dt sts c1) as [[[rest objs0] c2]|] eqn:E2;
      [|discriminate].
    intros [= <- <- <-].
    destruct (update_drone_Some _ _ _ _ _ _ E1) as (S1 & N1 & D1).
    destruct (IH _ _ _ _ E2) as (S2 & N2 & D2 & I2 & U2).
    assert (Hrest : Forall (fun d => exists st0, In st0 (st :: sts)
                                       /\ detection_of w st0 d) objs0).
    { eapply Forall_impl; [|exact D2].
      intros d (st0 & Hin & Hd). exists st0. split; [now right|exact Hd]. }
    split; [now constructor|]. split; [congruence|].
    destruct o as [d|].
    + destruct (D1 d eq_refl) as (Hid & Hd).
      split; [|split].
      * constructor; [|exact Hrest]. exists st. split; [now left|].
        exact (D1 d eq_refl).
      * cbn [map]. intros x [<-|Hx]; [left; now rewrite Hid|right; now apply I2].
      * cbn [map]. intros Hnd. inversion Hnd as [|? ? Hnot Hnd']; subst.
        constructor; [|now apply U2].
        rewrite Hid. intros Hin. apply Hnot. now apply I2.
    + split; [exact Hrest|]. split.
      * cbn [map]. intros x Hx. right. now apply I2.
      * cbn [map]. intros Hnd. inversion Hnd; subst. now apply U2.
Qed.

Lemma false_positive_shape c fp c' :
  false_positive w a c = Some (fp, c') ->
  n_now c' = n_now c
  /\ (List.length fp <= 1)%nat
  /\ Forall (false_detection w a) fp.
Proof.
  unfold false_positive, uniform, random, uuid4_hex, bind, ret.
  cbn [n_rand n_normal n_uuid n_clock n_now].
  destruct (Rlt_dec (rand w (n_rand c)) (false_positive_rate a));
    intros [= <- <-]; cbn [n_now List.length]; repeat split; try lia;
    constructor; [|constructor].
  unfold false_detection. cbn [obj_id obj_type speed_kt obj_alt].
  split; [eexists; reflexivity|]. split; [reflexivity|].
  split; eexists; reflexivity.
Qed.

Lemma build_frame_shape fid dt sts c sts' msg c' :
  build_frame w a fid dt sts c = Some ((sts', msg), c') ->
  Forall2 same_track sts sts'
  /\ n_now c' = S (n_now c)
  /\ p_cam_id msg = cam_id a /\ token_id msg = token a
  /\ image_info msg = (IMAGE_WIDTH, IMAGE_HEIGHT)
  /\ timestamp msg = utc_now w (n_now c)
  /\ frame_shape w a sts msg.
Proof.
  unfold build_frame, now_isoformat. unfold bind at 1. unfold bind at 1.
  match goal with
  | |- context [update_all w a dt sts ?c1] =>
      destruct (update_all w a dt sts c1) as [[[sts1 objs] c2]|] eqn:Eu;
        [|discriminate]
  end.
  unfold bind.
  destruct (false_positive w a c2) as [[fp c3]|] eqn:Ef; [|discriminate].
  unfold ret. intros [= <- <- <-].
  destruct (update_all_tracks _ _ _ _ _ _ Eu) as (S1 & N1 & D1 & _ & U1).
  destruct (false_positive_shape _ _ _ Ef) as (N2 & L2 & F2).
  cbn [n_now] in N1.
  repeat split; auto; try congruence.
  exists objs, fp. cbn [objects]. repeat split; auto.
Qed.

End Tick.

Lemma same_track_refl st : same_track st st.
Proof. repeat split. Qed.

Lemma same_track_trans st1 st2 st3 :
  same_track st1 st2 -> same_track st2 st3 -> same_track st1 st3.
Proof.
  unfold same_track. intros (A1 & A2 & A3 & A4 & A5 & A6 & A7)
    (B1 & B2 & B3 & B4 & B5 & B6 & B7).
  repeat split; congruence.
Qed.

Lemma same_tracks_refl sts : Forall2 same_track sts sts.
Proof. induction sts; constructor; auto using same_track_refl. Qed.

Lemma same_tracks_trans l1 : forall l2 l3,
  Forall2 same_track l1 l2 -> Forall2 same_track l2 l3 ->
  Forall2 same_track l1 l3.
Proof.
  induction l1 as [|x l1 IH]; intros l2 l3 H12 H23;
    inversion H12; subst; inversion H23; subst; constructor.
  - eapply same_track_trans; eassumption.
  - eapply IH; eassumption.
Qed.

Lemma same_tracks_ids l1 l2 :
  Forall2 same_track l1 l2 -> map drone_id l2 = map drone_id l1.
Proof.
  induction 1 as [|x y l1 l2 H _ IH]; cbn; [reflexivity|].
  destruct H as (H & _). now rewrite H, IH.
Qed.

Lemma Forall2_In_right {A B} (R : A -> B -> Prop) l1 l2 y :
  Forall2 R l1 l2 -> In y l2 -> exists x, In x l1 /\ R x y.
Proof.
  induction 1 as [|x y' l1 l2 H _ IH]; intros Hin; [destruct Hin|].
  destruct Hin as [<-|Hin].
  - exists x. split; [now left|exact H].
  - destruct (IH Hin) as (x0 & H0 & R0). exists x0. split; [now right|exact R0].
Qed.

Lemma detection_of_same w st st' d :
  same_track st st' -> detection_of w st' d -> detection_of w st d.
Proof.
  unfold detection_of. intros (A1 & A2 & A3 & A4 & A5 & A6 & A7).
  now rewrite A1, A2, A5, A6, A7.
Qed.

Lemma frame_shape_same w a sts0 sts m :
  Forall2 same_track sts0 sts -> frame_shape w a sts m ->
  frame_shape w a sts0 m.
Proof.
  intros Hs (objs & fp & E & L & F & D & U).
  exists objs, fp. repeat split; auto.
  - eapply Forall_impl; [|exact D].
    intros d (st & Hin & Hd).
    destruct (Forall2_In_right _ _ _ _ Hs Hin) as (st0 & Hin0 & H0).
    exists st0. split; [exact Hin0|]. eapply detection_of_same; eassumption.
  - intros Hnd. apply U. now rewrite (same_tracks_ids _ _ Hs).
Qed.

Section Run.
Variable w : world.
Variable a : args.
Variable ws : transport.

(** A property of the messages sent that every completed tick keeps is a
    property of the messages of every run, however the run ends. *)
Lemma run_frames_invariant (J : loop_state -> Prop)
    (Q : list payload -> Prop) :
  (forall s, J s -> Q (sent s)) ->
  (forall s sts' msg c',
     J s ->
     build_frame w a (frame_id s) (interval_s a) (states s) (calls s)
     = Some ((sts', msg), c') ->
     J {| states := sts'; frame_id := (frame_id s + 1)%Z;
          updates_remaining := count_down (updates_remaining s);
          calls := c'; ticks := S (ticks s); sent := sent s ++ [msg] |}) ->
  forall fuel s, J s -> Q (sent (snd (run w a ws fuel s))).
Proof.
  intros HQ Hstep. induction fuel as [|fuel IH]; intros s HJ; cbn [run].
  - now apply HQ.
  - destruct (TelemetryFacts.tick_cases w a ws s)
      as [(_ & ->)|[(_ & _ & ->)|(_ & sts' & msg & c' & Eb & H)]];
      cbn [snd]; try now apply HQ.
    pose proof (Hstep s sts' msg c' HJ Eb) as HJ'.
    destruct H as [(e & s' & -> & _ & _ & _ & [E|E])| ->].
    + cbn [snd]. rewrite E. now apply HQ.
    + cbn [snd]. rewrite E. exact (HQ _ HJ').
    + now apply IH.
Qed.

Lemma frames_loop_invariant (J : loop_state -> Prop)
    (Q : list payload -> Prop) :
  (forall s, J s -> Q (sent s)) ->
  (forall s sts' msg c',
     J s ->
     build_frame w a (frame_id s) (interval_s a) (states s) (calls s)
     = Some ((sts', msg), c') ->
     J {| states := sts'; frame_id := (frame_id s + 1)%Z;
          updates_remaining := count_down (updates_remaining s);
          calls := c'; ticks := S (ticks s); sent := sent s ++ [msg] |}) ->
  J (initial_state w a) ->
  forall fuel, Q (sent (snd (frames_loop w a ws fuel))).
Proof.
  intros HQ Hstep H0 fuel. unfold frames_loop.
  destruct (recv_escapes (welcome ws)).
  - cbn [snd]. now apply HQ.
  - now apply run_frames_invariant with (J := J).
Qed.

End Run.

Section Start.
Variable w : world.
Variable a : args.

Lemma init_one_track i c st c' :
  init_one w a i c = Some (st, c') ->
  drone_id st = String.append "sim-" (str (i + 1))
  /\ n_now c' = n_now c
  /\ (n_rand c + 5 <= n_rand c' <= n_rand c + 6)%nat
  /\ fresh_track w a st.
Proof.
  unfold init_one, uniform, random, bind, ret.
  cbn [n_rand n_normal n_uuid n_clock n_now].
  pose proof TelemetryFacts.two_pi_pos as Hpi.
  pose proof (TelemetryFacts.meters_per_degree_lon_pos (center_lat a)) as Hm.
  assert (Hoff : forall u v,
            unit_draws w -> 0 <= a_radius_m a ->
            let r := 0 + (a_radius_m a * (25 / 100) - 0) * rand w u in
            let t := 0 + (2 * PI - 0) * rand w v in
            let off := latlon_to_m_offsets
                         (center_lat a + r * sin t / METERS_PER_DEGREE_LAT)
                         (center_lon a
                          + r * cos t / meters_per_degree_lon (center_lat a))
                         (center_lat a) (center_lon a) in
            sqrt (fst off * fst off + snd off * snd off)
            <= a_radius_m a * (25 / 100)).
  { intros u v Hu Hr r t off.
    assert (E : off = (r * cos t, r * sin t)).
    { subst off. unfold latlon_to_m_offsets, METERS_PER_DEGREE_LAT.
      f_equal; field; lra. }
    rewrite E. cbn [fst snd].
    replace (r * cos t * (r * cos t) + r * sin t * (r * sin t))
      with (Rsqr r * (Rsqr (sin t) + Rsqr (cos t))) by (unfold Rsqr; ring).
    rewrite sin2_cos2, Rmult_1_r.
    assert (0 <= r <= a_radius_m a * (25 / 100)).
    { subst r. specialize (Hu u). split; nra. }
    rewrite sqrt_Rsqr; lra. }
  destruct (Rlt_dec (rand w (n_rand c)) (6 / 10));
    intros [= <- <-]; cbn [drone_id n_now n_rand];
    (split; [reflexivity|]); (split; [reflexivity|]); (split; [lia|]);
    unfold fresh_track;
    cbn [type base_alt_m wobble_m speed_base_mps motion angle_rad
         bearing_rad radius_m lat lon];
    (split; [reflexivity|]); (split; [reflexivity|]); (split; [reflexivity|]);
    (split; [|split]).
  - intros Hu Hle.
    match goal with |- context [rand w ?k] => specialize (Hu k) end.
    unfold KNOTS_TO_MPS. split; nra.
  - intros Hu Hr.
    match goal with
    | |- context [(2 * PI - 0) * rand w ?k] => pose proof (Hu k)
    end.
    match goal with
    | |- context [a_radius_m a * (7 / 10) + _ * rand w ?k] => pose proof (Hu k)
    end.
    repeat split; try nra.
  - intros Hu Hr. now apply Hoff.
  - intros Hu Hle.
    match goal with |- context [rand w ?k] => specialize (Hu k) end.
    unfold KNOTS_TO_MPS. split; nra.
  - intros Hu Hr.
    match goal with
    | |- context [(2 * PI - 0) * rand w ?k] => pose proof (Hu k)
    end.
    repeat split; try nra.
  - intros Hu Hr. now apply Hoff.
Qed.

Lemma sim_id_injective (n m : Z) :
  String.append "sim-" (str n) = String.append "sim-" (str m) -> n = m.
Proof. cbn. intros [= E]. now apply TelemetryFacts.str_injective. Qed.

Lemma init_from_tracks n : forall i c sts c',
  init_from w a n i c = Some (sts, c') ->
  map drone_id sts
  = map (fun k => String.append "sim-" (str (i + Z.of_nat k + 1))) (seq 0 n)
  /\ n_now c' = n_now c
  /\ (n_rand c + 5 * n <= n_rand c' <= n_rand c + 6 * n)%nat
  /\ Forall (fresh_track w a) sts.
Proof.
  induction n as [|n IH]; intros i c sts c'; cbn [init_from].
  - intros [= <- <-]. cbn. repeat split; try lia. constructor.
  - unfold bind at 1.
    destruct (init_one w a i c) as [[st c1]|] eqn:E1; [|discriminate].
    unfold bind at 1.
    destruct (init_from w a n (i + 1)%Z c1) as [[rest c2]|] eqn:E2;
      [|discriminate].
    intros [= <- <-].
    destruct (init_one_track _ _ _ _ E1) as (Hid & Hn & Hr & Hf).
    destruct (IH _ _ _ _ E2) as (Hids & Hn' & Hr' & Hf').
    split; [|split; [congruence|split; [lia|now constructor]]].
    cbn [map seq]. f_equal.
    + rewrite Hid. do 2 f_equal. lia.
    + rewrite Hids, <- seq_shift, map_map. apply map_ext. intros k.
      do 2 f_equal. lia.
Qed.

Lemma sim_ids_NoDup (n : nat) :
  NoDup (map (fun k => String.append "sim-" (str (Z.of_nat k + 1))) (seq 0 n)).
Proof.
  apply Finite.Injective_map_NoDup; [|apply seq_NoDup].
  intros i j Hij. apply sim_id_injective in Hij. lia.
Qed.

(** The tracks a run starts with. *)
Lemma initial_tracks :
  map drone_id (states (initial_state w a))
  = map (fun k => String.append "sim-" (str (Z.of_nat k + 1)))
        (seq 0 (Z.to_nat (num_drones a)))
  /\ n_now (calls (initial_state w a)) = O
  /\ Forall (fresh_track w a) (states (initial_state w a)).
Proof.
  unfold initial_state, init_frames_states.
  destruct (TelemetryFacts.init_from_Some w a (Z.to_nat (num_drones a)) 0%Z
              no_calls) as (sts & c & E & _).
  rewrite E. cbn [states calls].
  destruct (init_from_tracks _ _ _ _ _ E) as (Hids & Hn & _ & Hf).
  repeat split; auto.
Qed.

End Start.

Section Frames.
Variable w : world.
Variable a : args.
Variable ws : transport.

(** Every message of every run: the constant fields, the time stamps in
    the order of the clock readings, and objects that come from the tracks
    the run started with. *)
Lemma frames_loop_shape (fuel : nat) :
  let msgs := sent (snd (frames_loop w a ws fuel)) in
  Forall (fun m => p_cam_id m = cam_id a /\ token_id m = token a
                   /\ image_info m = (IMAGE_WIDTH, IMAGE_HEIGHT)
                   /\ frame_shape w a (states (initial_state w a)) m) msgs
  /\ map timestamp msgs = map (utc_now w) (seq 0 (List.length msgs)).
Proof.
  set (sts0 := states (initial_state w a)).
  set (P := fun m => p_cam_id m = cam_id a /\ token_id m = token a
                     /\ image_info m = (IMAGE_WIDTH, IMAGE_HEIGHT)
                     /\ frame_shape w a sts0 m).
  set (Q := fun l => Forall P l
                     /\ map timestamp l = map (utc_now w) (seq 0 (List.length l))).
  apply (frames_loop_invariant w a ws
           (fun s => Forall2 same_track sts0 (states s)
                     /\ n_now (calls s) = List.length (sent s)
                     /\ Q (sent s))
           Q).
  - intros s (_ & _ & H). exact H.
  - intros s sts' msg c' (Hs & Hn & Hf & Ht) Eb.
    destruct (build_frame_shape _ _ _ _ _ _ _ _ _ Eb)
      as (S1 & N1 & C1 & C2 & C3 & C4 & Sh).
    cbn [states calls sent]. split; [|split; [|split]].
    + eapply same_tracks_trans; eassumption.
    + rewrite N1, Hn, length_app. cbn. lia.
    + apply Forall_app. split; [exact Hf|]. constructor; [|constructor].
      repeat split; auto. eapply frame_shape_same; eassumption.
    + rewrite map_app, length_app, seq_app, map_app, Ht. cbn.
      now rewrite C4, Hn.
  - destruct (initial_tracks w a) as (_ & Hn & _).
    destruct (TelemetryFacts.initial_state_facts w a) as (_ & _ & Hs & _).
    split; [apply same_tracks_refl|]. rewrite Hs. split; [exact Hn|].
    split; [constructor|reflexivity].
Qed.

(** X5: every frame sent, in every run, carries the camera identifier and
    the token of the command line and the image size 1920 x 1080; the time
    stamp of the [i]-th frame is the [i]-th reading of the clock. *)
Theorem frames_carry_camera_and_time (fuel : nat) :
  let msgs := sent (snd (frames_loop w a ws fuel)) in
  Forall (fun m => p_cam_id m = cam_id a /\ token_id m = token a
                   /\ image_info m = (IMAGE_WIDTH, IMAGE_HEIGHT)) msgs
  /\ map timestamp msgs = map (utc_now w) (seq 0 (List.length msgs)).
Proof.
  intros msgs. destruct (frames_loop_shape fuel) as [Hf Ht].
  split; [|exact Ht].
  eapply Forall_impl; [|exact Hf]. cbn beta. intros m (H1 & H2 & H3 & _).
  auto.
Qed.

(** X6: within every frame sent the object identifiers are pairwise
    different; every object has type "unknown" and is named either
    ["sim-k"] with [1 <= k <= num_drones], or ["fp-"] followed by the first
    six characters of a fresh UUID. *)
Theorem object_ids_distinct (fuel : nat) :
  Forall (fun m =>
            NoDup (map obj_id (objects m))
            /\ Forall (fun d =>
                 obj_type d = "unknown"%string
                 /\ ((exists k, (1 <= k <= num_drones a)%Z
                                 /\ obj_id d = String.append "sim-" (str k))
                     \/ exists h,
                          obj_id d
                          = String.append "fp-" (String.substring 0 6 h)))
                 (objects m))
         (sent (snd (frames_loop w a ws fuel))).
Proof.
  destruct (frames_loop_shape fuel) as [Hf _].
  destruct (initial_tracks w a) as (Hids & _ & Hfresh).
  eapply Forall_impl; [|exact Hf]. cbn beta.
  intros m (_ & _ & _ & objs & fp & -> & Lfp & Ffp & Fobjs & Hnd).
  assert (Hobjs : Forall (fun d => obj_type d = "unknown"%string
                     /\ exists k, (1 <= k <= num_drones a)%Z
                                  /\ obj_id d = String.append "sim-" (str k))
                   objs).
  { eapply Forall_impl; [|exact Fobjs]. cbn beta.
    intros d (st & Hin & Hid & Hty & _).
    split.
    - rewrite Hty. rewrite Forall_forall in Hfresh.
      now destruct (Hfresh st Hin) as (Ht & _).
    - assert (Hin' : In (drone_id st) (map drone_id (states (initial_state w a))))
        by now apply in_map.
      rewrite Hids in Hin'. apply in_map_iff in Hin'.
      destruct Hin' as (k & Ek & Hk). apply in_seq in Hk.
      exists (Z.of_nat k + 1)%Z. split; [lia|congruence]. }
  split.
  - rewrite map_app. apply NoDup_app.
    + apply Hnd. rewrite Hids. apply sim_ids_NoDup.
    + destruct fp as [|d [|d' fp]]; cbn in Lfp |- *; try lia;
        repeat constructor; intros [].
    + intros x Hx Hx'. apply in_map_iff in Hx, Hx'.
      destruct Hx as (d & <- & Hd). destruct Hx' as (d' & E & Hd').
      rewrite Forall_forall in Hobjs, Ffp.
      destruct (Hobjs d Hd) as (_ & k & _ & Ek).
      destruct (Ffp d' Hd') as ((h & Eh) & _).
      rewrite Ek, Eh in E. cbn in E. discriminate.
  - apply Forall_app. split.
    + eapply Forall_impl; [|exact Hobjs]. cbn beta.
      intros d (Ht & Hk). split; [exact Ht|now left].
    + eapply Forall_impl; [|exact Ffp]. cbn beta.
      intros d (Hh & Ht & _). split; [exact Ht|now right].
Qed.

Lemma py_round_within (x lo hi : R) (n : nat) :
  lo <= x <= hi ->
  lo - 1 / 2 / 10 ^ n <= py_round x n <= hi + 1 / 2 / 10 ^ n.
Proof.
  intros [H1 H2]. pose proof (ScreenFacts.py_round_near x n) as H.
  pose proof (Rle_abs (py_round x n - x)) as Ha.
  pose proof (Rle_abs (- (py_round x n - x))) as Hb.
  rewrite Rabs_Ropp in Hb. lra.
Qed.

(** X7: with validated arguments, every detection of a track reports a
    speed between 0.9 x the minimum and 1.1 x the maximum of
    [--speed-range-kt] and an altitude within wobble + 2 metres of
    [--altitude-m] (each up to the rounding to two decimals); every false
    positive reports a speed between 0 and 3.89 knots and an altitude
    within 5 metres of [--altitude-m]. *)
Theorem reported_values_in_range (fuel : nat) :
  validate_args a = true -> unit_draws w ->
  Forall (fun m =>
    Forall (fun d =>
      ((exists k, obj_id d = String.append "sim-" (str k))
       /\ fst (speed_range_kt a) * (9 / 10) - 1 / 200 <= speed_kt d
          <= snd (speed_range_kt a) * (11 / 10) + 1 / 200
       /\ Rabs (obj_alt d - altitude_m a)
          <= Rabs (altitude_wobble_m a) + 2 + 1 / 200)
      \/ ((exists h, obj_id d = String.append "fp-" (String.substring 0 6 h))
          /\ 0 <= speed_kt d <= 389 / 100
          /\ Rabs (obj_alt d - altitude_m a) <= 5 + 1 / 200))
      (objects m))
    (sent (snd (frames_loop w a ws fuel))).
Proof.
  intros Hv Hu.
  assert (Hrange : 0 < fst (speed_range_kt a) <= snd (speed_range_kt a)).
  { revert Hv. unfold validate_args.
    destruct (Rle_dec (interval_s a) 0); [discriminate|].
    destruct (Rle_dec (a_radius_m a) 0); [discriminate|].
    destruct (num_drones a <? 1)%Z; [discriminate|].
    destruct (Rle_dec (fst (speed_range_kt a)) 0); [discriminate|].
    destruct (Rlt_dec (snd (speed_range_kt a)) (fst (speed_range_kt a)));
      [discriminate|].
    intros _. lra. }
  assert (E200 : 1 / 2 / 10 ^ 2 = 1 / 200) by (cbn; field).
  destruct (frames_loop_shape fuel) as [Hf _].
  destruct (initial_tracks w a) as (Hids & _ & Hfresh).
  eapply Forall_impl; [|exact Hf]. cbn beta.
  intros m (_ & _ & _ & objs & fp & -> & _ & Ffp & Fobjs & _).
  apply Forall_app. split.
  - eapply Forall_impl; [|exact Fobjs]. cbn beta.
    intros d (st & Hin & Hid & _ & (i & Hs) & (phase & j & Ha)).
    left. rewrite Forall_forall in Hfresh.
    destruct (Hfresh st Hin) as (_ & Hb & Hwb & Hsp & _).
    specialize (Hsp Hu (proj2 Hrange)).
    split; [|split].
    + assert (Hin' : In (drone_id st)
                        (map drone_id (states (initial_state w a))))
        by now apply in_map.
      rewrite Hids in Hin'. apply in_map_iff in Hin'.
      destruct Hin' as (k & Ek & _). eexists. rewrite Hid, <- Ek. reflexivity.
    + rewrite Hs, <- E200. apply py_round_within.
      pose proof (Hu i) as Hi. unfold KNOTS_TO_MPS in *.
      set (sb := speed_base_mps st) in *.
      set (u := 9 / 10 + (11 / 10 - 9 / 10) * rand w i).
      assert (9 / 10 <= u <= 11 / 10) by (subst u; lra).
      replace (sb * u / (514444 / 1000000))
        with (sb / (514444 / 1000000) * u) by (field; lra).
      assert (fst (speed_range_kt a) <= sb / (514444 / 1000000)
              <= snd (speed_range_kt a)).
      { split.
        - apply (Rmult_le_reg_r (514444 / 1000000)); [lra|].
          unfold Rdiv at 2. rewrite Rmult_assoc, Rinv_l; lra.
        - apply (Rmult_le_reg_r (514444 / 1000000)); [lra|].
          unfold Rdiv at 1. rewrite Rmult_assoc, Rinv_l; lra. }
      split; nra.
    + rewrite Ha, Hb, Hwb.
      set (x := altitude_m a + altitude_wobble_m a * sin phase
                + (- (2) + (2 - - (2)) * rand w j)).
      pose proof (ScreenFacts.py_round_near x 2) as Hn. rewrite E200 in Hn.
      assert (Hx : Rabs (x - altitude_m a) <= Rabs (altitude_wobble_m a) + 2).
      { subst x.
        replace (altitude_m a + altitude_wobble_m a * sin phase
                 + (- (2) + (2 - - (2)) * rand w j) - altitude_m a)
          with (altitude_wobble_m a * sin phase
                + (- (2) + 4 * rand w j)) by ring.
        eapply Rle_trans; [apply Rabs_triang|].
        apply Rplus_le_compat.
        - rewrite Rabs_mult. rewrite <- (Rmult_1_r (Rabs (altitude_wobble_m a))) at 2.
          apply Rmult_le_compat_l; [apply Rabs_pos|].
          apply Rabs_le. pose proof (SIN_bound phase). lra.
        - apply Rabs_le. pose proof (Hu j). lra. }
      replace (py_round x 2 - altitude_m a)
        with ((py_round x 2 - x) + (x - altitude_m a)) by ring.
      eapply Rle_trans; [apply Rabs_triang|]. lra.
  - eapply Forall_impl; [|exact Ffp]. cbn beta.
    intros d (Hh & _ & (i & Hs) & (j & Ha)).
    right. split; [exact Hh|]. split.
    + rewrite Hs.
      pose proof (ScreenFacts.py_round_between
                    ((0 + (2 - 0) * rand w i) / KNOTS_TO_MPS) 0 389 2) as H.
      cbn [pow] in H. replace (10 * (10 * 1)) with 100 in H by ring.
      replace (0 / 100) with 0 in H by field.
      apply H. pose proof (Hu i) as Hi. unfold KNOTS_TO_MPS.
      split.
      * apply Rmult_le_pos; [lra|]. apply Rlt_le, Rinv_0_lt_compat. lra.
      * apply (Rmult_le_reg_r (514444 / 1000000)); [lra|].
        unfold Rdiv at 1. rewrite Rmult_assoc, Rinv_l; lra.
    + rewrite Ha.
      set (x := altitude_m a + (- (5) + (5 - - (5)) * rand w j)).
      pose proof (ScreenFacts.py_round_near x 2) as Hn. rewrite E200 in Hn.
      assert (Hx : Rabs (x - altitude_m a) <= 5).
      { subst x. apply Rabs_le. pose proof (Hu j). lra. }
      replace (py_round x 2 - altitude_m a)
        with ((py_round x 2 - x) + (x - altitude_m a)) by ring.
      eapply Rle_trans; [apply Rabs_triang|]. lra.
Qed.

End Frames.

Section Control.
Variable w : world.
Variable a : args.
Variable ws : transport.

(** [k] quiet ticks in a row, with at least [k] updates left. *)
Lemma run_quiet_prefix (k : nat) : forall fuel s,
  Forall radius_ok (states s) ->
  (forall i, (ticks s <= i < ticks s + k)%nat ->
             quiet_tick a (tick_events ws i)) ->
  match updates_remaining s with
  | None => True
  | Some r => (Z.of_nat k <= r)%Z
  end ->
  exists s',
    run w a ws (k + fuel) s = run w a ws fuel s'
    /\ ticks s' = (ticks s + k)%nat
    /\ frame_id s' = (frame_id s + Z.of_nat k)%Z
    /\ List.length (sent s') = (List.length (sent s) + k)%nat
    /\ updates_remaining s'
       = match updates_remaining s with
         | None => None
         | Some r => Some (r - Z.of_nat k)%Z
         end
    /\ Forall radius_ok (states s').
Proof.
  induction k as [|k IH]; intros fuel s Hrad Hq Hup.
  - exists s. cbn [Nat.add]. repeat split; auto; try lia.
    destruct (updates_remaining s); [f_equal; lia|reflexivity].
  - assert (Hk : keep_going (updates_remaining s) = true).
    { destruct (updates_remaining s); [|reflexivity].
      cbn [keep_going]. apply Z.ltb_lt. lia. }
    pose proof (TelemetryFacts.build_frame_total w a (frame_id s) (interval_s a)
                  (states s) (calls s) Hrad) as Hb.
    destruct (build_frame w a (frame_id s) (interval_s a) (states s) (calls s))
      as [[[sts' msg] c']|] eqn:Eb; [|contradiction].
    destruct (TelemetryFacts.build_frame_Some w a _ _ _ _ _ _ _ Eb)
      as (_ & _ & _ & _ & _ & R).
    cbn [Nat.add run].
    rewrite (TelemetryFacts.tick_quiet w a ws s sts' msg c' Hk Eb
               (Hq (ticks s) ltac:(lia))).
    destruct (IH fuel
                {| states := sts'; frame_id := (frame_id s + 1)%Z;
                   updates_remaining := count_down (updates_remaining s);
                   calls := c'; ticks := S (ticks s);
                   sent := sent s ++ [msg] |})
      as (s' & Er & Ht & Hf & Hl & Hu & Hr).
    + cbn [states]. now apply R.
    + cbn [ticks]. intros i Hi. apply Hq. lia.
    + cbn [updates_remaining]. destruct (updates_remaining s) as [r|]; [|exact I].
      cbn [count_down].
      destruct (Z.eqb_spec r 0); lia.
    + exists s'. split; [exact Er|].
      cbn [ticks frame_id sent updates_remaining] in Ht, Hf, Hl, Hu.
      rewrite length_app in Hl. cbn [List.length] in Hl.
      repeat split; auto; try lia.
      rewrite Hu. destruct (updates_remaining s) as [r|]; [|reflexivity].
      cbn [count_down]. destruct (Z.eqb_spec r 0); f_equal; lia.
Qed.

Lemma initial_state_start :
  validate_args a = true -> unit_draws w ->
  Forall radius_ok (states (initial_state w a))
  /\ ticks (initial_state w a) = O
  /\ frame_id (initial_state w a) = 0%Z
  /\ sent (initial_state w a) = []
  /\ updates_remaining (initial_state w a)
     = (if (0 <? updates a)%Z then Some (updates a) else None).
Proof.
  intros Hv Hu.
  destruct (TelemetryFacts.initial_state_facts w a)
    as ([_ Hf _ _] & Hur & Hs & Ht & _ & Hr).
  rewrite Hs in Hf. cbn in Hf.
  repeat split; auto.
  apply Hr; [|exact Hu]. now apply TelemetryFacts.validate_args_radius.
Qed.

(** X8: with validated arguments and [--updates 0] (or any count that is
    not positive) the loop never ends on its own: after any number of
    ticks during which nothing interrupts it, it has sent exactly that
    many frames and is still running. *)
Theorem continuous_mode_keeps_sending (cl : command_line options)
    (fuel : nat) :
  parse_args cl = Namespace a ->
  validate_args a = true -> unit_draws w ->
  (updates a <= 0)%Z ->
  uninterrupted a ws fuel ->
  fst (frames_loop w a ws fuel) = OutOfFuel
  /\ List.length (sent (snd (frames_loop w a ws fuel))) = fuel
  /\ main fuel w cl (Connected ws) = Running.
Proof.
  intros Hcl Hv Hu Hup [Hw Hq].
  destruct (initial_state_start Hv Hu) as (Hr & Ht & _ & Hs & Hur).
  replace (0 <? updates a)%Z with false in Hur
    by (symmetry; apply Z.ltb_ge; lia).
  assert (E : fst (frames_loop w a ws fuel) = OutOfFuel
              /\ List.length (sent (snd (frames_loop w a ws fuel))) = fuel).
  { unfold frames_loop. rewrite Hw.
    destruct (run_quiet_prefix fuel 0 (initial_state w a) Hr)
      as (s' & Er & _ & _ & Hl & _).
    - rewrite Ht. intros i Hi. apply Hq. lia.
    - now rewrite Hur.
    - rewrite Nat.add_0_r in Er. rewrite Er. cbn [run fst snd].
      rewrite Hl, Hs. split; reflexivity. }
  destruct E as [E1 E2]. repeat split; auto.
  unfold main, main_async. rewrite Hcl, Hv. cbn [negb]. now rewrite E1.
Qed.

(** X9: with validated arguments, when the send of tick [k] (counting
    from 0, and within the number of updates asked for) is the first await
    to raise, the loop stops there: exactly [k] frames were sent and the
    frame counter stands at [k].  The program returns 0 after a
    [KeyboardInterrupt] or a closed connection and 1 after any other
    [Exception] ([OSError] and [InvalidURI] among them); a cancellation,
    which is no [Exception], is caught by no handler and leaves the
    program. *)
Theorem send_failure_ends_run (cl : command_line options) (k fuel : nat)
    (e : exn) :
  parse_args cl = Namespace a ->
  validate_args a = true -> unit_draws w ->
  (updates a <= 0 \/ Z.of_nat k < updates a)%Z ->
  uninterrupted a ws k ->
  send_raises (tick_events ws k) = Some e ->
  (k < fuel)%nat ->
  fst (frames_loop w a ws fuel)
  = match e with
    | KeyboardInterrupt => StoppedByUser
    | ConnectionClosed => ClosedByServer
    | OSError | InvalidURI | OtherException => Failed
    | CancelledError => Escaped CancelledError
    end
  /\ List.length (sent (snd (frames_loop w a ws fuel))) = k
  /\ frame_id (snd (frames_loop w a ws fuel)) = Z.of_nat k
  /\ main fuel w cl (Connected ws)
     = match e with
       | KeyboardInterrupt | ConnectionClosed => Returns 0%Z
       | OSError | InvalidURI | OtherException => Returns 1%Z
       | CancelledError => Propagates CancelledError
       end.
Proof.
  intros Hcl Hv Hu Hup [Hw Hq] He Hfuel.
  destruct (initial_state_start Hv Hu) as (Hr & Ht & Hf & Hs & Hur).
  assert (E : fst (frames_loop w a ws fuel) = exit_of_exn e
              /\ List.length (sent (snd (frames_loop w a ws fuel))) = k
              /\ frame_id (snd (frames_loop w a ws fuel)) = Z.of_nat k).
  { unfold frames_loop. rewrite Hw.
    destruct (run_quiet_prefix k (fuel - k) (initial_state w a) Hr)
      as (s' & Er & Ht' & Hf' & Hl & Hu' & Hr').
    - rewrite Ht. intros i Hi. apply Hq. lia.
    - rewrite Hur. destruct (Z.ltb_spec 0 (updates a)); [lia|exact I].
    - replace (k + (fuel - k))%nat with fuel in Er by lia. rewrite Er.
      destruct (fuel - k)%nat as [|f] eqn:Ef; [lia|]. cbn [run].
      assert (Hk : keep_going (updates_remaining s') = true).
      { rewrite Hu', Hur. destruct (Z.ltb_spec 0 (updates a)); [|reflexivity].
        cbn [keep_going]. apply Z.ltb_lt. lia. }
      pose proof (TelemetryFacts.build_frame_total w a (frame_id s')
                    (interval_s a) (states s') (calls s') Hr') as Hb.
      unfold tick. rewrite Hk.
      destruct (build_frame w a (frame_id s') (interval_s a) (states s')
                  (calls s')) as [[[sts' msg] c']|]; [|contradiction].
      rewrite Ht', Ht. cbn [Nat.add]. rewrite He. cbn [fst snd sent frame_id].
      rewrite Hl, Hs, Hf', Hf. cbn. repeat split; lia. }
  destruct E as (E1 & E2 & E3).
  split; [rewrite E1; now destruct e|].
  split; [exact E2|]. split; [exact E3|].
  unfold main, main_async. rewrite Hcl, Hv. cbn [negb]. rewrite E1.
  now destruct e.
Qed.

Lemma tick_counter (s : loop_state) :
  frame_id s = Z.of_nat (List.length (sent s)) ->
  match tick w a ws s with
  | Continue s' => frame_id s' = Z.of_nat (List.length (sent s'))
  | Exit e s' =>
      frame_id s' = Z.of_nat (List.length (sent s'))
      \/ ((frame_id s' + 1)%Z = Z.of_nat (List.length (sent s'))
          /\ show_responses a = true /\ e <> Finished /\ e <> OutOfFuel)
  end.
Proof.
  intros Hf. unfold tick.
  destruct (keep_going (updates_remaining s)); [|now left].
  destruct (build_frame w a (frame_id s) (interval_s a) (states s) (calls s))
    as [[[sts' msg] c']|]; [|now left].
  destruct (send_raises (tick_events ws (ticks s))); [now left|].
  destruct (show_responses a) eqn:Es.
  - destruct (recv_escapes (response (tick_events ws (ticks s)))) as [e|].
    + right. cbn [frame_id sent]. rewrite length_app. cbn [List.length].
      repeat split; try lia; destruct e; discriminate.
    + destruct (sleep_raises (tick_events ws (ticks s)));
        [left|]; cbn [frame_id sent]; rewrite length_app; cbn [List.length]; lia.
  - destruct (sleep_raises (tick_events ws (ticks s)));
      [left|]; cbn [frame_id sent]; rewrite length_app; cbn [List.length]; lia.
Qed.

(** X10: however a run ends, the frame counter (the number reported as
    "Total frames sent") equals the number of frames handed to the socket,
    except when the run is cut short while a response is being read, which
    happens only with [--show-responses]: then it is one less. *)
Theorem frame_counter_follows_sent (fuel : nat) :
  let r := frames_loop w a ws fuel in
  frame_id (snd r) = Z.of_nat (List.length (sent (snd r)))
  \/ ((frame_id (snd r) + 1)%Z = Z.of_nat (List.length (sent (snd r)))
      /\ show_responses a = true
      /\ fst r <> Finished /\ fst r <> OutOfFuel).
Proof.
  assert (Hrun : forall fuel s,
            frame_id s = Z.of_nat (List.length (sent s)) ->
            let r := run w a ws fuel s in
            frame_id (snd r) = Z.of_nat (List.length (sent (snd r)))
            \/ ((frame_id (snd r) + 1)%Z = Z.of_nat (List.length (sent (snd r)))
                /\ show_responses a = true
                /\ fst r <> Finished /\ fst r <> OutOfFuel)).
  { clear fuel. induction fuel as [|fuel IH]; intros s Hs; cbn [run].
    - now left.
    - pose proof (tick_counter s Hs) as Ht.
      destruct (tick w a ws s) as [s'|e s']; [now apply IH|exact Ht]. }
  destruct (TelemetryFacts.initial_state_facts w a) as ([_ Hf _ _] & _).
  unfold frames_loop. destruct (recv_escapes (welcome ws)).
  - left. exact Hf.
  - now apply Hrun.
Qed.

(** X11: without [--show-responses] nothing is read from the socket after
    the welcome: two servers that differ only in what they answer to the
    frames give the same run. *)
Theorem responses_unread_without_flag (ws' : transport) (fuel : nat) :
  show_responses a = false ->
  welcome ws' = welcome ws ->
  (forall i, send_raises (tick_events ws' i) = send_raises (tick_events ws i)
             /\ sleep_raises (tick_events ws' i)
                = sleep_raises (tick_events ws i)) ->
  frames_loop w a ws' fuel = frames_loop w a ws fuel.
Proof.
  intros Hs Hw Hio.
  assert (Ht : forall s, tick w a ws' s = tick w a ws s).
  { intros s. unfold tick. rewrite Hs.
    destruct (Hio (ticks s)) as [-> ->]. reflexivity. }
  assert (Hr : forall s, run w a ws' fuel s = run w a ws fuel s).
  { induction fuel as [|f IH]; intros s; cbn [run]; [reflexivity|].
    rewrite Ht. destruct (tick w a ws s); [apply IH|reflexivity]. }
  unfold frames_loop. rewrite Hw. destruct (recv_escapes (welcome ws)); auto.
Qed.

End Control.

(** X4: for finite arguments, with the floats read as real numbers,
    [init_frames_states] returns [num_drones] tracks (none when that
    number is not positive), named ["sim-1"], ["sim-2"],
    ... in order, hence pairwise different; each is of type "unknown" and
    has the altitude and the wobble of the command line; each costs five
    or six draws of [random()].  With draws in [0, 1), a track has a base
    speed within the speed range turned into metres per second (when the
    range is ordered) and, for a radius that is not negative, an orbit
    radius between 70% and 130% of [--radius-m] with a phase in [0, 2 pi)
    when it orbits, the radius itself and a bearing in [0, 2 pi) when it
    flies straight, and it starts within a quarter of the radius of the
    centre. *)
Theorem init_frames_states_tracks (w : world) (a : args) (c : counters) :
  exists sts c',
    init_frames_states w a c = Some (sts, c')
    /\ map drone_id sts
       = map (fun k => String.append "sim-" (str (Z.of_nat k + 1)))
             (seq 0 (Z.to_nat (num_drones a)))
    /\ NoDup (map drone_id sts)
    /\ Forall (fresh_track w a) sts
    /\ (n_rand c + 5 * List.length sts <= n_rand c'
        <= n_rand c + 6 * List.length sts)%nat.
Proof.
  unfold init_frames_states.
  destruct (TelemetryFacts.init_from_Some w a (Z.to_nat (num_drones a)) 0%Z c)
    as (sts & c' & E & L & _).
  exists sts, c'. split; [exact E|].
  destruct (init_from_tracks _ _ _ _ _ _ _ E) as (Hids & _ & Hr & Hf).
  cbn in Hids.
  split; [exact Hids|]. split; [rewrite Hids; apply sim_ids_NoDup|].
  split; [exact Hf|]. now rewrite L.
Qed.

Lemma two_drones_continuous_valid :
  validate_args Samples.two_drones_continuous = true.
Proof.
  unfold validate_args, Samples.two_drones_continuous.
  cbn [interval_s a_radius_m num_drones speed_range_kt miss_rate
       false_positive_rate fst snd].
  repeat match goal with
         | |- context [Rle_dec ?x ?y] => destruct (Rle_dec x y); try lra
         | |- context [Rlt_dec ?x ?y] => destruct (Rlt_dec x y); try lra
         end.
  reflexivity.
Qed.

Lemma reported_values_in_range_example :
  Forall (fun m =>
    Forall (fun d =>
      ((exists k, obj_id d = String.append "sim-" (str k))
       /\ 6 * (9 / 10) - 1 / 200 <= speed_kt d <= 24 * (11 / 10) + 1 / 200
       /\ Rabs (obj_alt d - 120) <= Rabs 8 + 2 + 1 / 200)
      \/ ((exists h, obj_id d = String.append "fp-" (String.substring 0 6 h))
          /\ 0 <= speed_kt d <= 389 / 100
          /\ Rabs (obj_alt d - 120) <= 5 + 1 / 200))
      (objects m))
    (sent (snd (frames_loop Samples.still_world Samples.two_drones_five_updates
                  Samples.calm_socket 6))).
Proof.
  apply (reported_values_in_range Samples.still_world
           Samples.two_drones_five_updates Samples.calm_socket 6).
  - exact TelemetryFacts.two_drones_args_valid.
  - exact TelemetryFacts.still_world_unit_draws.
Defined.

Lemma continuous_mode_keeps_sending_example :
  fst (frames_loop Samples.still_world Samples.two_drones_continuous
         Samples.calm_socket 7) = OutOfFuel
  /\ List.length
       (sent (snd (frames_loop Samples.still_world
                     Samples.two_drones_continuous Samples.calm_socket 7)))
     = 7%nat
  /\ main 7 Samples.still_world Samples.two_drones_continuous_command
       (Connected Samples.calm_socket) = Running.
Proof.
  apply (continuous_mode_keeps_sending Samples.still_world
           Samples.two_drones_continuous Samples.calm_socket
           Samples.two_drones_continuous_command 7).
  - exact TelemetryFacts.two_drones_continuous_command_parses.
  - exact two_drones_continuous_valid.
  - exact TelemetryFacts.still_world_unit_draws.
  - cbn. lia.
  - split; [reflexivity|]. intros i _. repeat split; try discriminate.
Defined.

Lemma send_failure_ends_run_example :
  fst (frames_loop Samples.still_world Samples.two_drones_five_updates
         Samples.closing_socket 6) = ClosedByServer
  /\ List.length
       (sent (snd (frames_loop Samples.still_world
                     Samples.two_drones_five_updates Samples.closing_socket 6)))
     = 2%nat
  /\ frame_id (snd (frames_loop Samples.still_world
                      Samples.two_drones_five_updates
                      Samples.closing_socket 6)) = 2%Z
  /\ main 6 Samples.still_world Samples.two_drones_five_command
       (Connected Samples.closing_socket) = Returns 0%Z.
Proof.
  apply (send_failure_ends_run Samples.still_world
           Samples.two_drones_five_updates Samples.closing_socket
           Samples.two_drones_five_command 2 6 ConnectionClosed).
  - exact TelemetryFacts.two_drones_command_parses.
  - exact TelemetryFacts.two_drones_args_valid.
  - exact TelemetryFacts.still_world_unit_draws.
  - right. cbn. lia.
  - split; [reflexivity|]. intros i Hi.
    destruct i as [|[|i]]; [| |lia]; repeat split; try discriminate.
  - reflexivity.
  - lia.
Defined.

Lemma responses_unread_without_flag_example :
  frames_loop Samples.still_world Samples.two_drones_five_updates
    Samples.chatty_socket 6
  = frames_loop Samples.still_world Samples.two_drones_five_updates
      Samples.calm_socket 6.
Proof.
  apply (responses_unread_without_flag Samples.still_world
           Samples.two_drones_five_updates Samples.calm_socket
           Samples.chatty_socket 6).
  - reflexivity.
  - reflexivity.
  - intros i. split; reflexivity.
Defined.

End TelemetryRuns.

Module BinaryImageRuns.
Import Py Ws BinaryImage.
Local Open Scope Z_scope.

Section Counted.
Variable a : args.
Variable ws : session.
Variable files : list dir_entry.
Hypothesis no_loop : loop a = false.
Hypothesis quiet :
  forall i, (i < List.length files)%nat ->
            quiet_tick (tick_events (socket ws) i).

(** With [r] updates left and the first [length done] files behind it, the
    loop sends the first [r] readable files among those that remain. *)
Lemma run_sends_counted (todo : list dir_entry) : forall done fuel s r,
  files = done ++ todo ->
  (List.length todo < fuel)%nat ->
  updates_remaining s = Some (Z.of_nat r) ->
  image_index s = List.length done ->
  0 <= frame_count s <= Z.of_nat (List.length done) ->
  exists e s',
    run a ws files fuel s = (e, s')
    /\ (e = Finished \/ e = SentAll)
    /\ sent s' = sent s ++ map Image (firstn r (readable todo))
    /\ frame_count s'
       = frame_count s + Z.of_nat (List.length (firstn r (readable todo))).
Proof.
  induction todo as [|f todo IH]; intros done fuel s r Hfiles Hfuel Hur Hidx Hfc;
    (destruct fuel as [|fuel]; [cbn in Hfuel; lia|]); cbn [run]; unfold tick;
    rewrite Hur; cbn [keep_going].
  - destruct r as [|r].
    + cbn. exists Finished, s. rewrite app_nil_r. repeat split; auto. lia.
    + replace (0 <? Z.of_nat (S r)) with true by (symmetry; apply Z.ltb_lt; lia).
      rewrite Hidx, Hfiles, app_nil_r, Nat.leb_refl, no_loop. cbn [negb andb].
      exists SentAll, s. cbn [readable flat_map firstn map List.length].
      rewrite app_nil_r. repeat split; auto. lia.
  - destruct r as [|r].
    + cbn. exists Finished, s. rewrite app_nil_r. repeat split; auto. lia.
    + replace (0 <? Z.of_nat (S r)) with true by (symmetry; apply Z.ltb_lt; lia).
      assert (Hlen : (List.length done < List.length files)%nat).
      { rewrite Hfiles, length_app. cbn. lia. }
      replace (List.length files <=? image_index s)%nat with false
        by (symmetry; apply Nat.leb_gt; lia).
      cbn [andb]. rewrite Hidx.
      replace (nth_error files (List.length done)) with (Some f).
      2:{ rewrite Hfiles, nth_error_app2, Nat.sub_diag by lia. reflexivity. }
      assert (Hfiles' : files = (done ++ [f]) ++ todo)
        by (rewrite <- app_assoc; exact Hfiles).
      assert (Hlen' : List.length (done ++ [f]) = S (List.length done))
        by (rewrite length_app; cbn; lia).
      cbn [readable flat_map].
      destruct (data f) as [image_data|] eqn:Ed.
      * assert (Hq : (Z.to_nat (frame_count s) < List.length files)%nat) by lia.
        destruct (quiet _ Hq) as (Qs & Qr & Qz).
        rewrite Qs, Qr.
        cbn [updates_remaining count_down keep_going frame_count image_index
             skipped sent].
        replace (Z.of_nat (S r) =? 0) with false
          by (symmetry; apply Z.eqb_neq; lia).
        cbn [keep_going]. rewrite Qz.
        set (s3 := {| frame_count := frame_count s + 1;
                      updates_remaining := Some (Z.of_nat (S r) - 1);
                      image_index := S (List.length done);
                      skipped := skipped s;
                      sent := sent s ++ [Image image_data] |}).
        assert (Hnext : exists e s',
                  run a ws files fuel s3 = (e, s')
                  /\ (e = Finished \/ e = SentAll)
                  /\ sent s' = sent s3 ++ map Image (firstn r (readable todo))
                  /\ frame_count s'
                     = frame_count s3
                       + Z.of_nat (List.length (firstn r (readable todo)))).
        { apply (IH (done ++ [f]) fuel s3 r);
            [ exact Hfiles' | cbn in Hfuel; lia
            | unfold s3; cbn [updates_remaining]; f_equal; lia
            | unfold s3; cbn [image_index]; now rewrite Hlen'
            | unfold s3; cbn [frame_count]; rewrite Hlen'; lia ]. }
        destruct Hnext as (e & s' & Er & He & Es & Ec).
        exists e, s'.
        assert (Hrun : (if 0 <? Z.of_nat (S r) - 1
                        then Continue s3 else Continue s3) = Continue s3)
          by (destruct (0 <? Z.of_nat (S r) - 1); reflexivity).
        fold s3. rewrite Hrun.
        split; [exact Er|]. split; [exact He|].
        unfold s3 in Es, Ec; cbn [sent frame_count] in Es, Ec. rewrite Es, Ec.
        cbn [app firstn map List.length]. rewrite <- app_assoc. cbn [app].
        fold (readable todo). split; [reflexivity|lia].
      * set (s1 := {| frame_count := frame_count s;
                      updates_remaining := Some (Z.of_nat (S r));
                      image_index := S (List.length done);
                      skipped := skipped s ++ [name f];
                      sent := sent s |}).
        destruct (IH (done ++ [f]) fuel s1 (S r)) as (e & s' & Er & He & Es & Ec);
          [ exact Hfiles' | cbn in Hfuel; lia | reflexivity
          | unfold s1; cbn [image_index]; now rewrite Hlen'
          | unfold s1; cbn [frame_count]; rewrite Hlen'; lia | ].
        exists e, s'. split; [exact Er|]. split; [exact He|].
           unfold s1 in Es, Ec; cbn [sent frame_count] in Es, Ec. cbn [app].
           fold (readable todo). split; assumption.
Qed.

End Counted.

Lemma send_loop_counted (a : args) (ws : session) (files : list dir_entry)
    (sent0 : list message) (fuel N : nat) :
  updates a = Z.of_nat N -> (0 < N)%nat -> loop a = false ->
  (forall i, (i < List.length files)%nat ->
             quiet_tick (tick_events (socket ws) i)) ->
  (List.length files < fuel)%nat ->
  exists final,
    send_loop fuel a ws files sent0 = Returned 0 final
    /\ sent final = sent0 ++ map Image (firstn N (readable files))
    /\ frame_count final
       = Z.of_nat (Nat.min N (List.length (readable files))).
Proof.
  intros Hup HN Hloop Hq Hfuel.
  destruct (run_sends_counted a ws files Hloop Hq files [] fuel
              (start_state a sent0) N)
    as (e & s' & Er & He & Es & Ec);
    [ reflexivity | assumption | | reflexivity | cbn; lia | ].
  - unfold start_state. cbn [updates_remaining]. rewrite Hup.
    replace (0 <? Z.of_nat N) with true by (symmetry; apply Z.ltb_lt; lia).
    reflexivity.
  - exists s'. unfold send_loop. rewrite Er.
    cbn [start_state sent frame_count] in Es, Ec.
    rewrite length_firstn in Ec.
    split; [|split; [exact Es|lia]].
    destruct He as [-> | ->]; reflexivity.
Qed.

(** X13: with [--updates N], [N > 0], and looping off, a run that nothing
    interrupts sends the first [N] readable images in ascending order of
    name (all of them when there are fewer), after the metadata message
    when one is requested, skipping the unreadable ones without counting
    them, and returns 0. *)
Theorem counted_run_sends_first_images
    (a : args) (ws : session) (entries : list dir_entry) (fuel N : nat) :
  frames_dir a = Directory entries ->
  updates a = Z.of_nat N -> (0 < N)%nat -> loop a = false ->
  filter is_image entries <> [] ->
  undisturbed a ws (List.length (filter is_image entries)) ->
  (List.length (filter is_image entries) < fuel)%nat ->
  let files := sort_by name (filter is_image entries) in
  exists final,
    send_binary_images fuel a ws = Returned 0 final
    /\ sent final
       = (if send_metadata_json a
          then [Metadata (device_id a) (camera_id a) (metadata_time ws)]
          else [])
         ++ map Image (firstn N (readable files))
    /\ frame_count final
       = Z.of_nat (Nat.min N (List.length (readable files))).
Proof.
  intros Hdir Hup HN Hloop Hne (Hw & Hm & Hq) Hfuel files.
  assert (Hperm : Permutation files (filter is_image entries))
    by apply PyFacts.sort_by_perm.
  assert (Hlen : List.length files = List.length (filter is_image entries))
    by now apply Permutation_length.
  unfold send_binary_images, get_image_files. rewrite Hdir. fold files.
  destruct files as [|f0 rest] eqn:Efiles.
  { apply Permutation_nil in Hperm. now contradiction Hne. }
  rewrite <- Efiles in *. rewrite Hw.
  destruct (send_metadata_json a).
  - destruct (Hm eq_refl) as [-> ->].
    apply send_loop_counted; auto; rewrite Hlen; auto.
  - apply send_loop_counted; auto; rewrite Hlen; auto.
Qed.

Lemma readable_all (files : list dir_entry) :
  Forall (fun f => data f <> None) files ->
  List.length (readable files) = List.length files
  /\ forall i f, nth_error files i = Some f ->
                 data f = Some (nth i (readable files) []).
Proof.
  induction 1 as [|f files Hf _ [IHl IHn]]; cbn [readable flat_map].
  - split; [reflexivity|]. intros [|i] f; discriminate.
  - destruct (data f) as [d|] eqn:Ed; [|contradiction].
    fold (readable files). cbn [app List.length]. split; [now rewrite IHl|].
    intros [|i] f' Hi; cbn in Hi |- *.
    + injection Hi as <-. exact Ed.
    + now apply IHn.
Qed.

Section Looping.
Variable a : args.
Variable ws : session.
Variable files : list dir_entry.
Hypothesis looping : loop a = true.
Hypothesis nonempty : files <> [].
Hypothesis all_readable : Forall (fun f => data f <> None) files.

(** [r] sends in a row, the [j]-th message of the run being the file at
    index [j mod length files]. *)
Lemma run_cycles (r : nat) : forall fuel s k,
  (forall i, (k <= i < k + r)%nat -> quiet_tick (tick_events (socket ws) i)) ->
  frame_count s = Z.of_nat k ->
  (image_index s <= List.length files)%nat ->
  (image_index s mod List.length files = k mod List.length files)%nat ->
  match updates_remaining s with
  | None => True
  | Some u => Z.of_nat r <= u
  end ->
  exists s',
    run a ws files (r + fuel) s = run a ws files fuel s'
    /\ sent s'
       = sent s
         ++ map (fun j => Image (nth (j mod List.length files)
                                     (readable files) []))
                (seq k r)
    /\ frame_count s' = Z.of_nat (k + r)
    /\ updates_remaining s'
       = match updates_remaining s with
         | None => None
         | Some u => Some (u - Z.of_nat r)
         end.
Proof.
  assert (Hn : (0 < List.length files)%nat)
    by (destruct files; [contradiction|cbn; lia]).
  induction r as [|r IH]; intros fuel s k Hq Hfc Hle Hmod Hup.
  - exists s. cbn [Nat.add seq map]. rewrite app_nil_r, Nat.add_0_r.
    repeat split; auto.
    destruct (updates_remaining s); [f_equal; lia|reflexivity].
  - cbn [Nat.add run]. unfold tick.
    assert (Hk : keep_going (updates_remaining s) = true).
    { destruct (updates_remaining s); [|reflexivity].
      cbn [keep_going]. apply Z.ltb_lt. lia. }
    rewrite Hk, looping. cbn [negb]. rewrite andb_false_r.
    set (i0 := if (List.length files <=? image_index s)%nat
               then O else image_index s).
    assert (Hi0 : i0 = (k mod List.length files)%nat).
    { subst i0. destruct (Nat.leb_spec (List.length files) (image_index s)).
      - assert (image_index s = List.length files) by lia.
        rewrite <- Hmod, H0, Nat.Div0.mod_same. reflexivity.
      - rewrite <- Hmod, Nat.mod_small; [reflexivity|assumption]. }
    assert (Hlt : (i0 < List.length files)%nat)
      by (rewrite Hi0; apply Nat.mod_upper_bound; lia).
    destruct (nth_error files i0) as [f|] eqn:Ef.
    2:{ apply nth_error_None in Ef. lia. }
    destruct (readable_all files all_readable) as [_ Hdata].
    rewrite (Hdata _ _ Ef).
    destruct (Hq k ltac:(lia)) as (Qs & Qr & Qz).
    rewrite Hfc, Nat2Z.id, Qs, Qr.
    cbn [updates_remaining frame_count image_index skipped sent].
    set (s3 := {| frame_count := Z.of_nat k + 1;
                  updates_remaining := count_down (updates_remaining s);
                  image_index := S i0;
                  skipped := skipped s;
                  sent := sent s ++ [Image (nth i0 (readable files) [])] |}).
    assert (Hrun : (if keep_going (count_down (updates_remaining s))
                    then match sleep_raises (tick_events (socket ws) k) with
                         | Some e => Exit (exit_of_exn e) s3
                         | None => Continue s3
                         end
                    else Continue s3) = Continue s3)
      by (rewrite Qz;
          destruct (keep_going (count_down (updates_remaining s)));
          reflexivity).
    fold s3. rewrite Hrun.
    destruct (IH fuel s3 (S k)) as (s' & Er & Es & Ec & Eu).
    + intros i Hi. apply Hq. lia.
    + unfold s3. cbn [frame_count]. lia.
    + unfold s3. cbn [image_index]. lia.
    + unfold s3. cbn [image_index]. rewrite Hi0.
      replace (S (k mod List.length files))
        with (k mod List.length files + 1)%nat by lia.
      rewrite Nat.Div0.add_mod_idemp_l. f_equal. lia.
    + unfold s3. cbn [updates_remaining].
      destruct (updates_remaining s) as [u|]; [|exact I].
      cbn [count_down]. destruct (Z.eqb_spec u 0); lia.
    + exists s'. split; [exact Er|].
      unfold s3 in Es, Ec, Eu. cbn [sent updates_remaining] in Es, Eu.
      rewrite Es, Ec, Eu, <- app_assoc. cbn [app seq map]. rewrite Hi0.
      repeat split; try (f_equal; lia).
      destruct (updates_remaining s) as [u|]; [|reflexivity].
      cbn [count_down]. destruct (Z.eqb_spec u 0); f_equal; lia.
Qed.

End Looping.

(** X14: with [--loop] and every image readable, in a run that nothing
    interrupts the [j]-th binary message (counting from 0) is the image at
    index [j mod n] of the [n] images in name order; with [--updates N],
    [N > 0], the run ends after exactly [N] messages and returns 0, and
    with [--updates 0] it never ends on its own. *)
Theorem looping_run_cycles
    (a : args) (ws : session) (entries : list dir_entry) (fuel : nat) :
  frames_dir a = Directory entries -> loop a = true ->
  let files := sort_by name (filter is_image entries) in
  files <> [] -> Forall (fun f => data f <> None) files ->
  undisturbed a ws fuel ->
  let prefix := if send_metadata_json a
                then [Metadata (device_id a) (camera_id a) (metadata_time ws)]
                else [] in
  let nth_image := fun j => Image (nth (j mod List.length files)
                                       (readable files) []) in
  (forall N, updates a = Z.of_nat N -> (0 < N < fuel)%nat ->
     exists final,
       send_binary_images fuel a ws = Returned 0 final
       /\ sent final = prefix ++ map nth_image (seq 0 N)
       /\ frame_count final = Z.of_nat N)
  /\ (updates a = 0 ->
      send_binary_images fuel a ws = StillRunning
      /\ exists s', run a ws files fuel (start_state a prefix) = (OutOfFuel, s')
                    /\ sent s' = prefix ++ map nth_image (seq 0 fuel)).
Proof.
  intros Hdir Hloop files Hne Hall (Hw & Hm & Hq) prefix nth_image.
  assert (Hsend : send_binary_images fuel a ws = send_loop fuel a ws files prefix).
  { unfold send_binary_images, get_image_files. rewrite Hdir. fold files.
    destruct files as [|f0 rest] eqn:Efiles; [contradiction|].
    rewrite Hw. subst prefix. destruct (send_metadata_json a); [|reflexivity].
    destruct (Hm eq_refl) as [-> ->]. reflexivity. }
  assert (Hn : (0 < List.length files)%nat)
    by (destruct files; [contradiction|cbn; lia]).
  split.
  - intros N Hup HN.
    destruct (run_cycles a ws files Hloop Hne Hall N (fuel - N)
                (start_state a prefix) 0) as (s' & Er & Es & Ec & Eu).
    + intros i Hi. apply Hq. lia.
    + reflexivity.
    + cbn. lia.
    + cbn [start_state image_index]. reflexivity.
    + cbn [start_state updates_remaining]. rewrite Hup.
      destruct (Z.ltb_spec 0 (Z.of_nat N)); lia.
    + replace (N + (fuel - N))%nat with fuel in Er by lia.
      exists s'. rewrite Hsend. unfold send_loop. rewrite Er.
      destruct (fuel - N)%nat as [|f] eqn:Ef; [lia|]. cbn [run]. unfold tick.
      cbn [start_state updates_remaining] in Eu. rewrite Hup in Eu.
      replace (0 <? Z.of_nat N) with true in Eu
        by (symmetry; apply Z.ltb_lt; lia).
      rewrite Eu, Z.sub_diag. cbn [keep_going Z.ltb Z.compare].
      cbn [start_state sent] in Es. repeat split; auto.
  - intros Hup.
    destruct (run_cycles a ws files Hloop Hne Hall fuel 0
                (start_state a prefix) 0) as (s' & Er & Es & Ec & Eu).
    + intros i Hi. apply Hq. lia.
    + reflexivity.
    + cbn. lia.
    + cbn [start_state image_index]. reflexivity.
    + cbn [start_state updates_remaining]. rewrite Hup. exact I.
    + rewrite Nat.add_0_r in Er. cbn [run] in Er.
      split.
      * rewrite Hsend. unfold send_loop. now rewrite Er.
      * exists s'. split; [exact Er|exact Es].
Qed.

Section Unreadable.
Variable a : args.
Variable ws : session.
Variable files : list dir_entry.
Hypothesis looping : loop a = true.
Hypothesis nonempty : files <> [].
Hypothesis none_readable : Forall (fun f => data f = None) files.

Lemma run_spins (fuel : nat) : forall s,
  keep_going (updates_remaining s) = true ->
  exists s',
    run a ws files fuel s = (OutOfFuel, s')
    /\ sent s' = sent s /\ frame_count s' = frame_count s
    /\ List.length (skipped s') = (List.length (skipped s) + fuel)%nat.
Proof.
  assert (Hn : (0 < List.length files)%nat)
    by (destruct files; [contradiction|cbn; lia]).
  induction fuel as [|fuel IH]; intros s Hk; cbn [run].
  - exists s. repeat split; lia.
  - unfold tick. rewrite Hk, looping. cbn [negb]. rewrite andb_false_r.
    set (i0 := if (List.length files <=? image_index s)%nat
               then O else image_index s).
    assert (Hlt : (i0 < List.length files)%nat).
    { subst i0. destruct (Nat.leb_spec (List.length files) (image_index s)); lia. }
    destruct (nth_error files i0) as [f|] eqn:Ef.
    2:{ apply nth_error_None in Ef. lia. }
    rewrite Forall_forall in none_readable.
    rewrite (none_readable f (nth_error_In _ _ Ef)).
    match goal with
    | |- context [run a ws files fuel ?s1] =>
        destruct (IH s1 Hk) as (s' & Er & Es & Ec & El)
    end.
    exists s'. split; [exact Er|].
    cbn [sent frame_count skipped] in Es, Ec, El.
    rewrite length_app in El. cbn [List.length] in El.
    repeat split; auto. lia.
Qed.

End Unreadable.

(** X15: with [--loop] and image files of which none can be read, the
    sender never leaves its loop, whatever the socket would do from then
    on: every iteration logs one skipped file, no image is sent and the
    frame counter stays at 0. *)
Theorem unreadable_loop_never_sends
    (a : args) (ws : session) (entries : list dir_entry) (fuel : nat) :
  frames_dir a = Directory entries -> loop a = true ->
  filter is_image entries <> [] ->
  Forall (fun f => data f = None) (filter is_image entries) ->
  undisturbed a ws 0 ->
  let prefix := if send_metadata_json a
                then [Metadata (device_id a) (camera_id a) (metadata_time ws)]
                else [] in
  send_binary_images fuel a ws = StillRunning
  /\ exists s',
       run a ws (sort_by name (filter is_image entries)) fuel
         (start_state a prefix)
       = (OutOfFuel, s')
       /\ sent s' = prefix /\ frame_count s' = 0
       /\ List.length (skipped s') = fuel.
Proof.
  intros Hdir Hloop Hne Hnone (Hw & Hm & _) prefix.
  set (files := sort_by name (filter is_image entries)).
  assert (Hperm : Permutation files (filter is_image entries))
    by apply PyFacts.sort_by_perm.
  assert (Hne' : files <> []).
  { intros E. rewrite E in Hperm. apply Permutation_nil in Hperm.
    contradiction. }
  assert (Hnone' : Forall (fun f => data f = None) files).
  { rewrite Forall_forall in *. intros f Hf. apply Hnone.
    eapply Permutation_in; eassumption. }
  destruct (run_spins a ws files Hloop Hne' Hnone' fuel (start_state a prefix))
    as (s' & Er & Es & Ec & El).
  { unfold start_state. cbn [updates_remaining].
    destruct (Z.ltb_spec 0 (updates a)); [|reflexivity].
    cbn [keep_going]. now apply Z.ltb_lt. }
  split.
  - unfold send_binary_images, get_image_files. rewrite Hdir. fold files.
    destruct files as [|f0 rest] eqn:Efiles; [contradiction|].
    rewrite Hw. subst prefix. unfold send_loop.
    destruct (send_metadata_json a).
    + destruct (Hm eq_refl) as [-> ->]. now rewrite Er.
    + now rewrite Er.
  - exists s'. split; [exact Er|]. cbn in Es, Ec, El. auto.
Qed.

Section Invariant.
Variable a : args.
Variable ws : session.
Variable files : list dir_entry.
Variable sent0 : list message.


Lemma tick_accounted (s : loop_state) :
  accounted files sent0 s ->
  match tick a ws files s with
  | Continue s' => accounted files sent0 s'
  | Exit _ s' => accounted files sent0 s'
  end.
Proof.
  unfold accounted. intros (l & Hs & Hc & Hl & Hk). unfold tick.
  destruct (keep_going (updates_remaining s)); [|exists l; auto].
  destruct ((List.length files <=? image_index s)%nat && negb (loop a));
    [exists l; auto|].
  set (i0 := if (List.length files <=? image_index s)%nat
             then O else image_index s).
  destruct (nth_error files i0) as [f|] eqn:Ef; [|exists l; auto].
  pose proof (nth_error_In _ _ Ef) as Hin.
  destruct (data f) as [d|] eqn:Ed.
  - assert (Hnew : forall u i,
              accounted files sent0 {| frame_count := frame_count s + 1;
                       updates_remaining := u; image_index := i;
                       skipped := skipped s; sent := sent s ++ [Image d] |}).
    { intros u i. exists (l ++ [d]). cbn [sent frame_count skipped].
      rewrite Hs, map_app, <- app_assoc, length_app. cbn [map List.length].
      repeat split; auto; try lia.
      apply Forall_app. split; [exact Hl|].
      constructor; [|constructor]. now exists f. }
    destruct (send_raises (tick_events (socket ws) (Z.to_nat (frame_count s)))).
    { exists l. auto. }
    destruct (recv_escapes
                (response (tick_events (socket ws) (Z.to_nat (frame_count s))))).
    { apply Hnew. }
    cbn [updates_remaining frame_count image_index skipped sent].
    destruct (keep_going (count_down (updates_remaining s)));
      [destruct (sleep_raises _)|]; apply Hnew.
  - exists l. cbn [sent frame_count skipped]. repeat split; auto.
    apply Forall_app. split; [exact Hk|].
    constructor; [|constructor]. now exists f.
Qed.

Lemma run_accounted (fuel : nat) : forall s,
  accounted files sent0 s -> accounted files sent0 (snd (run a ws files fuel s)).
Proof.
  induction fuel as [|fuel IH]; intros s Hs; cbn [run]; [exact Hs|].
  pose proof (tick_accounted s Hs) as Ht.
  destruct (tick a ws files s) as [s'|e s']; [now apply IH|exact Ht].
Qed.

Lemma send_loop_accounted (fuel : nat) (code : Z) (final : loop_state) :
  send_loop fuel a ws files sent0 = Returned code final ->
  (code = 0 \/ code = 1) /\ accounted files sent0 final.
Proof.
  unfold send_loop.
  assert (H0 : accounted files sent0 (start_state a sent0)).
  { unfold accounted. exists []. cbn. rewrite app_nil_r. repeat split; constructor. }
  pose proof (run_accounted fuel _ H0) as Hr.
  destruct (run a ws files fuel (start_state a sent0)) as [e s'].
  cbn [snd] in Hr.
  destruct e; intros [= <- <-]; auto.
Qed.

End Invariant.

(** X16: whenever [send_binary_images] returns, its code is 0 or 1; what
    it has sent is the metadata message (at most once, first, and only
    when requested) followed by contents of readable image files of the
    frames directory, as many as the frame counter says; and every name it
    has logged as skipped is that of an image file that cannot be read. *)
Theorem sender_sends_only_image_files
    (fuel : nat) (a : args) (ws : session) (code : Z) (final : loop_state) :
  send_binary_images fuel a ws = Returned code final ->
  (code = 0 \/ code = 1)
  /\ exists l,
       (sent final = map Image l
        \/ (send_metadata_json a = true
            /\ sent final
               = Metadata (device_id a) (camera_id a) (metadata_time ws)
                 :: map Image l))
       /\ frame_count final = Z.of_nat (List.length l)
       /\ Forall (fun d => exists entries f,
                    frames_dir a = Directory entries /\ In f entries
                    /\ is_image f = true /\ data f = Some d) l
       /\ Forall (fun nm => exists entries f,
                    frames_dir a = Directory entries /\ In f entries
                    /\ is_image f = true /\ data f = None /\ name f = nm)
                 (skipped final).
Proof.
  unfold send_binary_images, get_image_files.
  assert (Hstart : forall code final,
            Returned 1 (start_state a []) = Returned code final ->
            (code = 0 \/ code = 1)
            /\ exists l : list (list Byte.byte),
                 (sent final = map Image l
                  \/ (send_metadata_json a = true
                      /\ sent final
                         = Metadata (device_id a) (camera_id a)
                             (metadata_time ws) :: map Image l))
                 /\ frame_count final = Z.of_nat (List.length l)
                 /\ Forall (fun d => exists entries f,
                              frames_dir a = Directory entries /\ In f entries
                              /\ is_image f = true /\ data f = Some d) l
                 /\ Forall (fun nm => exists entries f,
                              frames_dir a = Directory entries /\ In f entries
                              /\ is_image f = true /\ data f = None
                              /\ name f = nm) (skipped final)).
  { intros c f [= <- <-]. split; [now right|]. exists []. cbn.
    repeat split; auto; constructor. }
  destruct (frames_dir a) as [| |entries] eqn:Hdir; try apply Hstart.
  set (files := sort_by name (filter is_image entries)).
  assert (Hfiles : forall f, In f files -> In f entries /\ is_image f = true).
  { intros f Hf. apply filter_In.
    eapply Permutation_in; [apply PyFacts.sort_by_perm|exact Hf]. }
  assert (Hloop : forall sent0 code final,
            send_loop fuel a ws files sent0 = Returned code final ->
            (code = 0 \/ code = 1)
            /\ exists l,
                 sent final = sent0 ++ map Image l
                 /\ frame_count final = Z.of_nat (List.length l)
                 /\ Forall (fun d => exists entries0 f,
                              Directory entries = Directory entries0
                              /\ In f entries0
                              /\ is_image f = true /\ data f = Some d) l
                 /\ Forall (fun nm => exists entries0 f,
                              Directory entries = Directory entries0
                              /\ In f entries0
                              /\ is_image f = true /\ data f = None
                              /\ name f = nm) (skipped final)).
  { intros sent0 c fin E.
    destruct (send_loop_accounted a ws files sent0 fuel c fin E)
      as (Hc & l & Hs & Hn & Hl & Hk).
    split; [exact Hc|]. exists l. repeat split; auto.
    - eapply Forall_impl; [|exact Hl]. cbn beta. intros d (f & Hf & Hd).
      destruct (Hfiles f Hf). exists entries, f. auto.
    - eapply Forall_impl; [|exact Hk]. cbn beta. intros nm (f & Hf & Hd & Hnm).
      destruct (Hfiles f Hf). exists entries, f. auto. }
  destruct files as [|f0 rest] eqn:Efiles; [apply Hstart|].
  rewrite <- Efiles in *.
  destruct (recv_escapes (welcome (socket ws))); [discriminate|].
  destruct (send_metadata_json a) eqn:Em.
  - destruct (metadata_send_raises ws); [discriminate|].
    destruct (recv_escapes (metadata_ack ws)); [discriminate|].
    intros E. destruct (Hloop _ _ _ E) as (Hc & l & Hs & Hrest).
    split; [exact Hc|]. exists l. split; [right; auto|exact Hrest].
  - intros E. destruct (Hloop _ _ _ E) as (Hc & l & Hs & Hrest).
    split; [exact Hc|]. exists l. split; [left; exact Hs|exact Hrest].
Qed.

Lemma counted_run_sends_first_images_example :
  exists final,
    send_binary_images 10 Samples.send_two Samples.calm_session
    = Returned 0 final
    /\ sent final = [] ++ [Image [Byte.x00]; Image [Byte.x02]]
    /\ frame_count final = 2.
Proof.
  apply (counted_run_sends_first_images Samples.send_two Samples.calm_session
           Samples.frames_entries 10 2).
  - reflexivity.
  - reflexivity.
  - lia.
  - reflexivity.
  - vm_compute. discriminate.
  - split; [reflexivity|]. split; [discriminate|].
    intros i _. repeat split.
  - vm_compute. lia.
Defined.

Lemma looping_run_cycles_example :
  (forall N, updates Samples.loop_three = Z.of_nat N -> (0 < N < 10)%nat ->
     exists final,
       send_binary_images 10 Samples.loop_three Samples.calm_session
       = Returned 0 final
       /\ sent final
          = [] ++ map (fun j => Image (nth (j mod 2) [[Byte.x00]; [Byte.x01]] []))
                      (seq 0 N)
       /\ frame_count final = Z.of_nat N)
  /\ (updates Samples.loop_three = 0 ->
      send_binary_images 10 Samples.loop_three Samples.calm_session
      = StillRunning
      /\ exists s',
           run Samples.loop_three Samples.calm_session
             (sort_by name (filter is_image Samples.loop_entries)) 10
             (start_state Samples.loop_three []) = (OutOfFuel, s')
           /\ sent s'
              = [] ++ map (fun j => Image (nth (j mod 2)
                                              [[Byte.x00]; [Byte.x01]] []))
                          (seq 0 10)).
Proof.
  apply (looping_run_cycles Samples.loop_three Samples.calm_session
           Samples.loop_entries 10).
  - reflexivity.
  - reflexivity.
  - vm_compute. discriminate.
  - vm_compute. repeat constructor; discriminate.
  - split; [reflexivity|]. split; [discriminate|].
    intros i _. repeat split.
Defined.

Lemma unreadable_loop_never_sends_example :
  send_binary_images 10 Samples.loop_unreadable Samples.calm_session
  = StillRunning
  /\ exists s',
       run Samples.loop_unreadable Samples.calm_session
         (sort_by name
            (filter is_image
               [ {| name := "frame_000000.png"; is_file := true;
                    data := None |} ]))
         10 (start_state Samples.loop_unreadable [])
       = (OutOfFuel, s')
       /\ sent s' = [] /\ frame_count s' = 0
       /\ List.length (skipped s') = 10%nat.
Proof.
  apply (unreadable_loop_never_sends Samples.loop_unreadable
           Samples.calm_session
           [ {| name := "frame_000000.png"; is_file := true; data := None |} ]
           10).
  - reflexivity.
  - reflexivity.
  - vm_compute. discriminate.
  - vm_compute. repeat constructor.
  - split; [reflexivity|]. split; [discriminate|]. intros i Hi. lia.
Defined.

Lemma sender_sends_only_image_files_example :
  (0 = 0 \/ 0 = 1)
  /\ exists l,
       (sent {| frame_count := 2; updates_remaining := None;
                image_index := 3;
                skipped := ["frame_000001.png"%string];
                sent := [Image [Byte.x00]; Image [Byte.x02]] |}
        = map Image l
        \/ (send_metadata_json Samples.send_all_once = true
            /\ sent {| frame_count := 2; updates_remaining := None;
                       image_index := 3;
                       skipped := ["frame_000001.png"%string];
                       sent := [Image [Byte.x00]; Image [Byte.x02]] |}
               = Metadata (device_id Samples.send_all_once)
                   (camera_id Samples.send_all_once)
                   (metadata_time Samples.calm_session)
                 :: map Image l))
       /\ 2 = Z.of_nat (List.length l)
       /\ Forall (fun d => exists entries f,
                    frames_dir Samples.send_all_once = Directory entries
                    /\ In f entries
                    /\ is_image f = true /\ data f = Some d) l
       /\ Forall (fun nm => exists entries f,
                    frames_dir Samples.send_all_once = Directory entries
                    /\ In f entries
                    /\ is_image f = true /\ data f = None /\ name f = nm)
                 ["frame_000001.png"%string].
Proof.
  apply (sender_sends_only_image_files 4 Samples.send_all_once
           Samples.calm_session 0
           {| frame_count := 2; updates_remaining := None; image_index := 3;
              skipped := ["frame_000001.png"%string];
              sent := [Image [Byte.x00]; Image [Byte.x02]] |}).
  reflexivity.
Defined.

End BinaryImageRuns.

Module WelcomeFacts.
Import Py Ws.
Local Open Scope Z_scope.



End WelcomeFacts.

Module Mp4Bounds.
Import Py Mp4.
Local Open Scope Z_scope.

Lemma selected_count_le (start stop step : Z) :
  0 < step -> start < stop ->
  0 <= selected_count start stop step <= stop - start.
Proof.
  intros Hs Hlt. unfold selected_count. split.
  - apply Z.div_pos; lia.
  - apply Z.lt_succ_r, Z.div_lt_upper_bound; nia.
Qed.

(** Either [extract_frames] stops before its loop, or the loop ran and left
    a state that [loop_post] describes. *)
Lemma extract_frames_cases (fl : Q -> Q) (v : video) (fmt : string)
    (interval : option Q) (max_frames : option Z) (start_time : Q)
    (end_time : option Q) :
  (forall mx, max_frames = Some mx -> 0 <= mx) ->
  let start := start_frame_of fl v start_time in
  let stop := end_frame_of fl v start_time end_time in
  let step := frame_step_of fl v interval in
  let r := extract_frames fl v fmt interval max_frames start_time end_time in
  r = nothing_extracted
  \/ exists ex st,
       loop_post v start stop step max_frames ex st
       /\ r = {| returned := saved_count st; frames_written := written st;
                 exit_kind := Some ex |}.
Proof.
  intros Hmax start stop step r.
  assert (Hstep : 0 < step) by apply Mp4Facts.frame_step_positive.
  assert (Hlt : start < stop) by apply Mp4Facts.start_before_end.
  assert (I0 : loop_inv start stop step max_frames
                 {| frame_count := 0; saved_count := 0;
                    current_frame := start; written := [] |}).
  { constructor; cbn [frame_count saved_count current_frame written];
      try lia; try reflexivity.
    - symmetry. apply Z.div_small. lia.
    - intros mx E Hne. specialize (Hmax mx E). lia. }
  pose proof (Mp4Facts.extract_loop_post v start stop step max_frames Hstep Hmax
                (S (Z.to_nat (stop - start))) _ I0) as P.
  cbn [current_frame] in P. specialize (P ltac:(lia)).
  subst r. unfold extract_frames.
  destruct (file_exists v); [|now left]. cbn [negb].
  destruct (is_opened v);
    [|destruct (normalize_format fmt); now left].
  cbn [negb]. fold start stop step.
  destruct (extract_loop (S (Z.to_nat (stop - start))) v stop step max_frames
              {| frame_count := 0; saved_count := 0;
                 current_frame := start; written := [] |}) as [ex st].
  cbn [fst snd] in P.
  destruct (normalize_format fmt); [right|right|now left];
    exists ex, st; split; auto.
Qed.

(** X19: whatever the video and the options, [extract_frames] works on a
    non-empty range of frames that starts at 0 or later and ends within
    the video (on frames 0 to 1 when the video reports no frame at all);
    its loop ends within that range; it returns the number of frames
    written, which is at most the length of the range and at most
    [max_frames] when that limit is positive, and every frame written lies
    in the range. *)
Theorem extraction_bounds (fl : Q -> Q) (v : video) (fmt : string)
    (interval : option Q) (max_frames : option Z) (start_time : Q)
    (end_time : option Q) :
  (forall mx, max_frames = Some mx -> 0 <= mx) ->
  let start := start_frame_of fl v start_time in
  let stop := end_frame_of fl v start_time end_time in
  let r := extract_frames fl v fmt interval max_frames start_time end_time in
  0 <= start < stop
  /\ (1 <= total_frames v -> stop <= total_frames v)
  /\ (total_frames v <= 0 -> start = 0 /\ stop = 1)
  /\ exit_kind r <> Some OutOfFuel
  /\ 0 <= returned r <= stop - start
  /\ returned r = Z.of_nat (List.length (frames_written r))
  /\ Forall (fun i => start <= i < stop) (frames_written r)
  /\ (forall mx, max_frames = Some mx -> 0 < mx -> returned r <= mx).
Proof.
  intros Hmax start stop r.
  assert (Hstep : 0 < frame_step_of fl v interval)
    by apply Mp4Facts.frame_step_positive.
  assert (Hlt : start < stop) by apply Mp4Facts.start_before_end.
  assert (H0 : 0 <= start)
    by (subst start; unfold start_frame_of; rewrite Mp4Facts.py_max_spec; lia).
  assert (Htot : 1 <= total_frames v -> stop <= total_frames v).
  { intros Ht. subst stop start. unfold end_frame_of, start_frame_of.
    rewrite !Mp4Facts.py_max_spec, !Mp4Facts.py_min_spec. lia. }
  assert (Hempty : total_frames v <= 0 -> start = 0 /\ stop = 1).
  { intros Ht. subst stop start. unfold end_frame_of, start_frame_of.
    rewrite !Mp4Facts.py_max_spec, !Mp4Facts.py_min_spec. lia. }
  split; [lia|]. split; [exact Htot|]. split; [exact Hempty|].
  destruct (extract_frames_cases fl v fmt interval max_frames start_time
              end_time Hmax) as [E|(ex & st & P & E)];
    fold r in E; rewrite E.
  - cbn. repeat split; try lia; try discriminate. constructor.
  - cbn [returned frames_written exit_kind].
    destruct P as [Pw Ps Pf Pe Pm Pb Pr]. fold start stop in Pw, Ps.
    pose proof (selected_count_le start stop _ Hstep Hlt) as Hsel.
    split; [intros [= Eo]; contradiction|].
    split; [lia|]. split.
    { rewrite Pw, Mp4Facts.progression_length. lia. }
    split.
    + rewrite Pw. apply Forall_forall. intros i Hi.
      apply Mp4Facts.progression_In in Hi. destruct Hi as (k & Hk & ->).
      apply Mp4Facts.below_selected_count; try assumption. lia.
    + intros mx Emx Hpos.
      destruct ex; try (specialize (Pb mx Emx ltac:(lia) ltac:(discriminate)); lia).
      * destruct (Pm eq_refl) as (mx' & E' & _ & Hs).
        rewrite Emx in E'. injection E' as <-. lia.
Qed.

Lemma extract_loop_no_limit (v : video) (stop step : Z) (fuel : nat) :
  forall st,
    extract_loop fuel v stop step (Some 0) st
    = extract_loop fuel v stop step None st.
Proof.
  induction fuel as [|fuel IH]; intros st; cbn [extract_loop]; [reflexivity|].
  destruct (current_frame st <? stop); [|reflexivity].
  destruct (read_at v (current_frame st)); try reflexivity.
  destruct (frame_count st mod step =? 0); cbn [truthy_int Z.eqb negb andb];
    apply IH.
Qed.

Lemma extraction_bounds_example :
  let start := start_frame_of no_rounding Samples.clip_10 0 in
  let stop := end_frame_of no_rounding Samples.clip_10 0 None in
  let r := extract_frames no_rounding Samples.clip_10 "png" (Some (1 # 5))
             (Some 1) 0 None in
  0 <= start < stop
  /\ (1 <= total_frames Samples.clip_10 -> stop <= total_frames Samples.clip_10)
  /\ (total_frames Samples.clip_10 <= 0 -> start = 0 /\ stop = 1)
  /\ exit_kind r <> Some OutOfFuel
  /\ 0 <= returned r <= stop - start
  /\ returned r = Z.of_nat (List.length (frames_written r))
  /\ Forall (fun i => start <= i < stop) (frames_written r)
  /\ (forall mx, Some 1 = Some mx -> 0 < mx -> returned r <= mx).
Proof.
  apply (extraction_bounds no_rounding Samples.clip_10 "png" (Some (1 # 5))
           (Some 1) 0 None).
  intros mx [= <-]. lia.
Defined.

End Mp4Bounds.

Module ResizeEdges.
Import Py Resize.
Local Open Scope Z_scope.



(** X22: an image so flat that [h * W < w] cannot be resized to the width
    [W]: the height requested is 0, the imaging library refuses it, the
    error is caught and nothing is written. *)
Theorem flat_image_not_resized (fl : Q -> Q) (input : dir_entry)
    (img : image) (W : Z) :
  rounds_like_double fl (1 # 67108864) (2251799813685248 # 1) ->
  opened input = Some img ->
  0 < fst (img_size img) < 33554432 ->
  0 < snd (img_size img) < 33554432 ->
  0 < W ->
  snd (img_size img) * W < fst (img_size img) ->
  choose_size fl (img_size img) (Some W) None None = Chosen (W, 0)
  /\ resize_image fl input (Some W) None None = Caught.
Proof.
  intros Hfl Hopen Hw Hh HW Hflat.
  set (w := fst (img_size img)) in *. set (h := snd (img_size img)) in *.
  assert (HW' : 0 < W < 33554432) by nia.
  destruct (ResizeFacts.rounded_product_bounds fl h W w Hfl Hw Hh HW')
    as (P & _ & U & _).
  destruct (ResizeFacts.rounded_height fl h W w Hfl Hw Hh HW') as [B _].
  rewrite (Z.div_small (h * W) w) in B by nia.
  assert (E0 : py_int (fl (inject_Z h * fl (inject_Z W / inject_Z w))%Q) = 0).
  { rewrite ResizeFacts.py_int_nonneg in * by exact P.
    assert (0 <= Qfloor (fl (inject_Z h * fl (inject_Z W / inject_Z w))%Q)).
    { rewrite <- (Qfloor_Z 0). now apply Qfloor_resp_le. }
    lia. }
  assert (Hc : choose_size fl (img_size img) (Some W) None None = Chosen (W, 0)).
  { subst w h. destruct (img_size img) as [w h]. cbn [fst snd] in *.
    rewrite ResizeFacts.width_only_choice by lia. now rewrite E0. }
  split; [exact Hc|].
  unfold resize_image. rewrite Hopen, Hc. unfold lib_resize. cbn [fst snd].
  now rewrite andb_false_r.
Qed.

Lemma resize_image_false_only_without_target (fl : Q -> Q) (f : dir_entry)
    (tw th : option Z) (ts : option (Z * Z)) :
  ts <> None \/ truthy_int tw = true \/ truthy_int th = true ->
  resize_image fl f tw th ts <> ReturnedFalse.
Proof.
  intros Ht. unfold resize_image.
  destruct (opened f) as [img|]; [|discriminate].
  assert (Hc : choose_size fl (img_size img) tw th ts <> NoTarget).
  { unfold choose_size. destruct ts as [ts|]; [discriminate|].
    destruct (truthy_int tw).
    - destruct (fst (img_size img) =? 0); discriminate.
    - destruct (truthy_int th).
      + destruct (snd (img_size img) =? 0); discriminate.
      + destruct Ht as [Ht|[Ht|Ht]]; congruence. }
  destruct (choose_size fl (img_size img) tw th ts) as [sz| |];
    [|contradiction|discriminate].
  destruct (lib_resize img sz); [|discriminate].
  destruct (save_ok f); discriminate.
Qed.

Lemma validate_args_target (a : args) :
  validate_args a = true ->
  (exists entries, input_dir a = Directory entries)
  /\ (size a <> None \/ truthy_int (width a) = true
      \/ truthy_int (height a) = true)
  /\ (forall W H, size a = Some (W, H) -> 0 < W /\ 0 < H)
  /\ (forall W, width a = Some W -> 0 <= W)
  /\ (forall H, height a = Some H -> 0 <= H).
Proof.
  unfold validate_args.
  destruct (input_dir a) as [| |entries]; try discriminate.
  destruct (truthy_int (width a)) eqn:Ew; destruct (truthy_int (height a)) eqn:Eh;
    destruct (size a) as [[W H]|] eqn:Es; cbn [orb negb andb];
    destruct (width a) as [w|] eqn:Ewa; destruct (height a) as [h|] eqn:Eha;
    cbn [truthy_int] in Ew, Eh; try discriminate;
    repeat match goal with
           | |- context [?x <=? 0] => destruct (Z.leb_spec x 0); cbn [orb negb andb]
           end;
    try discriminate; intros _;
    (split; [eexists; reflexivity|]);
    (split; [auto; left; discriminate|]);
    repeat split; intros; try discriminate;
    repeat match goal with
           | H : Some _ = Some _ |- _ => injection H as ?; subst
           | H : negb (?x =? 0) = false |- _ =>
               apply negb_false_iff, Z.eqb_eq in H; subst
           end; lia.
Qed.

(** X23: once [validate_args] has accepted the arguments, the run has a
    usable target: every image file of the directory is attempted, in
    name order, no attempt ends in the silent [return False] of a missing
    target, and the number of successes lies between 0 and the number of
    image files found. *)
Theorem validated_run_has_target (fl : Q -> Q) (a : args)
    (entries : list dir_entry) :
  validate_args a = true -> input_dir a = Directory entries ->
  let files := sort_by name (filter is_image entries) in
  let rep := resize_images_in_directory fl (input_dir a)
               (width a) (height a) (size a) in
  attempts rep
  = map (fun f => (name f,
                   resize_image fl f (width a) (height a) (size a))) files
  /\ Forall (fun nr => snd nr <> ReturnedFalse) (attempts rep)
  /\ 0 <= success_count rep <= images_found rep
  /\ images_found rep = Z.of_nat (List.length files).
Proof.
  intros Hv Hdir files rep.
  destruct (validate_args_target a Hv) as (_ & Ht & _).
  assert (Hrep : rep = empty_report /\ files = []
                 \/ rep = {| success_count :=
                               0 + Z.of_nat (List.length
                                 (filter (fun f => succeeded
                                    (resize_image fl f (width a) (height a)
                                       (size a))) files));
                             images_found :=
                               Z.of_nat (List.length (filter is_image entries));
                             attempts :=
                               map (fun f => (name f,
                                      resize_image fl f (width a) (height a)
                                        (size a))) files |}).
  { subst rep files. rewrite Hdir. unfold resize_images_in_directory.
    destruct (filter is_image entries) as [|f0 fs] eqn:Ef; [now left|right].
    rewrite BatchFacts.resize_each_all.
    destruct (size a); [reflexivity|].
    destruct Ht as [Ht|Ht]; [contradiction|].
    replace (truthy_int (width a) || truthy_int (height a)) with true
      by (destruct Ht as [-> | ->]; [reflexivity|now rewrite orb_true_r]).
    reflexivity. }
  assert (Hlen : List.length files = List.length (filter is_image entries))
    by apply PyFacts.sort_by_length.
  destruct Hrep as [[-> Ef]| ->].
  - rewrite Ef. cbn. repeat split; try lia. constructor.
  - cbn [attempts success_count images_found].
    split; [reflexivity|]. split; [|split].
    + apply Forall_map. apply Forall_forall. intros f _. cbn [snd].
      now apply resize_image_false_only_without_target.
    + rewrite <- Hlen.
      pose proof (filter_length_le
                    (fun f => succeeded (resize_image fl f (width a) (height a)
                                           (size a))) files). lia.
    + now rewrite Hlen.
Qed.

(** X24: with validated arguments and [--size W H], every image that
    opens is written with exactly the size [W x H], whatever its own
    proportions, unless saving fails. *)
Theorem size_option_forces_dimensions (fl : Q -> Q) (a : args)
    (f : dir_entry) (img : image) (W H : Z) :
  validate_args a = true -> size a = Some (W, H) ->
  opened f = Some img ->
  resize_image fl f (width a) (height a) (size a)
  = if save_ok f then Written (W, H) else Caught.
Proof.
  intros Hv Hs Ho.
  destruct (validate_args_target a Hv) as (_ & _ & Hpos & _).
  destruct (Hpos W H Hs) as [HW HH].
  unfold resize_image. rewrite Ho, Hs. cbn [choose_size].
  unfold lib_resize. cbn [fst snd].
  replace (1 <=? W) with true by (symmetry; apply Z.leb_le; lia).
  replace (1 <=? H) with true by (symmetry; apply Z.leb_le; lia).
  reflexivity.
Qed.


Lemma flat_image_not_resized_example :
  choose_size no_rounding (1000, 1) (Some 100) None None = Chosen (100, 0)
  /\ resize_image no_rounding Samples.png_1000x1 (Some 100) None None = Caught.
Proof.
  apply (flat_image_not_resized no_rounding Samples.png_1000x1
           {| img_size := (1000, 1); img_format := Some "PNG"%string |} 100).
  - apply ResizeFacts.no_rounding_rounds. discriminate.
  - reflexivity.
  - cbn. lia.
  - cbn. lia.
  - lia.
  - cbn. lia.
Defined.

Lemma validated_run_has_target_example :
  let a := Samples.width_100_args in
  let files := sort_by name
                 (filter is_image
                    [Samples.png_4x4; Samples.broken_png; Samples.png_3x2]) in
  let rep := resize_images_in_directory no_rounding (input_dir a)
               (width a) (height a) (size a) in
  attempts rep
  = map (fun f => (name f,
                   resize_image no_rounding f (width a) (height a) (size a)))
        files
  /\ Forall (fun nr => snd nr <> ReturnedFalse) (attempts rep)
  /\ 0 <= success_count rep <= images_found rep
  /\ images_found rep = Z.of_nat (List.length files).
Proof.
  apply (validated_run_has_target no_rounding Samples.width_100_args
           [Samples.png_4x4; Samples.broken_png; Samples.png_3x2]).
  - reflexivity.
  - reflexivity.
Defined.

Lemma size_option_forces_dimensions_example :
  resize_image no_rounding Samples.png_3x2
    (width Samples.size_620_args) (height Samples.size_620_args)
    (size Samples.size_620_args)
  = if save_ok Samples.png_3x2 then Written (620, 620) else Caught.
Proof.
  apply (size_option_forces_dimensions no_rounding Samples.size_620_args
           Samples.png_3x2
           {| img_size := (3, 2); img_format := Some "PNG"%string |} 620 620).
  - reflexivity.
  - reflexivity.
  - reflexivity.
Defined.

End ResizeEdges.

Module PaddedNumbers.
Import FrameFiles.
Local Open Scope N_scope.



Lemma of_uint_cons (d : Decimal.uint) :
  d <> Decimal.Nil ->
  Pos.of_uint d
  = Unsigned.hd d * 10 ^ Unsigned.usize (Unsigned.tl d)
    + Pos.of_uint (Unsigned.tl d).
Proof.
  intros Hd. rewrite !Unsigned.of_uint_alt.
  destruct d; [contradiction|..]; unfold Decimal.rev; cbn [Decimal.revapp];
    rewrite Unsigned.of_lu_revapp; cbn [Unsigned.hd Unsigned.tl Unsigned.of_lu];
    unfold Decimal.rev; lia.
Qed.

Lemma of_uint_lt (d : Decimal.uint) : Pos.of_uint d < 10 ^ Unsigned.usize d.
Proof.
  induction d; [cbn; lia|..];
    rewrite of_uint_cons by discriminate;
    cbn [Unsigned.hd Unsigned.tl Unsigned.usize];
    rewrite N.pow_succ_r'; lia.
Qed.

Lemma compare_digits (u : Decimal.uint) : forall v,
  Unsigned.usize u = Unsigned.usize v ->
  String.compare (NilEmpty.string_of_uint u) (NilEmpty.string_of_uint v) = (Pos.of_uint u ?= Pos.of_uint v).
Proof.
  induction u; intros v Hsz; destruct v;
    try (cbn in Hsz; lia);
    try reflexivity;
    cbn [Unsigned.usize] in Hsz; apply N.succ_inj in Hsz;
    cbn [NilEmpty.string_of_uint String.compare];
    match goal with
    | |- context [Ascii.compare ?a ?b] =>
        let r := eval vm_compute in (Ascii.compare a b) in
        change (Ascii.compare a b) with r
    end; cbv iota;
    match goal with
    | |- context [(Pos.of_uint ?x ?= Pos.of_uint ?y)] =>
        rewrite (of_uint_cons x), (of_uint_cons y) by discriminate
    end;
    cbn [Unsigned.hd Unsigned.tl]; rewrite <- Hsz;
    pose proof (of_uint_lt u) as Bu; pose proof (of_uint_lt v) as Bv;
    rewrite <- Hsz in Bv;
    first [ rewrite IHu by exact Hsz;
            destruct (N.compare_spec (Pos.of_uint u) (Pos.of_uint v)); symmetry;
            [ apply N.compare_eq_iff | apply N.compare_lt_iff
            | apply N.compare_gt_iff ]; lia
          | symmetry; apply N.compare_lt_iff; lia
          | symmetry; apply N.compare_gt_iff; lia ].
Qed.

Lemma usize_nb_digits (d : Decimal.uint) :
  Unsigned.usize d = N.of_nat (Decimal.nb_digits d).
Proof.
  induction d; cbn [Unsigned.usize Decimal.nb_digits]; try reflexivity;
    rewrite IHd; lia.
Qed.

Lemma length_digits (d : Decimal.uint) :
  String.length (NilEmpty.string_of_uint d) = Decimal.nb_digits d.
Proof. induction d; cbn; congruence. Qed.

Lemma nonnil_digits (d : Decimal.uint) :
  d <> Decimal.Nil ->
  NilZero.string_of_uint d = NilEmpty.string_of_uint d.
Proof. destruct d; [contradiction|reflexivity..]. Qed.

(** Padding a number printed without its leading zeros gives the zeros
    back. *)
Lemma zfill_unorm (d : Decimal.uint) :
  d <> Decimal.Nil ->
  zfill (Decimal.nb_digits d) (NilZero.string_of_uint (Decimal.unorm d))
  = NilEmpty.string_of_uint d.
Proof.
  assert (Hfull : forall u, u <> Decimal.Nil ->
            zfill (Decimal.nb_digits u) (NilEmpty.string_of_uint u)
            = NilEmpty.string_of_uint u).
  { intros u _. unfold zfill. now rewrite length_digits, Nat.sub_diag. }
  induction d; intros Hd; [contradiction| |now apply Hfull..].
  destruct (Decimal.uint_eq_dec d Decimal.Nil) as [->|Hn]; [reflexivity|].
  rewrite DecimalFacts.unorm_D0. specialize (IHd Hn).
  pose proof (DecimalFacts.nb_digits_unorm d Hn) as Hle.
  pose proof (DecimalFacts.unorm_nonnil d) as Hnn.
  rewrite nonnil_digits in * by assumption.
  unfold zfill in *. rewrite length_digits in *.
  cbn [Decimal.nb_digits NilEmpty.string_of_uint].
  replace (S (Decimal.nb_digits d) - Decimal.nb_digits (Decimal.unorm d))%nat
    with (S (Decimal.nb_digits d - Decimal.nb_digits (Decimal.unorm d)))
    by lia.
  cbn [zeros String.append]. now rewrite IHd.
Qed.

(** Every number below [10 ^ k] has a [k]-digit numeral. *)
Lemma numeral_of_width (k : nat) : forall n,
  n < 10 ^ N.of_nat k ->
  exists d, Decimal.nb_digits d = k /\ Pos.of_uint d = n.
Proof.
  induction k as [|k IH]; intros n Hn.
  - exists Decimal.Nil. cbn in *. split; [reflexivity|lia].
  - rewrite Nnat.Nat2N.inj_succ, N.pow_succ_r' in Hn.
    assert (Hp : 0 < 10 ^ N.of_nat k)
      by (pose proof (N.pow_nonzero 10 (N.of_nat k)); lia).
    pose proof (N.Div0.div_mod n (10 ^ N.of_nat k)) as Hdm.
    pose proof (N.mod_lt n (10 ^ N.of_nat k) ltac:(lia)) as Hr.
    destruct (IH (n mod 10 ^ N.of_nat k) Hr) as (d & Hd & Hv).
    assert (Hq : n / 10 ^ N.of_nat k < 10)
      by (apply N.Div0.div_lt_upper_bound; lia).
    set (q := n / 10 ^ N.of_nat k) in *.
    assert (Hcase : q = 0 \/ q = 1 \/ q = 2 \/ q = 3 \/ q = 4 \/ q = 5
                    \/ q = 6 \/ q = 7 \/ q = 8 \/ q = 9) by lia.
    assert (Hsz : Unsigned.usize d = N.of_nat k)
      by (rewrite usize_nb_digits; congruence).
    destruct Hcase as [E|[E|[E|[E|[E|[E|[E|[E|[E|E]]]]]]]]];
      [ exists (Decimal.D0 d) | exists (Decimal.D1 d) | exists (Decimal.D2 d)
      | exists (Decimal.D3 d) | exists (Decimal.D4 d) | exists (Decimal.D5 d)
      | exists (Decimal.D6 d) | exists (Decimal.D7 d) | exists (Decimal.D8 d)
      | exists (Decimal.D9 d) ];
      (split; [cbn; congruence|]);
      rewrite of_uint_cons by discriminate;
      cbn [Unsigned.hd Unsigned.tl]; rewrite Hsz, Hv; lia.
Qed.

Lemma str_nonneg (n : Z) :
  (0 <= n)%Z ->
  Telemetry.str n = NilZero.string_of_uint (N.to_uint (Z.to_N n)).
Proof. intros Hn. destruct n; [reflexivity|reflexivity|lia]. Qed.

(** A frame number below a million is printed with exactly six digits. *)
Lemma format_06d_digits (n : Z) :
  (0 <= n < 1000000)%Z ->
  exists d, Decimal.nb_digits d = 6%nat /\ Pos.of_uint d = Z.to_N n
            /\ format_06d n = NilEmpty.string_of_uint d.
Proof.
  intros Hn.
  destruct (numeral_of_width 6 (Z.to_N n)) as (d & Hd & Hv).
  { change (10 ^ N.of_nat 6) with 1000000. lia. }
  exists d. split; [exact Hd|]. split; [exact Hv|].
  unfold format_06d.
  replace (n <? 0)%Z with false by (symmetry; apply Z.ltb_ge; lia).
  rewrite str_nonneg by lia. rewrite <- Hv, DecimalPos.Unsigned.to_of, <- Hd.
  apply zfill_unorm. intros ->. discriminate.
Qed.

Lemma format_06d_compare (i j : Z) :
  (0 <= i < 1000000)%Z -> (0 <= j < 1000000)%Z ->
  String.compare (format_06d i) (format_06d j) = (i ?= j)%Z
  /\ String.length (format_06d i) = 6%nat.
Proof.
  intros Hi Hj.
  destruct (format_06d_digits i Hi) as (di & Li & Vi & ->).
  destruct (format_06d_digits j Hj) as (dj & Lj & Vj & ->).
  rewrite length_digits. split; [|exact Li].
  rewrite compare_digits by (rewrite !usize_nb_digits; congruence).
  rewrite Vi, Vj. rewrite <- Z2N.inj_compare by lia. reflexivity.
Qed.

End PaddedNumbers.

Module FrameFilesFacts.
Import Py FrameFiles.
Local Open Scope Z_scope.

Lemma ascii_compare_refl (c : ascii) : Ascii.compare c c = Eq.
Proof. unfold Ascii.compare. apply N.compare_refl. Qed.

Lemma compare_app_prefix (p a b : string) :
  String.compare (String.append p a) (String.append p b) = String.compare a b.
Proof.
  induction p as [|c p IH]; cbn [String.append String.compare]; [reflexivity|].
  now rewrite ascii_compare_refl.
Qed.

Lemma compare_app_lt (a : string) : forall b x y,
  String.length a = String.length b ->
  String.compare a b = Lt ->
  String.compare (String.append a x) (String.append b y) = Lt.
Proof.
  induction a as [|c a IH]; intros [|d b] x y Hlen Hlt;
    cbn in Hlen, Hlt; try discriminate.
  cbn [String.append String.compare].
  destruct (Ascii.compare c d); [|reflexivity|discriminate].
  apply IH; [lia|exact Hlt].
Qed.

Lemma length_append (a b : string) :
  String.length (String.append a b) = (String.length a + String.length b)%nat.
Proof. induction a; cbn; congruence. Qed.

Lemma append_assoc (a b c : string) :
  String.append (String.append a b) c = String.append a (String.append b c).
Proof. induction a; cbn; congruence. Qed.

Lemma substring_all (s : string) : String.substring 0 (String.length s) s = s.
Proof. induction s; cbn; congruence. Qed.

Lemma substring_skip (a b : string) (n : nat) :
  String.substring (String.length a) n (String.append a b)
  = String.substring 0 n b.
Proof. induction a; cbn; auto. Qed.

(** The last dot of a frame file name is the one before the format. *)
Lemma rfind_dot_before_format (fmt : Mp4.image_format) (a : string) :
  fmt <> Mp4.Unsupported ->
  forall i last,
    rfind_dot_from i (String.append a (String "." (format_name fmt))) last
    = Some (i + String.length a)%nat.
Proof.
  intros Hf. induction a as [|c a IH]; intros i last.
  - destruct fmt; [| |contradiction]; cbn; f_equal; lia.
  - cbn [String.append rfind_dot_from String.length]. rewrite IH. f_equal. lia.
Qed.

Lemma suffix_of_filename (prefix : string) (n : Z) (fmt : Mp4.image_format) :
  fmt <> Mp4.Unsupported ->
  suffix (filename prefix n (format_name fmt))
  = String "." (format_name fmt).
Proof.
  intros Hf. unfold filename.
  set (a := String.append prefix (String "_" (format_06d n))).
  assert (E : String.append prefix
                (String "_" (String.append (format_06d n)
                                           (String "." (format_name fmt))))
              = String.append a (String "." (format_name fmt))).
  { subst a. rewrite append_assoc. reflexivity. }
  rewrite E. unfold suffix, rfind_dot.
  rewrite (rfind_dot_before_format fmt a Hf). cbn [Nat.add].
  assert (Ha : (0 < String.length a)%nat).
  { subst a. rewrite length_append. cbn. lia. }
  assert (Hl : String.length (String.append a (String "." (format_name fmt)))
               = (String.length a + S (String.length (format_name fmt)))%nat)
    by now rewrite length_append.
  assert (Hfmt : (0 < String.length (format_name fmt))%nat)
    by (destruct fmt; [cbn; lia|cbn; lia|contradiction]).
  rewrite Hl.
  replace (0 <? String.length a)%nat with true
    by (symmetry; apply Nat.ltb_lt; lia).
  replace (String.length a
           <? String.length a + S (String.length (format_name fmt)) - 1)%nat
    with true by (symmetry; apply Nat.ltb_lt; lia).
  cbn [andb]. rewrite substring_skip.
  replace (String.length a + S (String.length (format_name fmt))
           - String.length a)%nat
    with (String.length (String "." (format_name fmt))) by (cbn; lia).
  apply substring_all.
Qed.

Lemma filename_compare_lt (prefix format : string) (i j : Z) :
  0 <= i -> i < j -> j < 1000000 ->
  String.compare (filename prefix i format) (filename prefix j format) = Lt.
Proof.
  intros Hi Hij Hj. unfold filename. rewrite !compare_app_prefix.
  cbn [String.compare]. rewrite ascii_compare_refl.
  destruct (PaddedNumbers.format_06d_compare i j ltac:(lia) ltac:(lia))
    as [Hc Li].
  destruct (PaddedNumbers.format_06d_compare j i ltac:(lia) ltac:(lia))
    as [_ Lj].
  apply compare_app_lt; [congruence|].
  rewrite Hc. now apply Z.compare_lt_iff.
Qed.

(** X25: the file names of two frames of one extraction sort in the order
    of their frame numbers as long as these are below one million; from
    one million on the six-digit padding no longer suffices and
    [frame_1000000] sorts before [frame_999999]. *)
Theorem frame_names_sort_by_number (prefix format : string) (i j : Z) :
  0 <= i -> i < j -> j < 1000000 ->
  String.compare (filename prefix i format) (filename prefix j format) = Lt
  /\ String.compare (filename prefix 1000000 format)
                    (filename prefix 999999 format) = Lt.
Proof.
  intros Hi Hij Hj. split; [now apply filename_compare_lt|].
  unfold filename. rewrite !compare_app_prefix.
  cbn [String.compare]. rewrite ascii_compare_refl. reflexivity.
Qed.

Lemma sorted_permutation_unique {A} (key : A -> string) (l1 : list A) :
  forall l2,
    StronglySorted (fun x y => String.compare (key x) (key y) = Lt) l1 ->
    StronglySorted (key_le key) l2 ->
    Permutation l1 l2 -> l2 = l1.
Proof.
  induction l1 as [|x l1 IH]; intros l2 H1 H2 Hp.
  - now apply Permutation_nil in Hp.
  - destruct l2 as [|y l2].
    { apply Permutation_sym, Permutation_nil in Hp. discriminate. }
    inversion H1 as [|? ? S1 F1]; subst. inversion H2 as [|? ? S2 F2]; subst.
    assert (Exy : x = y).
    { assert (Hx : In x (y :: l2))
        by (eapply Permutation_in; [exact Hp|now left]).
      assert (Hy : In y (x :: l1))
        by (eapply Permutation_in; [apply Permutation_sym; exact Hp|now left]).
      destruct Hx as [E|Hx]; [now symmetry|].
      destruct Hy as [E|Hy]; [exact E|].
      rewrite Forall_forall in F1, F2.
      specialize (F1 y Hy). specialize (F2 x Hx).
      unfold key_le, String.leb in F2.
      rewrite String.compare_antisym, F1 in F2. discriminate. }
    subst y. f_equal. apply IH; auto.
    eapply Permutation_cons_inv; exact Hp.
Qed.

Lemma progression_sorted (start step : Z) (n : nat) :
  0 < step -> StronglySorted Z.lt (Mp4.progression start step n).
Proof.
  intros Hs. unfold Mp4.progression.
  generalize 0%nat as a. induction n as [|n IH]; intros a; cbn [seq map].
  - constructor.
  - constructor; [apply IH|].
    apply Forall_forall. intros x Hx. apply in_map_iff in Hx.
    destruct Hx as (k & <- & Hk). apply in_seq in Hk. nia.
Qed.

Section Pipeline.
Variable prefix : string.
Variable fmt : Mp4.image_format.
Variable contents : Z -> option (list Byte.byte).
Hypothesis supported : fmt <> Mp4.Unsupported.

Lemma frame_file_is_image (n : Z) :
  BinaryImage.is_image (frame_file prefix fmt contents n) = true.
Proof.
  unfold BinaryImage.is_image, frame_file.
  cbn [BinaryImage.is_file BinaryImage.name andb].
  rewrite suffix_of_filename by exact supported.
  destruct fmt; [reflexivity|reflexivity|contradiction].
Qed.

Lemma frame_files_sorted (frames : list Z) :
  StronglySorted Z.lt frames ->
  Forall (fun n => 0 <= n < 1000000) frames ->
  StronglySorted
    (fun x y => String.compare (BinaryImage.name x) (BinaryImage.name y) = Lt)
    (map (frame_file prefix fmt contents) frames).
Proof.
  induction 1 as [|n frames Hs IH Hn]; intros Hb; cbn [map]; [constructor|].
  inversion Hb as [|? ? Bn Bf]; subst.
  constructor; [now apply IH|].
  apply Forall_map. rewrite Forall_forall in *. intros m Hm.
  cbn [frame_file BinaryImage.name].
  apply filename_compare_lt; [lia|now apply Hn|].
  destruct (Bf m Hm). lia.
Qed.

Lemma listing_of_frames (frames : list Z)
    (listing : list BinaryImage.dir_entry) :
  StronglySorted Z.lt frames ->
  Forall (fun n => 0 <= n < 1000000) frames ->
  Permutation listing (map (frame_file prefix fmt contents) frames) ->
  BinaryImage.get_image_files (BinaryImage.Directory listing)
  = Some (map (frame_file prefix fmt contents) frames).
Proof.
  intros Hs Hb Hp. cbn [BinaryImage.get_image_files]. f_equal.
  assert (Hall : filter BinaryImage.is_image listing = listing).
  { apply forallb_filter_id. apply forallb_forall. intros f Hf.
    eapply Permutation_in in Hf; [|exact Hp].
    apply in_map_iff in Hf. destruct Hf as (n & <- & _).
    apply frame_file_is_image. }
  rewrite Hall.
  apply (sorted_permutation_unique BinaryImage.name).
  - now apply frame_files_sorted.
  - apply PyFacts.sort_by_sorted.
  - apply Permutation_sym. transitivity listing;
      [apply PyFacts.sort_by_perm|exact Hp].
Qed.

End Pipeline.

Lemma frame_names_sort_by_number_example :
  String.compare (filename "frame" 5 "png") (filename "frame" 10 "png") = Lt
  /\ String.compare (filename "frame" 1000000 "png")
                    (filename "frame" 999999 "png") = Lt.
Proof.
  apply (frame_names_sort_by_number "frame" "png" 5 10); lia.
Defined.

End FrameFilesFacts.

Module PipelineFacts.
Import Py FrameFiles.
Local Open Scope Z_scope.

(** The frames [extract_frames] writes: in ascending order, all within the
    video, and none unless the format is supported. *)
Lemma frames_written_ascending (fl : Q -> Q) (v : Mp4.video) (fmt : string)
    (interval : option Q) (max_frames : option Z) (start_time : Q)
    (end_time : option Q) :
  (forall mx, max_frames = Some mx -> 0 <= mx) ->
  let r := Mp4.extract_frames fl v fmt interval max_frames start_time
             end_time in
  StronglySorted Z.lt (Mp4.frames_written r)
  /\ Forall (fun i => 0 <= i < Z.max 1 (Mp4.total_frames v))
            (Mp4.frames_written r)
  /\ (Mp4.normalize_format fmt = Mp4.Unsupported -> Mp4.frames_written r = []).
Proof.
  intros Hmax r.
  set (start := Mp4.start_frame_of fl v start_time).
  set (stop := Mp4.end_frame_of fl v start_time end_time).
  assert (Hstep : 0 < Mp4.frame_step_of fl v interval)
    by apply Mp4Facts.frame_step_positive.
  assert (Hlt : start < stop) by apply Mp4Facts.start_before_end.
  assert (H0 : 0 <= start)
    by (subst start; unfold Mp4.start_frame_of;
        rewrite Mp4Facts.py_max_spec; lia).
  assert (Htot : stop <= Z.max 1 (Mp4.total_frames v)).
  { subst stop start. unfold Mp4.end_frame_of, Mp4.start_frame_of.
    rewrite !Mp4Facts.py_max_spec, !Mp4Facts.py_min_spec. lia. }
  assert (Hun : Mp4.normalize_format fmt = Mp4.Unsupported ->
                Mp4.frames_written r = []).
  { intros E. subst r. unfold Mp4.extract_frames. rewrite E.
    destruct (negb (Mp4.file_exists v)); reflexivity. }
  destruct (Mp4Bounds.extract_frames_cases fl v fmt interval max_frames
              start_time end_time Hmax) as [E|(ex & st & P & E)];
    fold r in E; rewrite E in *.
  - cbn. repeat split; auto; constructor.
  - cbn [Mp4.frames_written] in *.
    destruct P as [Pw Ps _ _ _ _ _]. fold start stop in Pw, Ps.
    split; [|split; [|exact Hun]].
    + rewrite Pw. now apply FrameFilesFacts.progression_sorted.
    + rewrite Pw. apply Forall_forall. intros i Hi.
      apply Mp4Facts.progression_In in Hi. destruct Hi as (k & Hk & ->).
      pose proof (Mp4Facts.below_selected_count start stop
                    (Mp4.frame_step_of fl v interval) (Z.of_nat k)
                    Hstep Hlt ltac:(lia)).
      lia.
Qed.

(** X26: the extractor and the sender fit together: for a video of at
    most a million frames, a directory that holds exactly the files named
    by [extract_frames] for the frames it writes (listed in any order) is
    turned by [get_image_files] into the list of these files in the order
    of their frame numbers. *)
Theorem extracted_frames_are_listed_in_order
    (fl : Q -> Q) (v : Mp4.video) (fmt : string)
    (interval : option Q) (max_frames : option Z) (start_time : Q)
    (end_time : option Q)
    (prefix : string) (contents : Z -> option (list Byte.byte))
    (listing : list BinaryImage.dir_entry) :
  (forall mx, max_frames = Some mx -> 0 <= mx) ->
  Mp4.total_frames v <= 1000000 ->
  let r := Mp4.extract_frames fl v fmt interval max_frames start_time
             end_time in
  let files := map (frame_file prefix (Mp4.normalize_format fmt) contents)
                   (Mp4.frames_written r) in
  Permutation listing files ->
  BinaryImage.get_image_files (BinaryImage.Directory listing) = Some files.
Proof.
  intros Hmax Htot r files Hp.
  destruct (frames_written_ascending fl v fmt interval max_frames start_time
              end_time Hmax) as (Hs & Hb & Hun).
  fold r in Hs, Hb, Hun.
  destruct (Mp4.normalize_format fmt) eqn:Ef.
  - apply FrameFilesFacts.listing_of_frames; auto; try discriminate.
    eapply Forall_impl; [|exact Hb]. cbn beta. lia.
  - apply FrameFilesFacts.listing_of_frames; auto; try discriminate.
    eapply Forall_impl; [|exact Hb]. cbn beta. lia.
  - subst files. rewrite (Hun eq_refl) in *. cbn [map] in *.
    apply Permutation_sym, Permutation_nil in Hp. subst listing. reflexivity.
Qed.

Lemma extracted_frames_are_listed_in_order_example :
  let file_of := frame_file "frame" Mp4.Png (fun n => Some [Byte.x00]) in
  BinaryImage.get_image_files
    (BinaryImage.Directory [file_of 5; file_of 0])
  = Some (map (frame_file "frame" (Mp4.normalize_format "png")
                 (fun n => Some [Byte.x00]))
              (Mp4.frames_written
                 (Mp4.extract_frames no_rounding Samples.clip_10 "png"
                    (Some (1 # 5)) None 0 None))).
Proof.
  apply (extracted_frames_are_listed_in_order no_rounding
           Samples.clip_10 "png" (Some (1 # 5)) None 0 None "frame"
           (fun n => Some [Byte.x00])).
  - discriminate.
  - cbn. lia.
  - apply perm_swap.
Defined.

End PipelineFacts.

Module ZeroOptions.
Import Py.
Local Open Scope Z_scope.

(** X20: in both batch tools an option given as 0 counts as not given.
    The extractor treats [--interval 0], [--max-frames 0] and
    [--end-time 0] like their absence, and its validation lets them pass
    like absent options; the resizer treats width 0 and height 0 like
    their absence, in resizing and in validation, so that [--width 0] (and
    likewise [--height 0]) alone is rejected as a missing size and the tool
    exits with 1; [--width 0 --height 0] does not get that far: [argparse]
    refuses the two options together and the tool exits with 2. *)
Theorem zero_options_mean_absent (fl : Q -> Q) :
  (forall v fmt interval max_frames start_time end_time,
     Mp4.extract_frames fl v fmt (Some 0%Q) max_frames start_time end_time
     = Mp4.extract_frames fl v fmt None max_frames start_time end_time
     /\ Mp4.extract_frames fl v fmt interval (Some 0) start_time end_time
        = Mp4.extract_frames fl v fmt interval None start_time end_time
     /\ Mp4.extract_frames fl v fmt interval max_frames start_time (Some 0%Q)
        = Mp4.extract_frames fl v fmt interval max_frames start_time None
     /\ Mp4.validate_args
          {| Mp4.video_file := v; Mp4.format := fmt;
             Mp4.interval := Some 0%Q; Mp4.max_frames := Some 0;
             Mp4.start_time := start_time; Mp4.end_time := Some 0%Q |}
        = Mp4.validate_args
            {| Mp4.video_file := v; Mp4.format := fmt;
               Mp4.interval := None; Mp4.max_frames := None;
               Mp4.start_time := start_time; Mp4.end_time := None |})
  /\ (forall f tw th ts,
        Resize.resize_image fl f (Some 0) th ts
        = Resize.resize_image fl f None th ts
        /\ Resize.resize_image fl f tw (Some 0) ts
           = Resize.resize_image fl f tw None ts)
  /\ (forall d h s,
        Resize.validate_args {| Resize.input_dir := d; Resize.width := Some 0;
                                Resize.height := h; Resize.size := s |}
        = Resize.validate_args {| Resize.input_dir := d; Resize.width := None;
                                  Resize.height := h; Resize.size := s |})
  /\ (forall d,
        let options w h :=
          Options {| Resize.o_input_dir := Some d; Resize.o_width := w;
                     Resize.o_height := h; Resize.o_size := None;
                     Resize.o_quality := None |} in
        Resize.parse_args (options (Some 0) None)
        = Namespace {| Resize.input_dir := d; Resize.width := Some 0;
                       Resize.height := None; Resize.size := None |}
        /\ Resize.main fl (options (Some 0) None) = Returns 1
        /\ Resize.parse_args (options None (Some 0))
           = Namespace {| Resize.input_dir := d; Resize.width := None;
                          Resize.height := Some 0; Resize.size := None |}
        /\ Resize.main fl (options None (Some 0)) = Returns 1
        /\ Resize.main fl (options (Some 0) (Some 0)) = SystemExit 2).
Proof.
  split; [|split; [|split]].
  - intros v fmt interval max_frames start_time end_time.
    split; [reflexivity|]. split; [|split; reflexivity].
    unfold Mp4.extract_frames.
    destruct (Mp4.file_exists v); [|reflexivity]. cbn [negb].
    now rewrite Mp4Bounds.extract_loop_no_limit.
  - intros f tw th ts. split; [reflexivity|].
    unfold Resize.resize_image, Resize.choose_size.
    destruct (Resize.opened f); [|reflexivity].
    destruct ts; [reflexivity|]. destruct (truthy_int tw); reflexivity.
  - intros d h s. reflexivity.
  - intros d options. subst options. cbv beta.
    unfold Resize.main. cbn [Resize.parse_args Resize.o_input_dir
      Resize.o_width Resize.o_height Resize.o_size Resize.o_quality
      given in_1_100 andb orb negb].
    assert (E1 : Resize.validate_args
                   {| Resize.input_dir := d; Resize.width := Some 0;
                      Resize.height := None; Resize.size := None |} = false)
      by (destruct d; reflexivity).
    assert (E2 : Resize.validate_args
                   {| Resize.input_dir := d; Resize.width := None;
                      Resize.height := Some 0; Resize.size := None |} = false)
      by (destruct d; reflexivity).
    rewrite E1, E2. repeat split; reflexivity.
Qed.

End ZeroOptions.

Module FailureFacts.
Import Py Ws.

Lemma telemetry_not_failed (e : exn) :
  ~ plain_failure e -> Telemetry.exit_of_exn e <> Telemetry.Failed.
Proof.
  unfold plain_failure. intros H.
  destruct e; cbn; try discriminate; exfalso; apply H; auto.
Qed.

Lemma sender_not_failed (e : exn) :
  ~ plain_failure e -> BinaryImage.exit_of_exn e <> BinaryImage.Failed.
Proof.
  unfold plain_failure. intros H.
  destruct e; cbn; try discriminate; exfalso; apply H; auto.
Qed.

Lemma recv_failure_free (r : recv_result) (e : exn) :
  recv_not_failure r -> recv_escapes r = Some e -> ~ plain_failure e.
Proof.
  intros [H1 H2]. destruct r as [|[| |]|e']; cbn; try discriminate.
  - contradiction.
  - intros [= <-]. now apply H2.
Qed.

Section TelemetryLoop.
Import Telemetry.
Local Open Scope R_scope.
Variable w : world.
Variable a : args.
Variable ws : transport.

Lemma run_fails_by_socket_only (fuel : nat) : forall s,
  Forall radius_ok (states s) ->
  (forall i, no_other_exception (show_responses a) (tick_events ws i)) ->
  fst (run w a ws fuel s) <> Failed.
Proof.
  induction fuel as [|fuel IH]; intros s Hr Hio; cbn [run]; [discriminate|].
  pose proof (TelemetryFacts.build_frame_total w a (frame_id s) (interval_s a)
                (states s) (calls s) Hr) as Hb.
  destruct (Hio (ticks s)) as (Hs & Hresp & Hz).
  unfold tick.
  destruct (keep_going (updates_remaining s)); [|discriminate].
  destruct (build_frame w a (frame_id s) (interval_s a) (states s) (calls s))
    as [[[sts' msg] c']|] eqn:Eb; [|contradiction].
  destruct (TelemetryFacts.build_frame_Some w a _ _ _ _ _ _ _ Eb)
    as (_ & _ & _ & _ & _ & R).
  destruct (send_raises (tick_events ws (ticks s))) as [e|].
  { cbn [fst]. now apply telemetry_not_failed, Hs. }
  destruct (show_responses a).
  - specialize (Hresp eq_refl).
    destruct (recv_escapes (response (tick_events ws (ticks s))))
      as [e|] eqn:Er.
    { cbn [fst]. eapply telemetry_not_failed, recv_failure_free; eassumption. }
    destruct (sleep_raises (tick_events ws (ticks s))) as [e|].
    { cbn [fst]. now apply telemetry_not_failed, Hz. }
    apply IH; [cbn [states]; now apply R|exact Hio].
  - destruct (sleep_raises (tick_events ws (ticks s))) as [e|].
    { cbn [fst]. now apply telemetry_not_failed, Hz. }
    apply IH; [cbn [states]; now apply R|exact Hio].
Qed.

(** X12: with validated finite arguments, and the arithmetic read over
    the real numbers (nothing overflows), the telemetry simulator computes
    every frame without an exception (no orbit radius is zero): once
    connected, and as long as no await raises an exception that
    [except Exception] catches and no message read is a JSON value other
    than an object, the loop never ends in its [except Exception] branch
    and the program returns neither 1 nor 2. *)
Theorem valid_arguments_fail_by_socket_only (cl : command_line options)
    (fuel : nat) :
  parse_args cl = Namespace a ->
  validate_args a = true -> unit_draws w ->
  recv_not_failure (welcome ws) ->
  (forall i, no_other_exception (show_responses a) (tick_events ws i)) ->
  fst (frames_loop w a ws fuel) <> Failed
  /\ main fuel w cl (Connected ws) <> Returns 1%Z
  /\ main fuel w cl (Connected ws) <> Returns 2%Z.
Proof.
  intros Hcl Hv Hu Hw Hio.
  destruct (TelemetryFacts.initial_state_facts w a)
    as (_ & _ & _ & _ & _ & Hr).
  assert (Hrad : Forall radius_ok (states (initial_state w a)))
    by (apply Hr; [now apply TelemetryFacts.validate_args_radius|exact Hu]).
  assert (Hf : fst (frames_loop w a ws fuel) <> Failed).
  { unfold frames_loop.
    destruct (recv_escapes (welcome ws)) as [e|] eqn:Er.
    - cbn [fst]. eapply telemetry_not_failed, recv_failure_free; eassumption.
    - now apply run_fails_by_socket_only. }
  split; [exact Hf|].
  unfold main, main_async. rewrite Hcl, Hv. cbn [negb].
  destruct (fst (frames_loop w a ws fuel)) as [| | | |e|] eqn:E;
    cbn; try contradiction; try (split; discriminate).
  apply ExitCodes.telemetry_loop_escaped in E. subst e.
  cbn. split; discriminate.
Qed.

End TelemetryLoop.

Section SenderLoop.
Import BinaryImage.
Local Open Scope Z_scope.
Variable a : args.
Variable ws : session.
Variable files : list dir_entry.
Hypothesis nonempty : files <> [].

Lemma sender_run_fails_by_socket_only (fuel : nat) : forall s,
  (forall i, no_other_exception true (tick_events (socket ws) i)) ->
  fst (run a ws files fuel s) <> Failed.
Proof.
  assert (Hn : (0 < List.length files)%nat)
    by (destruct files; [contradiction|cbn; lia]).
  induction fuel as [|fuel IH]; intros s Hio; cbn [run]; [discriminate|].
  unfold tick.
  destruct (keep_going (updates_remaining s)); [|discriminate].
  destruct (Nat.leb_spec (List.length files) (image_index s)) as [Hwrap|Hin].
  - destruct (loop a); cbn [negb andb]; [|discriminate].
    destruct (nth_error files 0) as [f|] eqn:Ef.
    2:{ apply nth_error_None in Ef. lia. }
    destruct (data f).
    + destruct (Hio (Z.to_nat (frame_count s))) as (Hs & Hresp & Hz).
      specialize (Hresp eq_refl).
      destruct (send_raises _) as [e|].
      { cbn [fst]. now apply sender_not_failed, Hs. }
      destruct (recv_escapes _) as [e|] eqn:Er.
      { cbn [fst]. eapply sender_not_failed, recv_failure_free; eassumption. }
      destruct (keep_going _); [destruct (sleep_raises _) as [e|]|].
      * cbn [fst]. now apply sender_not_failed, Hz.
      * now apply IH.
      * now apply IH.
    + now apply IH.
  - cbn [andb].
    destruct (nth_error files (image_index s)) as [f|] eqn:Ef.
    2:{ apply nth_error_None in Ef. lia. }
    destruct (data f).
    + destruct (Hio (Z.to_nat (frame_count s))) as (Hs & Hresp & Hz).
      specialize (Hresp eq_refl).
      destruct (send_raises _) as [e|].
      { cbn [fst]. now apply sender_not_failed, Hs. }
      destruct (recv_escapes _) as [e|] eqn:Er.
      { cbn [fst]. eapply sender_not_failed, recv_failure_free; eassumption. }
      destruct (keep_going _); [destruct (sleep_raises _) as [e|]|].
      * cbn [fst]. now apply sender_not_failed, Hz.
      * now apply IH.
      * now apply IH.
    + now apply IH.
Qed.

End SenderLoop.

(** X17: as long as the socket raises nothing but interrupts and closed
    connections, [send_binary_images] returns 1 only before sending
    anything, because the frames directory is missing or holds no image
    file: no index ever falls outside the list of images. *)
Theorem sender_fails_for_files_or_socket_only
    (fuel : nat) (a : BinaryImage.args) (ws : BinaryImage.session)
    (final : BinaryImage.loop_state) :
  (forall i, no_other_exception true
               (tick_events (BinaryImage.socket ws) i)) ->
  BinaryImage.send_binary_images fuel a ws = BinaryImage.Returned 1 final ->
  (BinaryImage.get_image_files (BinaryImage.frames_dir a) = None
   \/ BinaryImage.get_image_files (BinaryImage.frames_dir a) = Some [])
  /\ BinaryImage.sent final = [].
Proof.
  intros Hio. unfold BinaryImage.send_binary_images.
  destruct (BinaryImage.get_image_files (BinaryImage.frames_dir a))
    as [[|f rest]|] eqn:Ef.
  - intros [= <-]. split; [now right|reflexivity].
  - destruct (recv_escapes (welcome (BinaryImage.socket ws)));
      [discriminate|].
    assert (Hloop : forall sent0,
              BinaryImage.send_loop fuel a ws (f :: rest) sent0
              <> BinaryImage.Returned 1 final).
    { intros sent0. unfold BinaryImage.send_loop.
      pose proof (sender_run_fails_by_socket_only a ws (f :: rest)
                    ltac:(discriminate) fuel
                    (BinaryImage.start_state a sent0) Hio) as Hr.
      destruct (BinaryImage.run a ws (f :: rest) fuel
                  (BinaryImage.start_state a sent0)) as [e s'].
      cbn [fst] in Hr. destruct e; try discriminate. contradiction. }
    destruct (BinaryImage.send_metadata_json a).
    + destruct (BinaryImage.metadata_send_raises ws); [discriminate|].
      destruct (recv_escapes (BinaryImage.metadata_ack ws)); [discriminate|].
      intros E. now apply Hloop in E.
    + intros E. now apply Hloop in E.
  - intros [= <-]. split; [now left|reflexivity].
Qed.

Lemma valid_arguments_fail_by_socket_only_example :
  fst (Telemetry.frames_loop Samples.still_world
         Samples.two_drones_five_updates Samples.calm_socket 6)
  <> Telemetry.Failed
  /\ Telemetry.main 6 Samples.still_world Samples.two_drones_five_command
       (Telemetry.Connected Samples.calm_socket) <> Returns 1%Z
  /\ Telemetry.main 6 Samples.still_world Samples.two_drones_five_command
       (Telemetry.Connected Samples.calm_socket) <> Returns 2%Z.
Proof.
  apply (valid_arguments_fail_by_socket_only Samples.still_world
           Samples.two_drones_five_updates Samples.calm_socket
           Samples.two_drones_five_command 6).
  - exact TelemetryFacts.two_drones_command_parses.
  - exact TelemetryFacts.two_drones_args_valid.
  - exact TelemetryFacts.still_world_unit_draws.
  - split; [discriminate|]. intros e. discriminate.
  - intros i. repeat split; try discriminate; intros e; discriminate.
Defined.

Lemma sender_fails_for_files_or_socket_only_example :
  (BinaryImage.get_image_files
     (BinaryImage.frames_dir Samples.missing_dir_args) = None
   \/ BinaryImage.get_image_files
        (BinaryImage.frames_dir Samples.missing_dir_args) = Some [])
  /\ BinaryImage.sent (BinaryImage.start_state Samples.missing_dir_args [])
     = [].
Proof.
  apply (sender_fails_for_files_or_socket_only 4 Samples.missing_dir_args
           Samples.calm_session
           (BinaryImage.start_state Samples.missing_dir_args [])).
  - intros i. repeat split; try discriminate; intros e; discriminate.
  - reflexivity.
Defined.

End FailureFacts.
